(** * Ocean Shipment Processor: the upload / review workflow

    A shallow embedding of the client-side logic of the application:
    - [lib/api.ts]: the extraction client ([cleanNumericValue],
      [processDocument]);
    - [lib/types.ts]: the Zod validation rules of the shipment fields;
    - [contexts/document-context.tsx]: the React context that owns the
      in-memory batches ([uploadDocuments], [updateDocumentData],
      [updateBatchStatus], [loadShipmentRequest]);
    - [components/data-table.tsx]: the completion path and the blur-commit
      path of the review form;
    - [components/history-list.tsx]: the merge of the store's records with
      the session's batches, and the click on an item;
    - [components/file-uploader.tsx]: the state of the upload form;
    - [middleware.ts] and [app/(auth)/actions.ts]: the access rule and the
      redirects of the auth actions;
    - the server-side helper [createShipmentRequest].

    JavaScript strings are sequences of UTF-16 code units, JSON values are
    an inductive type, [throw]/[catch] is an explicit result, and the
    network, the store and the React state are threaded through a small
    state-and-exception monad.  A handler is embedded as it runs when no
    other handler overlaps it; the callbacks that read the state of the
    render that made them have a second form, which takes what that
    render saw, for the runs in which handlers overlap. *)

From Stdlib Require Import String Ascii DecimalString.
From Stdlib Require Import List ZArith NArith Bool Lia.
Import ListNotations.

Set Implicit Arguments.
Set Warnings "-register-all".

(* ===================================================================== *)
(** * JavaScript values *)
(* ===================================================================== *)

Module JS.

(** A string is a list of UTF-16 code units; [length] is the JS [.length]. *)
Definition jsstring := list N.

(** An ASCII literal of the source, as code units. *)
Definition lit (s : string) : jsstring :=
  map N_of_ascii (list_ascii_of_string s).

(** [a === b] on strings. *)
Fixpoint str_eqb (a b : jsstring) : bool :=
  match a, b with
  | [], [] => true
  | x :: a', y :: b' => N.eqb x y && str_eqb a' b'
  | _, _ => false
  end.

(** Decimal rendering of a non-negative integer (template literals). *)
Definition dec (n : N) : jsstring := lit (NilZero.string_of_uint (N.to_uint n)).

(** WhiteSpace and LineTerminator code units: what [\s] matches and what
    [String.prototype.trim] removes. *)
Definition is_space (c : N) : bool :=
  ((9 <=? c) && (c <=? 13) || (c =? 32) || (c =? 160) || (c =? 5760)
   || (8192 <=? c) && (c <=? 8202) || (c =? 8232) || (c =? 8233)
   || (c =? 8239) || (c =? 8287) || (c =? 12288) || (c =? 65279))%N.

Fixpoint trimStart (s : jsstring) : jsstring :=
  match s with
  | c :: s' => if is_space c then trimStart s' else s
  | [] => []
  end.

Definition trimEnd (s : jsstring) : jsstring := rev (trimStart (rev s)).

Definition trim (s : jsstring) : jsstring := trimStart (trimEnd s).

(** ASCII lower-casing; [toLowerCase] restricted to the code units that can
    produce the letters of [".pdf"]. *)
Definition lower (c : N) : N :=
  if ((65 <=? c) && (c <=? 90))%N then (c + 32)%N else c.

Definition toLowerCase (s : jsstring) : jsstring := map lower s.

Definition endsWith (s suffix : jsstring) : bool :=
  (length suffix <=? length s)%nat
  && str_eqb (skipn (length s - length suffix) s) suffix.

(** A value as [JSON.parse] builds it, plus [undefined] for an absent
    property.  A number is kept as its canonical rendering
    ([Number::toString]), the only observation the program makes of it,
    together with its truthiness: the renderings ["0"] (both zeros) and
    ["NaN"] are the falsy numbers. *)
Inductive value :=
| VUndefined
| VNull
| VBool (b : bool)
| VNumber (repr : jsstring)
| VString (s : jsstring)
| VArray (elems : list value)
| VObject (props : list (jsstring * value)).

(** What a [throw] carries: an [Error] instance with its message, or
    anything else. *)
Inductive thrown :=
| ErrorObject (message : jsstring)
| OtherThrown.

(** A completion: normal, or abrupt by [throw]. *)
Inductive completion (A : Type) :=
| Normal (a : A)
| Throw (e : thrown).
Arguments Normal {A} a.
Arguments Throw {A} e.

(** The engine's [TypeError]s.  Their wording is the engine's own (V8's
    is used here); no result below depends on it.  The first names what
    was read from, [null] or [undefined], and the key that was read. *)
Definition TypeError_null_property (from key : jsstring) : thrown :=
  ErrorObject (lit "Cannot read properties of " ++ from
               ++ lit " (reading '" ++ key ++ lit "')").
Definition TypeError_not_a_function : thrown :=
  ErrorObject (lit "value.toString is not a function").
Definition TypeError_not_primitive : thrown :=
  ErrorObject (lit "Cannot convert object to primitive value").

(** [!!v] *)
Definition truthy (v : value) : bool :=
  match v with
  | VUndefined | VNull => false
  | VBool b => b
  | VNumber r => negb (str_eqb r (lit "0") || str_eqb r (lit "NaN"))
  | VString s => negb (str_eqb s [])
  | VArray _ | VObject _ => true
  end.

Fixpoint own_property (props : list (jsstring * value)) (key : jsstring)
  : option value :=
  match props with
  | [] => None
  | (k, v) :: rest => if str_eqb k key then Some v else own_property rest key
  end.

(** [v.key] for the property names this program reads (none of them is a
    member of a built-in prototype): reading off [null] or [undefined]
    throws, an object gives its own property, anything else [undefined]. *)
Definition get (v : value) (key : jsstring) : completion value :=
  match v with
  | VUndefined => Throw (TypeError_null_property (lit "undefined") key)
  | VNull => Throw (TypeError_null_property (lit "null") key)
  | VObject props =>
      match own_property props key with
      | Some x => Normal x
      | None => Normal VUndefined
      end
  | _ => Normal VUndefined
  end.

(** The abstract operation ToString on JSON-built values.  A plain object
    renders as ["[object Object]"] unless an own (hence non-callable)
    [toString] property shadows the inherited method, in which case the
    conversion throws; an array joins its elements with [","], rendering
    [null] and [undefined] as the empty string. *)
Fixpoint ToString (v : value) : option jsstring :=
  match v with
  | VUndefined => Some (lit "undefined")
  | VNull => Some (lit "null")
  | VBool true => Some (lit "true")
  | VBool false => Some (lit "false")
  | VNumber r => Some r
  | VString s => Some s
  | VArray elems =>
      (fix join (l : list value) : option jsstring :=
         match l with
         | [] => Some []
         | x :: rest =>
             let sx := match x with
                       | VUndefined | VNull => Some []
                       | _ => ToString x
                       end in
             match sx, rest with
             | None, _ => None
             | Some a, [] => Some a
             | Some a, _ :: _ =>
                 match join rest with
                 | Some b => Some (a ++ lit "," ++ b)
                 | None => None
                 end
             end
         end) elems
  | VObject props =>
      match own_property props (lit "toString") with
      | Some _ => None
      | None => Some (lit "[object Object]")
      end
  end.

(** [v.toString()] on a truthy value.  On a plain object with an own
    [toString] property the call itself fails, the property being no
    function; on an array the inherited method runs and fails in an
    element that has no string conversion. *)
Definition toString_method (v : value) : completion jsstring :=
  match ToString v with
  | Some s => Normal s
  | None =>
      match v with
      | VArray _ => Throw TypeError_not_primitive
      | _ => Throw TypeError_not_a_function
      end
  end.

(** [err instanceof Error ? err.message : fallback] *)
Definition message_or (e : thrown) (fallback : jsstring) : jsstring :=
  match e with
  | ErrorObject m => m
  | OtherThrown => fallback
  end.

End JS.
Import JS.

(* ===================================================================== *)
(** * Regular expressions *)
(* ===================================================================== *)

(** The fragment of ECMAScript patterns the sources use: character
    classes, greedy repetition of a class, sequence, ordered alternation
    and the two anchors (no [m] flag), with the backtracking semantics of
    the language: a matcher takes the continuation of the rest of the
    pattern and returns the end index of the first successful path. *)
Module Regex.

Inductive regex :=
| Eps
| Chr (p : N -> bool)
| StarC (p : N -> bool)
| Seq (a b : regex)
| Alt (a b : regex)
| Bol
| Eol.

Definition cont := nat -> jsstring -> option nat.

Fixpoint star (p : N -> bool) (k : cont) (i : nat) (s : jsstring) : option nat :=
  match s with
  | c :: s' =>
      if p c then
        match star p k (S i) s' with
        | Some e => Some e
        | None => k i s
        end
      else k i s
  | [] => k i s
  end.

Fixpoint m (r : regex) (k : cont) (i : nat) (s : jsstring) : option nat :=
  match r with
  | Eps => k i s
  | Chr p =>
      match s with
      | c :: s' => if p c then k (S i) s' else None
      | [] => None
      end
  | StarC p => star p k i s
  | Seq a b => m a (m b k) i s
  | Alt a b =>
      match m a k i s with
      | Some e => Some e
      | None => m b k i s
      end
  | Bol => match i with O => k i s | S _ => None end
  | Eol => match s with [] => k i s | _ :: _ => None end
  end.

(** [RegExp.prototype.exec] without the [g] flag: the match at the
    smallest start index, as (start, end). *)
Fixpoint search (r : regex) (i : nat) (s : jsstring) : option (nat * nat) :=
  match m r (fun e _ => Some e) i s with
  | Some e => Some (i, e)
  | None =>
      match s with
      | [] => None
      | _ :: s' => search r (S i) s'
      end
  end.

Definition exec (r : regex) (s : jsstring) : option (nat * nat) := search r 0 s.

Definition test (r : regex) (s : jsstring) : bool :=
  match exec r s with Some _ => true | None => false end.

(** [s.replace(r, by)] for a pattern without the [g] flag. *)
Definition replace (r : regex) (s by_ : jsstring) : jsstring :=
  match exec r s with
  | Some (b, e) => firstn b s ++ by_ ++ skipn e s
  | None => s
  end.

(** Canonicalize of the [i] flag (non-unicode mode) on ASCII; a code unit
    of 128 or more never canonicalizes to an ASCII one. *)
Definition canonicalize (c : N) : N :=
  if ((97 <=? c) && (c <=? 122))%N then (c - 32)%N else c.

(** A literal character under the [i] flag. *)
Definition chr_i (c : N) : regex :=
  Chr (fun x => N.eqb (canonicalize x) (canonicalize c)).

(** A class given by a predicate, under the [i] flag: [x] matches when
    its canonical form is the canonical form of a member.  For a range of
    ASCII letters this is membership of either case. *)
Definition in_range (lo hi : N) (c : N) : bool := ((lo <=? c) && (c <=? hi))%N.
Definition range_i (lo hi : N) : regex :=
  Chr (fun x => in_range (canonicalize lo) (canonicalize hi) (canonicalize x)).

Definition is_digit (c : N) : bool := in_range 48 57 c.

Fixpoint str_i (s : jsstring) : regex :=
  match s with
  | [] => Eps
  | [c] => chr_i c
  | c :: s' => Seq (chr_i c) (str_i s')
  end.

Fixpoint times (n : nat) (r : regex) : regex :=
  match n with
  | O => Eps
  | 1%nat => r
  | S n' => Seq r (times n' r)
  end.

Fixpoint seqs (l : list regex) : regex :=
  match l with
  | [] => Eps
  | [r] => r
  | r :: l' => Seq r (seqs l')
  end.

Fixpoint alts (l : list regex) : regex :=
  match l with
  | [] => Eps
  | [r] => r
  | r :: l' => Alt r (alts l')
  end.

(** [c+] and [(r)?] *)
Definition plusC (p : N -> bool) : regex := Seq (Chr p) (StarC p).
Definition opt (r : regex) : regex := Alt r Eps.

End Regex.
Import Regex.

(* ===================================================================== *)
(** * lib/types.ts *)
(* ===================================================================== *)

Module Types.

(** The eight shipment fields.  The static type says [string]; at run time
    a field holds whatever the extraction response or the stored JSON
    held, so the fields are values. *)
Record OceanShipmentData := {
  billOfLadingNumber : value;
  containerNumber : value;
  consigneeName : value;
  consigneeAddress : value;
  dateOfExport : value;
  lineItemsCount : value;
  averageGrossWeight : value;
  averagePrice : value
}.

(** [Partial<OceanShipmentData>]: [None] is an absent key. *)
Record PartialData := {
  p_billOfLadingNumber : option value;
  p_containerNumber : option value;
  p_consigneeName : option value;
  p_consigneeAddress : option value;
  p_dateOfExport : option value;
  p_lineItemsCount : option value;
  p_averageGrossWeight : option value;
  p_averagePrice : option value
}.

Definition over (old : value) (new : option value) : value :=
  match new with Some v => v | None => old end.

(** [{ ...d, ...p }] *)
Definition spread (d : OceanShipmentData) (p : PartialData) : OceanShipmentData :=
  {| billOfLadingNumber := over (billOfLadingNumber d) (p_billOfLadingNumber p);
     containerNumber := over (containerNumber d) (p_containerNumber p);
     consigneeName := over (consigneeName d) (p_consigneeName p);
     consigneeAddress := over (consigneeAddress d) (p_consigneeAddress p);
     dateOfExport := over (dateOfExport d) (p_dateOfExport p);
     lineItemsCount := over (lineItemsCount d) (p_lineItemsCount p);
     averageGrossWeight := over (averageGrossWeight d) (p_averageGrossWeight p);
     averagePrice := over (averagePrice d) (p_averagePrice p) |}.

Inductive FileType := pdf | excel.

Record ProcessedDocument := {
  doc_id : jsstring;
  fileName : jsstring;
  fileType : FileType;
  doc_uploadedAt : option Z;
  data : OceanShipmentData;
  fileUrl : option jsstring
}.

Record ProcessBatch := {
  id : jsstring;
  title : jsstring;
  description : option jsstring;
  status : option jsstring;
  files : list ProcessedDocument;
  uploadedAt : option Z;
  fileCount : nat;
  shipmentRequestId : option jsstring
}.

(** ** The clock and [Date] *)

(** A [Date] is its time value in milliseconds, [None] for an invalid
    date (NaN).  The parser of [new Date(string)], the clock and the local
    time zone adjustment belong to the engine. *)
Record DateEnv := {
  Date_parse : jsstring -> option Z;
  Date_now : Z;
  LocalTZA : Z -> bool -> Z
}.

Definition msPerDay : Z := 86400000.

Definition MakeTime (h mi s ms : Z) : Z :=
  (h * 3600000 + mi * 60000 + s * 1000 + ms)%Z.

(** [d.setHours(h, mi, s, ms)]: replace the time within the local day. *)
Definition setHours (E : DateEnv) (h mi s ms : Z) (d : option Z) : option Z :=
  match d with
  | None => None
  | Some t =>
      let local := (t + LocalTZA E t true)%Z in
      let date := ((local / msPerDay) * msPerDay + MakeTime h mi s ms)%Z in
      Some (date - LocalTZA E date false)%Z
  end.

(** [a <= b] on dates: a comparison of time values, false with NaN. *)
Definition date_le (a b : option Z) : bool :=
  match a, b with
  | Some x, Some y => (x <=? y)%Z
  | _, _ => false
  end.

(** [!isNaN(date.getTime())] *)
Definition date_valid (a : option Z) : bool :=
  match a with Some _ => true | None => false end.

(** ** Zod string schemas *)

(** A string schema is a chain of checks, each with its message; parsing
    runs every check and collects the issues. *)
Inductive check :=
| min (n : nat) (message : jsstring)
| max (n : nat) (message : jsstring)
| regex (r : Regex.regex) (message : jsstring)
| refine (f : jsstring -> bool) (message : jsstring).

Definition check_passes (c : check) (s : jsstring) : bool :=
  match c with
  | min n _ => (n <=? length s)%nat
  | max n _ => (length s <=? n)%nat
  | regex r _ => Regex.test r s
  | refine f _ => f s
  end.

Definition check_message (c : check) : jsstring :=
  match c with
  | min _ m | max _ m | regex _ m | refine _ m => m
  end.

Inductive issue :=
| invalid_type
| failed (message : jsstring).

Definition safeParse (schema : list check) (v : value) : list issue :=
  match v with
  | VString s =>
      map (fun c => failed (check_message c))
          (filter (fun c => negb (check_passes c s)) schema)
  | _ => [invalid_type]
  end.

Definition accepts (schema : list check) (v : value) : bool :=
  match safeParse schema v with [] => true | _ :: _ => false end.

(** [/^[A-Z]{4}\d{7}$/i] *)
Definition containerNumber_pattern : Regex.regex :=
  seqs [Bol; times 4 (range_i 65 90); times 7 (Chr is_digit); Eol].

Definition containerNumber_schema : list check :=
  [ min 11 (lit "Container Number must be 11 characters");
    max 11 (lit "Container Number must be 11 characters");
    regex containerNumber_pattern
      (lit "Container Number must be 4 letters followed by 7 digits (e.g., MSCU1234567)") ].

Definition dateOfExport_schema (E : DateEnv) : list check :=
  [ min 1 (lit "Date of Export is required");
    refine (fun val =>
              let date := Date_parse E val in
              date_valid date)
           (lit "Date of Export must be a valid date");
    refine (fun val =>
              let date := Date_parse E val in
              let today := Some (Date_now E) in
              let today := setHours E 23 59 59 999 today in
              date_le date today)
           (lit "Date of Export cannot be in the future") ].

(** ** The other field rules *)

(** [/^[A-Z0-9]+$/i]: under the [i] flag a character is in the class when
    its canonical form is. *)
Definition billOfLadingNumber_pattern : Regex.regex :=
  seqs [ Bol;
         plusC (fun x => in_range 65 90 (canonicalize x)
                         || in_range 48 57 (canonicalize x));
         Eol ].

Definition billOfLadingNumber_schema : list check :=
  [ min 5 (lit "Bill of Lading must be at least 5 characters");
    max 50 (lit "Bill of Lading must not exceed 50 characters");
    regex billOfLadingNumber_pattern
      (lit "Bill of Lading must contain only letters and numbers") ].

(** [/^[a-zA-Z0-9\s\-\.]+$/] *)
Definition consigneeName_pattern : Regex.regex :=
  seqs [ Bol;
         plusC (fun x => in_range 97 122 x || in_range 65 90 x || in_range 48 57 x
                         || is_space x || N.eqb x 45 || N.eqb x 46);
         Eol ].

Definition consigneeName_schema : list check :=
  [ min 2 (lit "Consignee Name must be at least 2 characters");
    max 200 (lit "Consignee Name must not exceed 200 characters");
    regex consigneeName_pattern
      (lit "Consignee Name can only contain letters, numbers, spaces, hyphens, and periods") ].

Definition consigneeAddress_schema : list check :=
  [ min 10 (lit "Consignee Address must be at least 10 characters");
    max 500 (lit "Consignee Address must not exceed 500 characters") ].

(** The value of the longest prefix of decimal digits, after [acc]. *)
Fixpoint digits_value (acc : N) (s : jsstring) : N :=
  match s with
  | c :: s' => if is_digit c then digits_value (10 * acc + (c - 48)) s' else acc
  | [] => acc
  end.

(** [parseInt(s, 10)]: leading whitespace and one sign are skipped and
    the longest prefix of decimal digits is read; [None] is NaN.  The
    value is kept exact: the engine rounds it to a double, which changes
    no comparison with an integer that a double holds exactly. *)
Definition parseInt10 (s : jsstring) : option Z :=
  let s1 := trimStart s in
  let signed :=
    match s1 with
    | 45%N :: r => (true, r)
    | 43%N :: r => (false, r)
    | _ => (false, s1)
    end in
  match snd signed with
  | c :: _ =>
      if is_digit c then
        let v := Z.of_N (digits_value 0 (snd signed)) in
        Some (if fst signed then (- v)%Z else v)
      else None
  | [] => None
  end.

(** [num >= lo && num <= hi] on a parsed integer, false with NaN. *)
Definition int_between (num : option Z) (lo hi : Z) : bool :=
  match num with
  | Some n => (lo <=? n)%Z && (n <=? hi)%Z
  | None => false
  end.

(** [/^\d+$/] *)
Definition lineItemsCount_pattern : Regex.regex :=
  seqs [Bol; plusC is_digit; Eol].

Definition lineItemsCount_schema : list check :=
  [ min 1 (lit "Line Items Count is required");
    regex lineItemsCount_pattern (lit "Line Items Count must be a whole number");
    refine (fun val =>
              let num := parseInt10 val in
              int_between num 1 10000)
           (lit "Line Items Count must be between 1 and 10,000") ].

(** [/^\d+(\.\d+)?$/] *)
Definition decimal_pattern : Regex.regex :=
  seqs [ Bol; plusC is_digit;
         opt (seqs [Chr (N.eqb 46); plusC is_digit]);
         Eol ].

(** Doubles belong to the engine: [parseFloat], the two comparisons and
    the three literals of the range checks. *)
Record FloatEnv := {
  number : Type;
  parseFloat : jsstring -> number;
  number_ge : number -> number -> bool;
  number_le : number -> number -> bool;
  lit_0_01 : number;
  lit_999999_99 : number;
  lit_9999999_99 : number
}.

Definition averageGrossWeight_schema (F : FloatEnv) : list check :=
  [ min 1 (lit "Gross Weight is required");
    regex decimal_pattern (lit "Gross Weight must be a positive number");
    refine (fun val =>
              let num := parseFloat F val in
              number_ge F num (lit_0_01 F) && number_le F num (lit_999999_99 F))
           (lit "Gross Weight must be between 0.01 and 999,999.99 KG") ].

Definition averagePrice_schema (F : FloatEnv) : list check :=
  [ min 1 (lit "Average Price is required");
    regex decimal_pattern (lit "Average Price must be a positive number");
    refine (fun val =>
              let num := parseFloat F val in
              number_ge F num (lit_0_01 F) && number_le F num (lit_9999999_99 F))
           (lit "Average Price must be between 0.01 and 9,999,999.99") ].

(** [OceanShipmentDataSchema]: an object is accepted when each of its
    eight fields is. *)
Definition OceanShipmentDataSchema (E : DateEnv) (F : FloatEnv)
    (d : OceanShipmentData) : bool :=
  accepts billOfLadingNumber_schema (billOfLadingNumber d)
  && accepts containerNumber_schema (containerNumber d)
  && accepts consigneeName_schema (consigneeName d)
  && accepts consigneeAddress_schema (consigneeAddress d)
  && accepts (dateOfExport_schema E) (dateOfExport d)
  && accepts lineItemsCount_schema (lineItemsCount d)
  && accepts (averageGrossWeight_schema F) (averageGrossWeight d)
  && accepts (averagePrice_schema F) (averagePrice d).

(** The keys of the eight fields, with [d[key]] and [{ [key]: v }]. *)
Inductive FieldKey :=
| k_billOfLadingNumber | k_containerNumber | k_consigneeName
| k_consigneeAddress | k_dateOfExport | k_lineItemsCount
| k_averageGrossWeight | k_averagePrice.

Definition get_field (key : FieldKey) (d : OceanShipmentData) : value :=
  match key with
  | k_billOfLadingNumber => billOfLadingNumber d
  | k_containerNumber => containerNumber d
  | k_consigneeName => consigneeName d
  | k_consigneeAddress => consigneeAddress d
  | k_dateOfExport => dateOfExport d
  | k_lineItemsCount => lineItemsCount d
  | k_averageGrossWeight => averageGrossWeight d
  | k_averagePrice => averagePrice d
  end.

Definition no_keys : PartialData :=
  {| p_billOfLadingNumber := None; p_containerNumber := None;
     p_consigneeName := None; p_consigneeAddress := None;
     p_dateOfExport := None; p_lineItemsCount := None;
     p_averageGrossWeight := None; p_averagePrice := None |}.

Definition one_key (key : FieldKey) (v : value) : PartialData :=
  match key with
  | k_billOfLadingNumber =>
      {| p_billOfLadingNumber := Some v; p_containerNumber := None;
         p_consigneeName := None; p_consigneeAddress := None;
         p_dateOfExport := None; p_lineItemsCount := None;
         p_averageGrossWeight := None; p_averagePrice := None |}
  | k_containerNumber =>
      {| p_billOfLadingNumber := None; p_containerNumber := Some v;
         p_consigneeName := None; p_consigneeAddress := None;
         p_dateOfExport := None; p_lineItemsCount := None;
         p_averageGrossWeight := None; p_averagePrice := None |}
  | k_consigneeName =>
      {| p_billOfLadingNumber := None; p_containerNumber := None;
         p_consigneeName := Some v; p_consigneeAddress := None;
         p_dateOfExport := None; p_lineItemsCount := None;
         p_averageGrossWeight := None; p_averagePrice := None |}
  | k_consigneeAddress =>
      {| p_billOfLadingNumber := None; p_containerNumber := None;
         p_consigneeName := None; p_consigneeAddress := Some v;
         p_dateOfExport := None; p_lineItemsCount := None;
         p_averageGrossWeight := None; p_averagePrice := None |}
  | k_dateOfExport =>
      {| p_billOfLadingNumber := None; p_containerNumber := None;
         p_consigneeName := None; p_consigneeAddress := None;
         p_dateOfExport := Some v; p_lineItemsCount := None;
         p_averageGrossWeight := None; p_averagePrice := None |}
  | k_lineItemsCount =>
      {| p_billOfLadingNumber := None; p_containerNumber := None;
         p_consigneeName := None; p_consigneeAddress := None;
         p_dateOfExport := None; p_lineItemsCount := Some v;
         p_averageGrossWeight := None; p_averagePrice := None |}
  | k_averageGrossWeight =>
      {| p_billOfLadingNumber := None; p_containerNumber := None;
         p_consigneeName := None; p_consigneeAddress := None;
         p_dateOfExport := None; p_lineItemsCount := None;
         p_averageGrossWeight := Some v; p_averagePrice := None |}
  | k_averagePrice =>
      {| p_billOfLadingNumber := None; p_containerNumber := None;
         p_consigneeName := None; p_consigneeAddress := None;
         p_dateOfExport := None; p_lineItemsCount := None;
         p_averageGrossWeight := None; p_averagePrice := Some v |}
  end.

(** The object [{}] read as shipment data: every key reads [undefined]. *)
Definition empty_object : OceanShipmentData :=
  {| billOfLadingNumber := VUndefined; containerNumber := VUndefined;
     consigneeName := VUndefined; consigneeAddress := VUndefined;
     dateOfExport := VUndefined; lineItemsCount := VUndefined;
     averageGrossWeight := VUndefined; averagePrice := VUndefined |}.

End Types.
Import Types.

(* ===================================================================== *)
(** * The world the client runs in *)
(* ===================================================================== *)

(** The external collaborators (identity provider, record store, log
    store, extraction endpoint, clock, random source) and the React state
    of the document context, with the monad that threads them. *)
Module World.

Record File := { name : jsstring; type : jsstring }.

(** A row of [shipment_requests]. *)
Record ShipmentRequest := {
  sr_id : jsstring;
  sr_title : jsstring;
  sr_description : option jsstring;
  sr_status : jsstring;
  sr_extracted_data : option OceanShipmentData;
  sr_user_id : jsstring;
  sr_created_at : option Z
}.

(** A row of [shipment_request_logs]. *)
Record LogEntry := {
  log_shipment_request_id : jsstring;
  log_status : jsstring;
  log_actor : jsstring;
  log_payload : option OceanShipmentData
}.

(** Both tables, newest row first. *)
Record Db := {
  shipment_requests : list ShipmentRequest;
  shipment_request_logs : list LogEntry
}.

(** The [{ data, error }] pair of the store's client; the error is its
    message. *)
Record Response (A : Type) := {
  resp_data : option A;
  resp_error : option jsstring
}.

Record AuthResponse := {
  user : option jsstring;
  authError : option jsstring
}.

Record HttpResponse := {
  http_status : N;
  http_json : completion value
}.

(** [response.ok] *)
Definition ok (r : HttpResponse) : bool :=
  ((200 <=? http_status r) && (http_status r <=? 299))%N.

(** Every request that leaves the browser. *)
Inductive event :=
| AuthGetUser
| InsertShipmentRequest (title : jsstring)
| SelectShipmentRequest (id : jsstring)
| SelectRecentShipmentRequest (user_id : jsstring)
| UpdateShipmentRequest (id : jsstring)
| InsertLog (id status actor : jsstring)
| Fetch (url : jsstring) (formData : list (jsstring * File)).

(** Network reads of the record store. *)
Definition is_read (e : event) : bool :=
  match e with
  | SelectShipmentRequest _ | SelectRecentShipmentRequest _ => true
  | _ => false
  end.

Inductive InsertOutcome :=
| Inserted (id : jsstring) (created_at : option Z)
| InsertFailed (message : jsstring).

(** What the outside answers.  Each answer may depend on the number of
    requests issued so far, so that two calls of one operation need not
    agree. *)
Record Env := {
  NEXT_PUBLIC_API_URL : option jsstring;
  auth_getUser : nat -> AuthResponse;
  insert_outcome : nat -> InsertOutcome;
  select_error : nat -> option jsstring;
  update_error : nat -> option jsstring;
  log_error : nat -> bool;
  fetch : nat -> list (jsstring * File) -> completion HttpResponse;
  now : nat -> Z;
  randomUUID : nat -> jsstring;
  createObjectURL : nat -> jsstring
}.

(** The state held by [DocumentProvider]. *)
Record ContextState := {
  batches : list ProcessBatch;
  currentBatch : option ProcessBatch;
  currentDocument : option ProcessedDocument;
  isProcessing : bool;
  error : option jsstring
}.

Record Sys := {
  db : Db;
  trace : list event;          (* newest first *)
  fresh : nat;                 (* draws of the random source *)
  ui : ContextState
}.

Definition M (A : Type) : Type := Env -> Sys -> Sys * completion A.

Definition ret {A} (a : A) : M A := fun _ s => (s, Normal a).

Definition bind {A B} (c : M A) (f : A -> M B) : M B :=
  fun E s =>
    match c E s with
    | (s', Normal a) => f a E s'
    | (s', Throw e) => (s', Throw e)
    end.

Definition throw {A} (e : thrown) : M A := fun _ s => (s, Throw e).

Definition lift {A} (c : completion A) : M A := fun _ s => (s, c).

Definition try_catch {A} (body : M A) (handler : thrown -> M A) : M A :=
  fun E s =>
    match body E s with
    | (s', Throw e) => handler e E s'
    | r => r
    end.

Definition try_finally {A} (body : M A) (finalizer : M unit) : M A :=
  fun E s =>
    let (s', r) := body E s in
    match finalizer E s' with
    | (s'', Normal _) => (s'', r)
    | (s'', Throw e) => (s'', Throw e)
    end.

Declare Scope js_scope.
Delimit Scope js_scope with js.
Notation "x <- c ;; k" := (bind c (fun x => k))
  (at level 100, c at next level, right associativity) : js_scope.
Notation "c ;; k" := (bind c (fun _ => k))
  (at level 100, right associativity) : js_scope.
Open Scope js_scope.

Definition emit (e : event) (s : Sys) : Sys :=
  {| db := db s; trace := e :: trace s; fresh := fresh s; ui := ui s |}.

Definition with_db (d : Db) (s : Sys) : Sys :=
  {| db := d; trace := trace s; fresh := fresh s; ui := ui s |}.

Definition with_ui (u : ContextState) (s : Sys) : Sys :=
  {| db := db s; trace := trace s; fresh := fresh s; ui := u |}.

(** ** The data access facade *)

(** [supabase.auth.getUser()] *)
Definition getUser : M AuthResponse :=
  fun E s => (emit AuthGetUser s, Normal (auth_getUser E (length (trace s)))).

(** [from("shipment_requests").insert({...}).select("id").single()] *)
Definition insert_shipment_request
    (title : jsstring) (description : option jsstring)
    (status user_id : jsstring) : M (Response jsstring) :=
  fun E s =>
    let s1 := emit (InsertShipmentRequest title) s in
    match insert_outcome E (length (trace s)) with
    | Inserted id created =>
        let row := {| sr_id := id; sr_title := title;
                      sr_description := description; sr_status := status;
                      sr_extracted_data := None; sr_user_id := user_id;
                      sr_created_at := created |} in
        (with_db {| shipment_requests := row :: shipment_requests (db s);
                    shipment_request_logs := shipment_request_logs (db s) |} s1,
         Normal {| resp_data := Some id; resp_error := None |})
    | InsertFailed msg =>
        (s1, Normal {| resp_data := None; resp_error := Some msg |})
    end.

Definition no_rows : jsstring :=
  lit "JSON object requested, multiple (or no) rows returned".

(** [from("shipment_requests").select("*").eq("id", id).single()] *)
Definition select_shipment_request (id : jsstring) : M (Response ShipmentRequest) :=
  fun E s =>
    let s1 := emit (SelectShipmentRequest id) s in
    match select_error E (length (trace s)) with
    | Some msg => (s1, Normal {| resp_data := None; resp_error := Some msg |})
    | None =>
        match find (fun r => str_eqb (sr_id r) id) (shipment_requests (db s)) with
        | Some row => (s1, Normal {| resp_data := Some row; resp_error := None |})
        | None => (s1, Normal {| resp_data := None; resp_error := Some no_rows |})
        end
    end.

(** [select("id").eq("user_id", u).order("created_at", desc).limit(1).single()] *)
Definition select_recent_shipment_request (user_id : jsstring) : M (Response jsstring) :=
  fun E s =>
    let s1 := emit (SelectRecentShipmentRequest user_id) s in
    match select_error E (length (trace s)) with
    | Some msg => (s1, Normal {| resp_data := None; resp_error := Some msg |})
    | None =>
        match find (fun r => str_eqb (sr_user_id r) user_id) (shipment_requests (db s)) with
        | Some row => (s1, Normal {| resp_data := Some (sr_id row); resp_error := None |})
        | None => (s1, Normal {| resp_data := None; resp_error := Some no_rows |})
        end
    end.

(** [from("shipment_requests").update({ status, extracted_data? }).eq("id", id)];
    the result is the error, if any. *)
Definition update_shipment_request
    (id : jsstring) (status : jsstring) (extracted : option OceanShipmentData)
  : M (option jsstring) :=
  fun E s =>
    let s1 := emit (UpdateShipmentRequest id) s in
    match update_error E (length (trace s)) with
    | Some msg => (s1, Normal (Some msg))
    | None =>
        let upd (r : ShipmentRequest) :=
          if str_eqb (sr_id r) id then
            {| sr_id := sr_id r; sr_title := sr_title r;
               sr_description := sr_description r; sr_status := status;
               sr_extracted_data :=
                 match extracted with Some d => Some d | None => sr_extracted_data r end;
               sr_user_id := sr_user_id r; sr_created_at := sr_created_at r |}
          else r in
        (with_db {| shipment_requests := map upd (shipment_requests (db s));
                    shipment_request_logs := shipment_request_logs (db s) |} s1,
         Normal None)
    end.

(** [from("shipment_requests").update({ extracted_data }).eq("id", id)]:
    the update of the one column, the status being left alone. *)
Definition update_extracted_data (id : jsstring) (extracted : OceanShipmentData)
  : M (option jsstring) :=
  fun E s =>
    let s1 := emit (UpdateShipmentRequest id) s in
    match update_error E (length (trace s)) with
    | Some msg => (s1, Normal (Some msg))
    | None =>
        let upd (r : ShipmentRequest) :=
          if str_eqb (sr_id r) id then
            {| sr_id := sr_id r; sr_title := sr_title r;
               sr_description := sr_description r; sr_status := sr_status r;
               sr_extracted_data := Some extracted;
               sr_user_id := sr_user_id r; sr_created_at := sr_created_at r |}
          else r in
        (with_db {| shipment_requests := map upd (shipment_requests (db s));
                    shipment_request_logs := shipment_request_logs (db s) |} s1,
         Normal None)
    end.

(** [from("shipment_request_logs").insert({...})]; a failed insert leaves
    no row and is not reported. *)
Definition insert_log (id status actor : jsstring)
    (payload : option OceanShipmentData) : M unit :=
  fun E s =>
    let s1 := emit (InsertLog id status actor) s in
    if log_error E (length (trace s)) then (s1, Normal tt)
    else
      (with_db {| shipment_requests := shipment_requests (db s);
                  shipment_request_logs :=
                    {| log_shipment_request_id := id; log_status := status;
                       log_actor := actor; log_payload := payload |}
                    :: shipment_request_logs (db s) |} s1,
       Normal tt).

(** [fetch(url, { method: "POST", body: formData })] *)
Definition http_post (url : jsstring) (formData : list (jsstring * File))
  : M HttpResponse :=
  fun E s => (emit (Fetch url formData) s, fetch E (length (trace s)) formData).

(** [new Date()], [crypto.randomUUID()], [URL.createObjectURL(file)] *)
Definition new_Date : M (option Z) :=
  fun E s => (s, Normal (Some (now E (length (trace s))))).

Definition draw (f : Env -> nat -> jsstring) : M jsstring :=
  fun E s =>
    ({| db := db s; trace := trace s; fresh := S (fresh s); ui := ui s |},
     Normal (f E (fresh s))).

Definition crypto_randomUUID : M jsstring := draw randomUUID.
Definition URL_createObjectURL (_ : File) : M jsstring := draw createObjectURL.

Fixpoint mapM {A B} (f : A -> M B) (l : list A) : M (list B) :=
  match l with
  | [] => ret []
  | a :: l' => b <- f a ;; bs <- mapM f l' ;; ret (b :: bs)
  end.

(** ** The React state setters *)

Definition state : M ContextState := fun _ s => (s, Normal (ui s)).

Definition setBatches (f : list ProcessBatch -> list ProcessBatch) : M unit :=
  fun _ s =>
    (with_ui {| batches := f (batches (ui s)); currentBatch := currentBatch (ui s);
                currentDocument := currentDocument (ui s);
                isProcessing := isProcessing (ui s); error := error (ui s) |} s,
     Normal tt).

Definition setCurrentBatch (f : option ProcessBatch -> option ProcessBatch) : M unit :=
  fun _ s =>
    (with_ui {| batches := batches (ui s); currentBatch := f (currentBatch (ui s));
                currentDocument := currentDocument (ui s);
                isProcessing := isProcessing (ui s); error := error (ui s) |} s,
     Normal tt).

Definition setCurrentDocument
    (f : option ProcessedDocument -> option ProcessedDocument) : M unit :=
  fun _ s =>
    (with_ui {| batches := batches (ui s); currentBatch := currentBatch (ui s);
                currentDocument := f (currentDocument (ui s));
                isProcessing := isProcessing (ui s); error := error (ui s) |} s,
     Normal tt).

Definition setIsProcessing (b : bool) : M unit :=
  fun _ s =>
    (with_ui {| batches := batches (ui s); currentBatch := currentBatch (ui s);
                currentDocument := currentDocument (ui s);
                isProcessing := b; error := error (ui s) |} s,
     Normal tt).

Definition setError (e : option jsstring) : M unit :=
  fun _ s =>
    (with_ui {| batches := batches (ui s); currentBatch := currentBatch (ui s);
                currentDocument := currentDocument (ui s);
                isProcessing := isProcessing (ui s); error := e |} s,
     Normal tt).

(** A setter called with a value instead of an updater. *)
Definition to {A} (a : A) : A -> A := fun _ => a.

End World.
Import World.

(* ===================================================================== *)
(** * lib/api.ts *)
(* ===================================================================== *)

Module Api.

(** [process.env.NEXT_PUBLIC_API_URL || "http://localhost:8000"] *)
Definition API_BASE_URL (E : Env) : jsstring :=
  match NEXT_PUBLIC_API_URL E with
  | Some (c :: u) => c :: u
  | _ => lit "http://localhost:8000"
  end.

(** [/\s*(kg|KG|lbs|LBS|g|G)\s*$/i] *)
Definition unit_suffix : Regex.regex :=
  seqs [ StarC is_space;
         alts [ str_i (lit "kg"); str_i (lit "KG"); str_i (lit "lbs");
                str_i (lit "LBS"); str_i (lit "g"); str_i (lit "G") ];
         StarC is_space;
         Eol ].

Definition cleanNumericValue (value : JS.value) : completion jsstring :=
  if negb (truthy value) then Normal []
  else
    match toString_method value with
    | Normal s => Normal (trim (replace unit_suffix s []))
    | Throw e => Throw e
    end.

(** The value [processDocument] resolves to. *)
Record ProcessResult := {
  success : bool;
  result_data : option OceanShipmentData;
  result_error : option jsstring
}.

(** [new Error(v)] for a truthy [v]: the message is ToString of it. *)
Definition new_Error (v : value) : completion thrown :=
  match ToString v with
  | Some m => Normal (ErrorObject m)
  | None => Throw TypeError_not_primitive
  end.

Definition processDocument (files : list File) : M ProcessResult :=
  try_catch
    (let formData := map (fun file => (lit "files", file)) files in
     url <- (fun E s => (s, Normal (API_BASE_URL E ++ lit "/process-documents"))) ;;
     response <- http_post url formData ;;
     if negb (ok response) then
       errorData <- lift (match http_json response with
                          | Normal v => Normal v
                          | Throw _ => Normal (VObject [])
                          end) ;;
       message <- lift (get errorData (lit "message")) ;;
       e <- lift (if truthy message then new_Error message
                  else Normal (ErrorObject
                                 (lit "HTTP error! status: " ++ dec (http_status response)))) ;;
       throw e
     else
       result <- lift (http_json response) ;;
       f1 <- lift (get result (lit "bill_of_lading_number")) ;;
       f2 <- lift (get result (lit "container_number")) ;;
       f3 <- lift (get result (lit "consignee_name")) ;;
       f4 <- lift (get result (lit "consignee_address")) ;;
       f5 <- lift (get result (lit "date_of_export")) ;;
       f6 <- lift (get result (lit "line_items_count")) ;;
       w <- lift (get result (lit "average_gross_weight")) ;;
       f7 <- lift (cleanNumericValue w) ;;
       f8 <- lift (get result (lit "average_price")) ;;
       let data := {| billOfLadingNumber := f1;
                      containerNumber := f2;
                      consigneeName := f3;
                      consigneeAddress := f4;
                      dateOfExport := f5;
                      lineItemsCount := f6;
                      averageGrossWeight := VString f7;
                      averagePrice := f8 |} in
       ret {| success := true; result_data := Some data; result_error := None |})
    (fun error =>
       ret {| success := false; result_data := None;
              result_error := Some (message_or error (lit "Failed to process document")) |}).

End Api.

(* ===================================================================== *)
(** * contexts/document-context.tsx *)
(* ===================================================================== *)

Module DocumentContext.

(** Fire-and-forget log entry. *)
Definition createLog (shipmentRequestId status actor : jsstring)
    (payload : option OceanShipmentData) : M unit :=
  insert_log shipmentRequestId status actor payload.

Definition isValidType (fileType : jsstring) : bool :=
  str_eqb fileType (lit "application/pdf")
  || str_eqb fileType (lit "application/vnd.openxmlformats-officedocument.spreadsheetml.sheet")
  || str_eqb fileType (lit "application/vnd.ms-excel").

Definition invalid_type_message (file : File) : jsstring :=
  lit "Invalid file type for " ++ name file
  ++ lit ". Please upload PDF or Excel files only.".

(** Step 3, the loop over the files. *)
Fixpoint validate_files (files : list File) : M unit :=
  match files with
  | [] => ret tt
  | file :: rest =>
      if negb (isValidType (type file)) then
        throw (ErrorObject (invalid_type_message file))
      else validate_files rest
  end.

Definition needs_review : jsstring := lit "needs review".

Definition set_status (b : ProcessBatch) (st : jsstring) : ProcessBatch :=
  {| id := id b; title := title b; description := description b;
     status := Some st; files := files b; uploadedAt := uploadedAt b;
     fileCount := fileCount b; shipmentRequestId := shipmentRequestId b |}.

(** [description || null] *)
Definition or_null (d : option jsstring) : option jsstring :=
  match d with
  | Some (c :: r) => Some (c :: r)
  | _ => None
  end.

Definition uploadDocuments (files : list File) (title : jsstring)
    (description : option jsstring) : M unit :=
  setIsProcessing true ;;
  setError None ;;
  try_finally
    (try_catch
       ((* Step 1: get authenticated user *)
        auth <- getUser ;;
        match authError auth, user auth with
        | None, Some user_id =>
            (* Step 2: create shipment request BEFORE processing files *)
            ins <- insert_shipment_request title (or_null description)
                     (lit "pending") user_id ;;
            match resp_error ins, resp_data ins with
            | None, Some shipmentRequestId =>
                (* Step 3: validate all files *)
                validate_files files ;;
                createLog shipmentRequestId (lit "uploaded") user_id None ;;
                (* Step 4: process all documents via API *)
                createLog shipmentRequestId (lit "processing started") (lit "AI") None ;;
                result <- Api.processDocument files ;;
                match Api.success result, Api.result_data result with
                | true, Some result_data =>
                    (* Step 5: processed documents for all uploaded files *)
                    processedFiles <-
                      mapM (fun file =>
                              fileUrl <- URL_createObjectURL file ;;
                              docId <- crypto_randomUUID ;;
                              at_ <- new_Date ;;
                              ret {| doc_id := docId;
                                     fileName := name file;
                                     fileType :=
                                       if endsWith (toLowerCase (name file)) (lit ".pdf")
                                       then pdf else excel;
                                     doc_uploadedAt := at_;
                                     data := result_data;
                                     fileUrl := Some fileUrl |}) files ;;
                    (* Step 6: a batch for this upload session *)
                    batchId <- crypto_randomUUID ;;
                    at_ <- new_Date ;;
                    let newBatch :=
                      {| id := batchId; title := title; description := description;
                         status := Some needs_review;
                         files := processedFiles; uploadedAt := at_;
                         fileCount := length files;
                         shipmentRequestId := Some shipmentRequestId |} in
                    createLog shipmentRequestId (lit "processing done") (lit "AI")
                      (Some result_data) ;;
                    (* Step 7: store the extracted data and the new status *)
                    updateError <- update_shipment_request shipmentRequestId
                                     needs_review (Some result_data) ;;
                    let newBatch :=
                      match updateError with
                      | Some _ => newBatch
                      | None => set_status newBatch needs_review
                      end in
                    setBatches (fun prev => newBatch :: prev) ;;
                    setCurrentBatch (to (Some newBatch)) ;;
                    setCurrentDocument (to (hd_error processedFiles))
                | _, _ =>
                    throw (ErrorObject
                             (match Api.result_error result with
                              | Some (c :: r) => c :: r
                              | _ => lit "Failed to process documents"
                              end))
                end
            | dbError, _ =>
                throw (ErrorObject
                         (lit "Failed to create shipment request: "
                          ++ match dbError with
                             | Some (c :: r) => c :: r
                             | _ => lit "Unknown error"
                             end))
            end
        | _, _ => throw (ErrorObject (lit "Please sign in to upload documents"))
        end)
       (fun err =>
          let errorMessage := message_or err (lit "An unexpected error occurred") in
          setError (Some errorMessage) ;;
          (* log the failure against the most recent request of the user *)
          try_catch
            (auth <- getUser ;;
             match user auth with
             | Some user_id =>
                 recent <- select_recent_shipment_request user_id ;;
                 match resp_data recent with
                 | Some recentId =>
                     createLog recentId (lit "processing failed") (lit "AI") None
                 | None => ret tt
                 end
             | None => ret tt
             end)
            (fun logErr => ret tt)))
    (setIsProcessing false).

Definition merge_doc (id : jsstring) (data : PartialData)
    (doc : ProcessedDocument) : ProcessedDocument :=
  if str_eqb (doc_id doc) id then
    {| doc_id := doc_id doc; fileName := fileName doc; fileType := fileType doc;
       doc_uploadedAt := doc_uploadedAt doc;
       data := spread (Types.data doc) data; fileUrl := fileUrl doc |}
  else doc.

Definition merge_batch (id : jsstring) (data : PartialData)
    (batch : ProcessBatch) : ProcessBatch :=
  {| Types.id := Types.id batch; title := title batch;
     description := description batch; status := status batch;
     files := map (merge_doc id data) (files batch);
     uploadedAt := uploadedAt batch; fileCount := fileCount batch;
     shipmentRequestId := shipmentRequestId batch |}.

Definition updateDocumentData (id : jsstring) (data : PartialData) : M unit :=
  st <- state ;;
  setBatches (fun prev => map (merge_batch id data) prev) ;;
  match currentBatch st with
  | Some _ => setCurrentBatch (fun prev => option_map (merge_batch id data) prev)
  | None => ret tt
  end ;;
  match currentDocument st with
  | Some doc =>
      if str_eqb (doc_id doc) id then
        setCurrentDocument
          (fun prev =>
             option_map
               (fun p => {| doc_id := doc_id p; fileName := fileName p;
                            fileType := fileType p; doc_uploadedAt := doc_uploadedAt p;
                            data := spread (Types.data p) data; fileUrl := fileUrl p |})
               prev)
      else ret tt
  | None => ret tt
  end.

(** [a === b] where [a] may be [undefined]. *)
Definition opt_eqb (a : option jsstring) (b : jsstring) : bool :=
  match a with Some x => str_eqb x b | None => false end.

(** The current batch that is tested is the one of the render that made
    the callback, here the latest one; [updateBatchStatus_of] below takes
    it as an argument. *)
Definition updateBatchStatus (shipmentRequestId status : jsstring) : M unit :=
  st <- state ;;
  setBatches (fun prev =>
                map (fun batch =>
                       if opt_eqb (Types.shipmentRequestId batch) shipmentRequestId
                       then set_status batch status else batch) prev) ;;
  match currentBatch st with
  | Some cb =>
      if opt_eqb (Types.shipmentRequestId cb) shipmentRequestId then
        setCurrentBatch (fun prev => option_map (fun p => set_status p status) prev)
      else ret tt
  | None => ret tt
  end.

Definition defaultData : OceanShipmentData :=
  {| billOfLadingNumber := VString []; containerNumber := VString [];
     consigneeName := VString []; consigneeAddress := VString [];
     dateOfExport := VString []; lineItemsCount := VString [];
     averageGrossWeight := VString []; averagePrice := VString [] |}.

(** The batches that are searched are those of the render that made the
    callback, here the latest one, with no other handler at work during
    the read; [loadShipmentRequest_of] below takes them as an argument. *)
Definition loadShipmentRequest (shipmentRequestId : jsstring) : M unit :=
  st <- state ;;
  setIsProcessing true ;;
  setError None ;;
  try_finally
    (try_catch
       (fetched <- select_shipment_request shipmentRequestId ;;
        match resp_error fetched, resp_data fetched with
        | None, Some shipmentRequest =>
            let extractedData := sr_extracted_data shipmentRequest in
            docId <- crypto_randomUUID ;;
            let processedDoc :=
              {| doc_id := docId;
                 fileName := lit "Loaded from database";
                 fileType := pdf;
                 doc_uploadedAt := sr_created_at shipmentRequest;
                 data := match extractedData with
                         | Some d => d
                         | None => defaultData
                         end;
                 fileUrl := None |} in
            let loadedBatch :=
              {| id := shipmentRequestId;
                 title := sr_title shipmentRequest;
                 description := sr_description shipmentRequest;
                 status := Some (sr_status shipmentRequest);
                 files := [processedDoc];
                 uploadedAt := sr_created_at shipmentRequest;
                 fileCount := 1;
                 shipmentRequestId := Some shipmentRequestId |} in
            (* is the batch already in the state of this session? *)
            match find (fun b => opt_eqb (Types.shipmentRequestId b) shipmentRequestId)
                       (batches st) with
            | Some existing =>
                setCurrentBatch (to (Some existing)) ;;
                setCurrentDocument (to (hd_error (files existing)))
            | None =>
                setBatches (fun prev => loadedBatch :: prev) ;;
                setCurrentBatch (to (Some loadedBatch)) ;;
                setCurrentDocument (to (Some processedDoc))
            end
        | _, _ => throw (ErrorObject (lit "Failed to load shipment request"))
        end)
       (fun err =>
          let errorMessage := message_or err (lit "Failed to load shipment request") in
          setError (Some errorMessage)))
    (setIsProcessing false).

Definition clearError : M unit := setError None.

(** ** Callbacks and the render they belong to *)

(** A callback of the context reads the state through the variables of
    the render that made it ([useCallback] with its dependencies), while
    a setter called with an updater works on the state of the moment.
    The definitions above are the callbacks of the latest render, called
    while no other handler is under way.  Below, what the render of a
    callback saw is an argument of its own, so that a call can be placed
    among the steps of other handlers. *)

(** [updateBatchStatus] of a render whose current batch was [seen]. *)
Definition updateBatchStatus_of (seen : option ProcessBatch)
    (shipmentRequestId status : jsstring) : M unit :=
  setBatches (fun prev =>
                map (fun batch =>
                       if opt_eqb (Types.shipmentRequestId batch) shipmentRequestId
                       then set_status batch status else batch) prev) ;;
  match seen with
  | Some cb =>
      if opt_eqb (Types.shipmentRequestId cb) shipmentRequestId then
        setCurrentBatch (fun prev => option_map (fun p => set_status p status) prev)
      else ret tt
  | None => ret tt
  end.

(** [loadShipmentRequest] of a render whose batches were [seen], in its
    two parts: up to the [await] of the read, and from the answer on. *)
Definition load_request (shipmentRequestId : jsstring) : M (Response ShipmentRequest) :=
  setIsProcessing true ;;
  setError None ;;
  select_shipment_request shipmentRequestId.

Definition load_resume (seen : list ProcessBatch) (shipmentRequestId : jsstring)
    (fetched : Response ShipmentRequest) : M unit :=
  try_finally
    (try_catch
       (match resp_error fetched, resp_data fetched with
        | None, Some shipmentRequest =>
            let extractedData := sr_extracted_data shipmentRequest in
            docId <- crypto_randomUUID ;;
            let processedDoc :=
              {| doc_id := docId;
                 fileName := lit "Loaded from database";
                 fileType := pdf;
                 doc_uploadedAt := sr_created_at shipmentRequest;
                 data := match extractedData with
                         | Some d => d
                         | None => defaultData
                         end;
                 fileUrl := None |} in
            let loadedBatch :=
              {| id := shipmentRequestId;
                 title := sr_title shipmentRequest;
                 description := sr_description shipmentRequest;
                 status := Some (sr_status shipmentRequest);
                 files := [processedDoc];
                 uploadedAt := sr_created_at shipmentRequest;
                 fileCount := 1;
                 shipmentRequestId := Some shipmentRequestId |} in
            match find (fun b => opt_eqb (Types.shipmentRequestId b) shipmentRequestId)
                       seen with
            | Some existing =>
                setCurrentBatch (to (Some existing)) ;;
                setCurrentDocument (to (hd_error (files existing)))
            | None =>
                setBatches (fun prev => loadedBatch :: prev) ;;
                setCurrentBatch (to (Some loadedBatch)) ;;
                setCurrentDocument (to (Some processedDoc))
            end
        | _, _ => throw (ErrorObject (lit "Failed to load shipment request"))
        end)
       (fun err =>
          let errorMessage := message_or err (lit "Failed to load shipment request") in
          setError (Some errorMessage)))
    (setIsProcessing false).

Definition loadShipmentRequest_of (seen : list ProcessBatch)
    (shipmentRequestId : jsstring) : M unit :=
  fetched <- load_request shipmentRequestId ;;
  load_resume seen shipmentRequestId fetched.

End DocumentContext.

(* ===================================================================== *)
(** * components/data-table.tsx *)
(* ===================================================================== *)

Module DataTable.

Definition completed : jsstring := lit "completed".

Definition status_is (st : ContextState) (label : jsstring) : bool :=
  match currentBatch st with
  | Some b => DocumentContext.opt_eqb (status b) label
  | None => false
  end.

Definition isCompleted (st : ContextState) : bool := status_is st completed.
Definition needsReview (st : ContextState) : bool :=
  status_is st DocumentContext.needs_review.

(** [currentBatch?.files[0] || null] *)
Definition currentDocument (st : ContextState) : option ProcessedDocument :=
  match currentBatch st with
  | Some b => hd_error (files b)
  | None => None
  end.

(** Whether the "Submit for Completion" button is rendered, [hasErrors]
    being the state of the form's validation. *)
Definition submit_rendered (st : ContextState) (hasErrors : bool) : bool :=
  match currentDocument st with
  | None => false
  | Some _ => needsReview st && negb hasErrors && negb (isCompleted st)
  end.

(** [isSubmitting], which the handler sets and its [finally] block resets,
    is state of the component itself and is left out. *)
Definition handleSubmitCompletion (hasErrors : bool) : M unit :=
  st <- state ;;
  match currentBatch st with
  | Some {| shipmentRequestId := Some (c :: r) |} =>
      let shipmentRequestId := c :: r in
      if hasErrors then ret tt
      else
        try_catch
          (auth <- getUser ;;
           match user auth with
           | None => ret tt
           | Some user_id =>
               updateError <- update_shipment_request shipmentRequestId completed None ;;
               match updateError with
               | Some _ => ret tt
               | None =>
                   insert_log shipmentRequestId completed user_id None ;;
                   DocumentContext.updateBatchStatus shipmentRequestId completed
               end
           end)
          (fun error => ret tt)
  | _ => ret tt
  end.

(** [handleSubmitCompletion] of a render whose current batch was [seen].
    [meanwhile] is what other handlers do to the session while this one
    waits for its last request; it then goes on with the
    [updateBatchStatus] of its own render. *)
Definition handleSubmitCompletion_of (seen : option ProcessBatch)
    (meanwhile : M unit) (hasErrors : bool) : M unit :=
  match seen with
  | Some {| shipmentRequestId := Some (c :: r) |} =>
      let shipmentRequestId := c :: r in
      if hasErrors then ret tt
      else
        try_catch
          (auth <- getUser ;;
           match user auth with
           | None => ret tt
           | Some user_id =>
               updateError <- update_shipment_request shipmentRequestId completed None ;;
               match updateError with
               | Some _ => ret tt
               | None =>
                   insert_log shipmentRequestId completed user_id None ;;
                   meanwhile ;;
                   DocumentContext.updateBatchStatus_of seen shipmentRequestId completed
               end
           end)
          (fun error => ret tt)
  | _ => ret tt
  end.

(** ** The blur-commit path *)

(** [a === b] on the values a form field holds.  Two arrays or two
    objects are equal only as one and the same object, which the form's
    own copy of a value and the committed value never are. *)
Definition strict_equal (a b : value) : bool :=
  match a, b with
  | VUndefined, VUndefined => true
  | VNull, VNull => true
  | VBool x, VBool y => Bool.eqb x y
  | VNumber x, VNumber y => str_eqb x y && negb (str_eqb x (lit "NaN"))
  | VString x, VString y => str_eqb x y
  | _, _ => false
  end.

(** The payload of an "updated fields" log entry. *)
Record FieldEdit := {
  edit_field : FieldKey;
  old_value : value;
  new_value : value
}.

(** [handleFieldBlur(fieldKey)], with the form's validation state
    [hasErrors], the form's value of the field [currentValue] and the
    last committed one [oldValue] ([lastCommittedValues.current[fieldKey]]).
    The result is the edit that was logged, if one was: exactly then the
    handler stores [currentValue] as the last committed value.  The
    payload of the log row, [{ extracted_data: edit }], is no shipment
    data; it is kept as this result, and the row of the log table holds
    the status and the actor of the entry. *)
Definition handleFieldBlur (hasErrors : bool) (fieldKey : FieldKey)
    (currentValue oldValue : value) : M (option FieldEdit) :=
  st <- state ;;
  if hasErrors || isCompleted st then ret None
  else if strict_equal oldValue currentValue then ret None
  else
    match currentDocument st with
    | None => ret None
    | Some doc =>
        DocumentContext.updateDocumentData (doc_id doc) (one_key fieldKey currentValue) ;;
        match currentBatch st with
        | Some {| shipmentRequestId := Some (c :: r) |} =>
            let shipmentRequestId := c :: r in
            try_catch
              (fetched <- select_shipment_request shipmentRequestId ;;
               match resp_error fetched with
               | Some _ => ret None
               | None =>
                   let stored :=
                     match resp_data fetched with
                     | Some row =>
                         match sr_extracted_data row with
                         | Some d => d
                         | None => empty_object
                         end
                     | None => empty_object
                     end in
                   let updatedExtractedData :=
                     spread stored (one_key fieldKey currentValue) in
                   updateError <- update_extracted_data shipmentRequestId
                                    updatedExtractedData ;;
                   match updateError with
                   | Some _ => ret None
                   | None =>
                       auth <- getUser ;;
                       match user auth with
                       | Some user_id =>
                           insert_log shipmentRequestId (lit "updated fields")
                             user_id None ;;
                           ret (Some {| edit_field := fieldKey;
                                        old_value :=
                                          if truthy oldValue then oldValue
                                          else VString [];
                                        new_value := currentValue |})
                       | None => ret None
                       end
                   end
               end)
              (fun error => ret None)
        | _ => ret None
        end
    end.

End DataTable.

(** The system after a computation, and its result. *)
Definition after {A} (c : M A) (E : Env) (s : Sys) : Sys := fst (c E s).
Definition result {A} (c : M A) (E : Env) (s : Sys) : completion A := snd (c E s).

(* ===================================================================== *)
(** * components/history-list.tsx *)
(* ===================================================================== *)

Module HistoryList.

Inductive Source := database | session.

Record HistoryItem := {
  id : jsstring;
  title : jsstring;
  description : option jsstring;
  status : option jsstring;
  createdAt : option Z;
  fileCount : option nat;
  source : Source;
  shipmentRequestId : option jsstring
}.

(** The history item of a row of the store, as the fetch of the records
    builds it. *)
Definition record_item (record : ShipmentRequest) : HistoryItem :=
  {| id := sr_id record;
     title := sr_title record;
     description := DocumentContext.or_null (sr_description record);
     status := Some (sr_status record);
     createdAt := sr_created_at record;
     fileCount := None;
     source := database;
     shipmentRequestId := Some (sr_id record) |}.

(** The batches of the session as history items. *)
Definition sessionItems (batches : list ProcessBatch) : list HistoryItem :=
  map (fun batch =>
         {| id := Types.id batch;
            title := Types.title batch;
            description := Types.description batch;
            status := Types.status batch;
            createdAt := uploadedAt batch;
            fileCount := Some (Types.fileCount batch);
            source := session;
            shipmentRequestId := Types.shipmentRequestId batch |})
      batches.

(** [i.shipmentRequestId && i.shipmentRequestId === item.shipmentRequestId] *)
Definition same_request (i item : HistoryItem) : bool :=
  match shipmentRequestId i with
  | Some (c :: r) => DocumentContext.opt_eqb (shipmentRequestId item) (c :: r)
  | _ => false
  end.

Fixpoint findIndex {A} (f : A -> bool) (l : list A) : option nat :=
  match l with
  | [] => None
  | a :: l' =>
      if f a then Some 0
      else match findIndex f l' with
           | Some n => Some (S n)
           | None => None
           end
  end.

(** [acc[index] = item] for an index within the array. *)
Fixpoint assign {A} (index : nat) (item : A) (acc : list A) : list A :=
  match acc, index with
  | [], _ => []
  | _ :: acc', O => item :: acc'
  | a :: acc', S n => a :: assign n item acc'
  end.

(** The callback of the [reduce] that removes duplicates: a session item
    takes the place of the item of the same request, a database record
    gives way to it. *)
Definition keep_unique (acc : list HistoryItem) (item : HistoryItem)
  : list HistoryItem :=
  match findIndex (fun i => same_request i item) acc with
  | Some existingIndex =>
      match source item with
      | session => assign existingIndex item acc
      | database => acc
      end
  | None => acc ++ [item]
  end.

(** The list that is rendered.  [sort] is [Array.prototype.sort] with
    the comparator [(a, b) => b.createdAt.getTime() - a.createdAt.getTime()],
    the engine's own. *)
Definition uniqueItems (sort : list HistoryItem -> list HistoryItem)
    (dbRecords : list HistoryItem) (batches : list ProcessBatch)
  : list HistoryItem :=
  let allItems := sort (dbRecords ++ sessionItems batches) in
  fold_left keep_unique allItems [].

Definition handleItemClick (item : HistoryItem) : M unit :=
  st <- state ;;
  match source item with
  | session =>
      match find (fun b => str_eqb (Types.id b) (id item)) (batches st) with
      | Some batch => setCurrentBatch (to (Some batch))
      | None => ret tt
      end
  | database =>
      match shipmentRequestId item with
      | Some (c :: r) => DocumentContext.loadShipmentRequest (c :: r)
      | _ => ret tt
      end
  end.

End HistoryList.

(* ===================================================================== *)
(** * components/file-uploader.tsx *)
(* ===================================================================== *)

Module FileUploader.

(** The state of the component. *)
Record UploaderState := {
  isDragging : bool;
  selectedFiles : list File;
  title : jsstring;
  description : jsstring
}.

(** [!title.trim()] *)
Definition blank (title : jsstring) : bool :=
  match trim title with [] => true | _ :: _ => false end.

Definition handleStart (u : UploaderState) : M UploaderState :=
  if (length (selectedFiles u) =? 0)%nat || blank (title u) then ret u
  else
    DocumentContext.clearError ;;
    DocumentContext.uploadDocuments (selectedFiles u) (title u) (Some (description u)) ;;
    (* Reset form after successful upload *)
    ret {| isDragging := isDragging u; selectedFiles := [];
           title := []; description := [] |}.

Definition canStart (u : UploaderState) (st : ContextState) : bool :=
  (0 <? length (selectedFiles u))%nat
  && (0 <? length (trim (title u)))%nat
  && negb (isProcessing st).

(** [handleDrop] and [handleFileInput], once the files are read off the
    event: the new files go after the selected ones. *)
Definition add_files (files : list File) (u : UploaderState) : UploaderState :=
  {| isDragging := isDragging u;
     selectedFiles :=
       if (0 <? length files)%nat then selectedFiles u ++ files else selectedFiles u;
     title := title u; description := description u |}.

Definition handleDrop (files : list File) (u : UploaderState) : UploaderState :=
  add_files files
    {| isDragging := false; selectedFiles := selectedFiles u;
       title := title u; description := description u |}.

Definition handleFileInput (files : list File) (u : UploaderState) : UploaderState :=
  add_files files u.

(** [prev.filter((_, i) => i !== index)] *)
Fixpoint filter_index {A} (keep : nat -> bool) (i : nat) (l : list A) : list A :=
  match l with
  | [] => []
  | a :: l' => if keep i then a :: filter_index keep (S i) l' else filter_index keep (S i) l'
  end.

Definition removeFile (index : nat) (u : UploaderState) : UploaderState :=
  {| isDragging := isDragging u;
     selectedFiles := filter_index (fun i => negb (i =? index)%nat) 0 (selectedFiles u);
     title := title u; description := description u |}.

End FileUploader.

(* ===================================================================== *)
(** * middleware.ts *)
(* ===================================================================== *)

Module Middleware.

(** [s.startsWith(prefix)] *)
Definition startsWith (s prefix : jsstring) : bool :=
  str_eqb (firstn (length prefix) s) prefix.

(** What the middleware answers: a redirect to a path of the same
    origin, or the response of the session refresh. *)
Inductive NextResponse :=
| redirect (pathname : jsstring)
| supabaseResponse.

Definition isAuthPage (pathname : jsstring) : bool :=
  startsWith pathname (lit "/sign-in") || startsWith pathname (lit "/sign-up").

(** [middleware(request)], [user] being the user that the refresh of the
    session found. *)
Definition middleware (pathname : jsstring) (user : option jsstring) : NextResponse :=
  match user with
  | Some _ => if isAuthPage pathname then redirect (lit "/") else supabaseResponse
  | None => if negb (isAuthPage pathname) then redirect (lit "/sign-in")
            else supabaseResponse
  end.

End Middleware.

(* ===================================================================== *)
(** * The server-side helper [createShipmentRequest] *)
(* ===================================================================== *)

Module ShipmentRequests.

(** [{ success: true; id } | { success: false; error }] *)
Inductive CreateResult :=
| created (id : jsstring)
| not_created (error : jsstring).

(** [createClient], which may throw, is the argument [client]. *)
Definition createShipmentRequest (client : completion unit)
    (title : jsstring) (description : option jsstring) (userId : jsstring)
  : M CreateResult :=
  try_catch
    (lift client ;;
     ins <- insert_shipment_request title (DocumentContext.or_null description)
              (lit "pending") userId ;;
     match resp_error ins with
     | Some message =>
         ret (not_created
                (match message with
                 | c :: r => c :: r
                 | [] => lit "Failed to create shipment request"
                 end))
     | None =>
         match resp_data ins with
         | Some (c :: r) => ret (created (c :: r))
         | _ => ret (not_created (lit "No ID returned from database"))
         end
     end)
    (fun err => ret (not_created (message_or err (lit "Unknown error occurred")))).

End ShipmentRequests.

(* ===================================================================== *)
(** * app/(auth)/actions.ts *)
(* ===================================================================== *)

Module AuthActions.

(** What a server action ends in: it returns [{ error }], or it
    redirects. *)
Inductive ActionResult :=
| returned_error (error : jsstring)
| redirects (pathname : jsstring).

(** [signIn(formData)], [error] being the message of the error of
    [signInWithPassword], if it gave one. *)
Definition signIn (error : option jsstring) : ActionResult :=
  match error with
  | Some message => returned_error message
  | None => redirects (lit "/")
  end.

(** [signUp(formData)], with the error of [auth.signUp]. *)
Definition signUp (authError : option jsstring) : ActionResult :=
  match authError with
  | Some message => returned_error message
  | None => redirects (lit "/")
  end.

(** [signOut()], with the error of [auth.signOut]. *)
Definition signOut (error : option jsstring) : ActionResult :=
  match error with
  | Some message => returned_error message
  | None => redirects (lit "/sign-in")
  end.

End AuthActions.

(* ===================================================================== *)
(** * Fixtures and specification-side vocabulary *)
(* ===================================================================== *)

(** The property read off a JSON object, [undefined] when absent. *)
Definition field (props : list (jsstring * value)) (key : jsstring) : value :=
  match own_property props key with
  | Some v => v
  | None => VUndefined
  end.

(** The two variants of the extraction client's result. *)
Definition succeeded (d : OceanShipmentData) : Api.ProcessResult :=
  {| Api.success := true; Api.result_data := Some d; Api.result_error := None |}.

Definition failure (message : jsstring) : Api.ProcessResult :=
  {| Api.success := false; Api.result_data := None; Api.result_error := Some message |}.

Definition tagged (r : Api.ProcessResult) : Prop :=
  (exists d, r = succeeded d) \/ (exists message, r = failure message).

(** The one request [processDocument] sends, and the answer it gets. *)
Definition form_data (files : list File) : list (jsstring * File) :=
  map (fun file => (lit "files", file)) files.

Definition request_of (E : Env) (files : list File) : event :=
  Fetch (Api.API_BASE_URL E ++ lit "/process-documents") (form_data files).

Definition answer (E : Env) (s : Sys) (files : list File) : completion HttpResponse :=
  fetch E (length (trace s)) (form_data files).

Definition http_error_message (status : N) : jsstring :=
  lit "HTTP error! status: " ++ dec status.

(** The fields of a response object as [processDocument] maps them, the
    gross weight being given. *)
Definition mapped (props : list (jsstring * value)) (weight : jsstring)
  : OceanShipmentData :=
  {| billOfLadingNumber := field props (lit "bill_of_lading_number");
     containerNumber := field props (lit "container_number");
     consigneeName := field props (lit "consignee_name");
     consigneeAddress := field props (lit "consignee_address");
     dateOfExport := field props (lit "date_of_export");
     lineItemsCount := field props (lit "line_items_count");
     averageGrossWeight := VString weight;
     averagePrice := field props (lit "average_price") |}.

(** A failure message "drawn from the response body or the HTTP status":
    it is the [message] of the response body, or the line built from the
    status of the response. *)
Definition drawn_from_response (out : completion HttpResponse) (m : jsstring) : Prop :=
  exists response,
    out = Normal response
    /\ (m = http_error_message (http_status response)
        \/ exists props, http_json response = Normal (VObject props)
                         /\ field props (lit "message") = VString m).

Module Fixture.

Definition inv_pdf : File :=
  {| name := lit "inv.pdf"; type := lit "application/pdf" |}.
Definition notes_docx : File :=
  {| name := lit "notes.docx";
     type := lit "application/vnd.openxmlformats-officedocument.wordprocessingml.document" |}.
Definition sheet_xlsx : File :=
  {| name := lit "rates.xlsx";
     type := lit "application/vnd.openxmlformats-officedocument.spreadsheetml.sheet" |}.

Definition extraction_body : value :=
  VObject [ (lit "bill_of_lading_number", VString (lit "ZMLU34110002"));
            (lit "container_number", VString (lit "MSCU1234567"));
            (lit "consignee_name", VString (lit "KABOFER TRADING INC"));
            (lit "consignee_address", VString (lit "66 Wall Street, New York"));
            (lit "date_of_export", VString (lit "2019-08-22"));
            (lit "line_items_count", VNumber (lit "18"));
            (lit "average_gross_weight", VString (lit "162.37 KG"));
            (lit "average_price", VString (lit "1250.50")) ].

(** A world in which everything works: user [u1] is signed in, the store
    accepts the insert as record [r1], the endpoint answers 200 with
    [extraction_body]. *)
Definition E_ok : Env :=
  {| NEXT_PUBLIC_API_URL := None;
     auth_getUser := fun _ => {| user := Some (lit "u1"); authError := None |};
     insert_outcome := fun _ => Inserted (lit "r1") (Some 1000%Z);
     select_error := fun _ => None;
     update_error := fun _ => None;
     log_error := fun _ => false;
     fetch := fun _ _ => Normal {| http_status := 200; http_json := Normal extraction_body |};
     now := fun t => (2000 + Z.of_nat t)%Z;
     randomUUID := fun n => lit "uuid-" ++ dec (N.of_nat n);
     createObjectURL := fun n => lit "blob:" ++ dec (N.of_nat n) |}.

(** The same world with another answer of the extraction endpoint. *)
Definition with_fetch (out : completion HttpResponse) : Env :=
  {| NEXT_PUBLIC_API_URL := None;
     auth_getUser := auth_getUser E_ok;
     insert_outcome := insert_outcome E_ok;
     select_error := select_error E_ok;
     update_error := update_error E_ok;
     log_error := log_error E_ok;
     fetch := fun _ _ => out;
     now := now E_ok;
     randomUUID := randomUUID E_ok;
     createObjectURL := createObjectURL E_ok |}.

(** The same world with a record store whose reads fail. *)
Definition E_offline : Env :=
  {| NEXT_PUBLIC_API_URL := None;
     auth_getUser := auth_getUser E_ok;
     insert_outcome := insert_outcome E_ok;
     select_error := fun _ => Some (lit "TypeError: Failed to fetch");
     update_error := update_error E_ok;
     log_error := log_error E_ok;
     fetch := fetch E_ok;
     now := now E_ok;
     randomUUID := randomUUID E_ok;
     createObjectURL := createObjectURL E_ok |}.

(** Nobody is signed in. *)
Definition E_anonymous : Env :=
  {| NEXT_PUBLIC_API_URL := None;
     auth_getUser := fun _ => {| user := None; authError := None |};
     insert_outcome := insert_outcome E_ok;
     select_error := select_error E_ok;
     update_error := update_error E_ok;
     log_error := log_error E_ok;
     fetch := fetch E_ok;
     now := now E_ok;
     randomUUID := randomUUID E_ok;
     createObjectURL := createObjectURL E_ok |}.

Definition blank : ContextState :=
  {| batches := []; currentBatch := None; currentDocument := None;
     isProcessing := false; error := None |}.

Definition start : Sys :=
  {| db := {| shipment_requests := []; shipment_request_logs := [] |};
     trace := []; fresh := 0; ui := blank |}.

Definition doc1 : ProcessedDocument :=
  {| doc_id := lit "d1"; fileName := lit "inv.pdf"; fileType := pdf;
     doc_uploadedAt := Some 1000%Z; data := DocumentContext.defaultData;
     fileUrl := None |}.

(** A batch of record [r1] that the session already holds as completed. *)
Definition done_batch : ProcessBatch :=
  {| id := lit "b1"; title := lit "Batch A"; description := None;
     status := Some DataTable.completed; files := [doc1];
     uploadedAt := Some 1000%Z; fileCount := 1;
     shipmentRequestId := Some (lit "r1") |}.

Definition holding (b : ProcessBatch) : Sys :=
  {| db := {| shipment_requests := []; shipment_request_logs := [] |};
     trace := []; fresh := 0;
     ui := {| batches := [b]; currentBatch := None; currentDocument := None;
              isProcessing := false; error := None |} |}.

End Fixture.

Module ApiFixture.

Definition offline : completion HttpResponse :=
  Throw (ErrorObject (lit "Failed to fetch")).

Definition html_200 : completion HttpResponse :=
  Normal {| http_status := 200;
            http_json := Throw (ErrorObject (lit "Unexpected token < in JSON at position 0")) |}.

Definition null_200 : completion HttpResponse :=
  Normal {| http_status := 200; http_json := Normal VNull |}.

Definition odd_weight_200 : completion HttpResponse :=
  Normal {| http_status := 200;
            http_json :=
              Normal (VObject [ (lit "average_gross_weight",
                                 VObject [ (lit "toString", VNumber (lit "1")) ]) ]) |}.

Definition null_weight_200 : HttpResponse :=
  {| http_status := 200;
     http_json :=
       Normal (VObject [ (lit "container_number", VString (lit "MSCU1234567"));
                         (lit "average_gross_weight", VNull);
                         (lit "average_price", VNumber (lit "1250.5")) ]) |}.

End ApiFixture.

(** An ASCII letter of either case. *)
Definition is_letter (c : N) : bool := in_range 65 90 c || in_range 97 122 c.

(** The last millisecond of the local day of the evaluation. *)
Definition end_of_today (E : DateEnv) : Z :=
  let local := (Date_now E + LocalTZA E (Date_now E) true)%Z in
  let date := ((local / msPerDay) * msPerDay + MakeTime 23 59 59 999)%Z in
  (date - LocalTZA E date false)%Z.

Module DateFixture.

Definition noon : jsstring := lit "1970-01-01T12:00:00.000Z".

(** 01:00 UTC on 1 January 1970, in a browser whose zone is UTC. *)
Definition one_am : DateEnv :=
  {| Date_parse := fun s => if str_eqb s noon then Some 43200000%Z else None;
     Date_now := 3600000;
     LocalTZA := fun _ _ => 0%Z |}.

End DateFixture.

(** ** Outcomes of [uploadDocuments] *)

(** The React state after a failed call and after a successful one. *)
Definition failed_ui (u : ContextState) (message : jsstring) : ContextState :=
  {| batches := batches u; currentBatch := currentBatch u;
     currentDocument := currentDocument u;
     isProcessing := false; error := Some message |}.

Definition published_ui (u : ContextState) (newBatch : ProcessBatch) : ContextState :=
  {| batches := newBatch :: batches u; currentBatch := Some newBatch;
     currentDocument := hd_error (files newBatch);
     isProcessing := false; error := None |}.

(** The row that step 2 of [uploadDocuments] inserts. *)
Definition pending_row (id title : jsstring) (description : option jsstring)
    (user_id : jsstring) (created : option Z) : ShipmentRequest :=
  {| sr_id := id; sr_title := title;
     sr_description := DocumentContext.or_null description;
     sr_status := lit "pending"; sr_extracted_data := None;
     sr_user_id := user_id; sr_created_at := created |}.

(** The principal of an answer of the identity provider, if it has one. *)
Definition principal (a : AuthResponse) : option jsstring :=
  match authError a, user a with
  | None, Some user_id => Some user_id
  | _, _ => None
  end.

(** The first file, in upload order, with an unsupported MIME type. *)
Definition first_invalid (files : list File) : option File :=
  find (fun f => negb (DocumentContext.isValidType (type f))) files.

Definition or_default (m fallback : jsstring) : jsstring :=
  match m with [] => fallback | _ :: _ => m end.

(** The same system with [n] more draws of the random source. *)
Definition bump (n : nat) (s : Sys) : Sys :=
  {| db := db s; trace := trace s; fresh := n + fresh s; ui := ui s |}.

(** The extraction call issued as request number [t] resolves to [r]. *)
Definition extraction (E : Env) (t : nat) (files : list File)
    (r : Api.ProcessResult) : Prop :=
  forall s1, length (trace s1) = t ->
             result (Api.processDocument files) E s1 = Normal r.

(** How a call of [uploadDocuments] from [s] can end in [s']: the four
    failures and the publication of a batch, each with the answers of the
    outside that lead to it. *)
Inductive upload_outcome (E : Env) (s : Sys) (files : list File)
    (title : jsstring) (description : option jsstring) (s' : Sys) : Prop :=
| upload_unauthenticated :
    principal (auth_getUser E (length (trace s))) = None ->
    ui s' = failed_ui (ui s) (lit "Please sign in to upload documents") ->
    shipment_requests (db s') = shipment_requests (db s) ->
    upload_outcome E s files title description s'
| upload_not_created user_id message :
    principal (auth_getUser E (length (trace s))) = Some user_id ->
    insert_outcome E (S (length (trace s))) = InsertFailed message ->
    ui s' = failed_ui (ui s)
              (lit "Failed to create shipment request: "
               ++ or_default message (lit "Unknown error")) ->
    shipment_requests (db s') = shipment_requests (db s) ->
    upload_outcome E s files title description s'
| upload_invalid_file user_id id created file :
    principal (auth_getUser E (length (trace s))) = Some user_id ->
    insert_outcome E (S (length (trace s))) = Inserted id created ->
    first_invalid files = Some file ->
    ui s' = failed_ui (ui s) (DocumentContext.invalid_type_message file) ->
    shipment_requests (db s')
    = pending_row id title description user_id created :: shipment_requests (db s) ->
    upload_outcome E s files title description s'
| upload_extraction_failed user_id id created message :
    principal (auth_getUser E (length (trace s))) = Some user_id ->
    insert_outcome E (S (length (trace s))) = Inserted id created ->
    first_invalid files = None ->
    extraction E (4 + length (trace s)) files (failure message) ->
    ui s' = failed_ui (ui s)
              (or_default message (lit "Failed to process documents")) ->
    shipment_requests (db s')
    = pending_row id title description user_id created :: shipment_requests (db s) ->
    upload_outcome E s files title description s'
| upload_published user_id id created newBatch extracted :
    principal (auth_getUser E (length (trace s))) = Some user_id ->
    insert_outcome E (S (length (trace s))) = Inserted id created ->
    first_invalid files = None ->
    extraction E (4 + length (trace s)) files (succeeded extracted) ->
    ui s' = published_ui (ui s) newBatch ->
    status newBatch = Some DocumentContext.needs_review ->
    shipmentRequestId newBatch = Some id ->
    Types.title newBatch = title ->
    fileCount newBatch = length files ->
    Forall2 (fun file doc => fileName doc = name file /\ data doc = extracted)
            files (Types.files newBatch) ->
    upload_outcome E s files title description s'.

Module StoreFixture.

(** Record [r1] as the store holds it after a completed review. *)
Definition row1 : ShipmentRequest :=
  {| sr_id := lit "r1"; sr_title := lit "Batch A"; sr_description := None;
     sr_status := lit "completed"; sr_extracted_data := None;
     sr_user_id := lit "u1"; sr_created_at := Some 1000%Z |}.

(** A session that holds the batch of [r1] in memory, nothing current. *)
Definition session : Sys :=
  {| db := {| shipment_requests := [row1]; shipment_request_logs := [] |};
     trace := []; fresh := 0;
     ui := {| batches := [Fixture.done_batch]; currentBatch := None;
              currentDocument := None; isProcessing := false; error := None |} |}.

(** The same session with that batch current. *)
Definition reviewing : Sys :=
  {| db := {| shipment_requests := [row1]; shipment_request_logs := [] |};
     trace := []; fresh := 0;
     ui := {| batches := [Fixture.done_batch];
              currentBatch := Some Fixture.done_batch;
              currentDocument := Some Fixture.doc1;
              isProcessing := false; error := None |} |}.

End StoreFixture.

(** The batch of a record id in the session's memory, as
    [loadShipmentRequest] looks it up. *)
Definition in_memory (id : jsstring) (u : ContextState) : option ProcessBatch :=
  find (fun b => DocumentContext.opt_eqb (shipmentRequestId b) id) (batches u).

(** The row of a record id in the store. *)
Definition stored (id : jsstring) (d : Db) : option ShipmentRequest :=
  find (fun r => str_eqb (sr_id r) id) (shipment_requests d).

(** The status mirror that [updateBatchStatus] applies to each batch. *)
Definition mirror (shipmentRequestId status : jsstring) (b : ProcessBatch)
  : ProcessBatch :=
  if DocumentContext.opt_eqb (Types.shipmentRequestId b) shipmentRequestId
  then DocumentContext.set_status b status else b.

(** ** Gross weight, as the specification words it *)

(** [s] ends with the unit [u], letter case apart. *)
Definition ends_with_i (s u : jsstring) : bool :=
  endsWith (map canonicalize s) (map canonicalize u).

Definition without_last (n : nat) (s : jsstring) : jsstring :=
  firstn (length s - n) s.

(** Drop one trailing unit suffix. *)
Definition strip_unit (s : jsstring) : jsstring :=
  if ends_with_i s (lit "kg") then without_last 2 s
  else if ends_with_i s (lit "lbs") then without_last 3 s
  else if ends_with_i s (lit "g") then without_last 1 s
  else s.

(** Trailing whitespace off, the unit off, surrounding whitespace off. *)
Definition normalized_weight (s : jsstring) : jsstring :=
  trim (strip_unit (trimEnd s)).

(** ** The unit pattern, read off the string and off its reverse *)

Definition is_ci (u c : N) : bool := N.eqb (canonicalize c) u.

(** A unit and then only whitespace: what must follow the leading
    whitespace of a match of [unit_suffix]. *)
Definition unit_ws (r : jsstring) : bool :=
  match r with
  | c1 :: r1 =>
      (is_ci 75 c1
       && match r1 with
          | c2 :: r2 => is_ci 71 c2 && forallb is_space r2
          | [] => false
          end)
      || (is_ci 76 c1
          && match r1 with
             | c2 :: c3 :: r3 => is_ci 66 c2 && is_ci 83 c3 && forallb is_space r3
             | _ => false
             end)
      || (is_ci 71 c1 && forallb is_space r1)
  | [] => false
  end.

(** The suffix [s] is a match of [unit_suffix]. *)
Definition umatch (s : jsstring) : bool := unit_ws (trimStart s).

(** What [replace] leaves: the input up to the first suffix that matches. *)
Fixpoint cut (s : jsstring) : jsstring :=
  if umatch s then []
  else match s with
       | [] => []
       | c :: s' => c :: cut s'
       end.

Fixpoint has_match (s : jsstring) : bool :=
  umatch s || match s with
              | [] => false
              | _ :: s' => has_match s'
              end.

(** The same on the reversed, right-trimmed string [a]. *)
Definition ends_kg (a : jsstring) : bool :=
  match a with g :: k :: _ => is_ci 71 g && is_ci 75 k | _ => false end.
Definition ends_lbs (a : jsstring) : bool :=
  match a with s :: b :: l :: _ => is_ci 83 s && is_ci 66 b && is_ci 76 l | _ => false end.
Definition ends_g (a : jsstring) : bool :=
  match a with g :: _ => is_ci 71 g | _ => false end.

Definition unit_off (a : jsstring) : option jsstring :=
  if ends_kg a then Some (skipn 2 a)
  else if ends_lbs a then Some (skipn 3 a)
  else if ends_g a then Some (skipn 1 a)
  else None.

Definition unit_wsr (a : jsstring) : bool :=
  match a with
  | g :: a1 =>
      (is_ci 71 g
       && match a1 with
          | k :: a2 => is_ci 75 k && forallb is_space a2
          | [] => false
          end)
      || (is_ci 83 g
          && match a1 with
             | b :: l :: a3 => is_ci 66 b && is_ci 76 l && forallb is_space a3
             | _ => false
             end)
      || (is_ci 71 g && forallb is_space a1)
  | [] => false
  end.

(** The continuation that ends a match. *)
Definition k0 : cont := fun e _ => Some e.

(** A unit, reversed: ["gk"], ["sbl"] or ["g"], in any letter case. *)
Inductive unitr : jsstring -> Prop :=
| unitr_kg g k : is_ci 71 g = true -> is_ci 75 k = true -> unitr [g; k]
| unitr_lbs s b l :
    is_ci 83 s = true -> is_ci 66 b = true -> is_ci 76 l = true -> unitr [s; b; l]
| unitr_g g : is_ci 71 g = true -> unitr [g].

(** ** The field rules, in words *)

(** A letter or a digit. *)
Definition is_alnum (c : N) : bool := is_letter c || is_digit c.

(** What a consignee name may hold: a letter, a digit, whitespace, a
    hyphen or a period. *)
Definition is_name_char (c : N) : bool :=
  is_letter c || is_digit c || is_space c || N.eqb c 45 || N.eqb c 46.

Definition nonempty (s : jsstring) : bool :=
  match s with [] => false | _ :: _ => true end.

(** The number a string of decimal digits denotes. *)
Definition numeral (s : jsstring) : N :=
  fold_left (fun acc c => 10 * acc + (c - 48))%N s 0%N.

(** [n] zeros. *)
Definition zeros (n : nat) : jsstring := repeat 48%N n.

(** A decimal numeral: digits, and maybe a period and digits. *)
Definition decimal_form (s : jsstring) : Prop :=
  exists a b,
    nonempty a = true /\ forallb is_digit a = true /\ forallb is_digit b = true
    /\ (s = a \/ (nonempty b = true /\ s = a ++ 46%N :: b)).

(** The same, read from the left: what may follow the first digit. *)
Definition fraction (t : jsstring) : bool :=
  match t with
  | [] => true
  | c :: t' => N.eqb c 46 && nonempty t' && forallb is_digit t'
  end.

Fixpoint after_digits (s : jsstring) : bool :=
  match s with
  | c :: s' => if is_digit c then after_digits s' else fraction s
  | [] => true
  end.

(** The rest of [decimal_pattern] after the digits of the integer part. *)
Definition fraction_k : cont :=
  m (Seq (opt (seqs [Chr (N.eqb 46); plusC is_digit])) Eol) (fun e _ => Some e).

Definition is_some {A} (o : option A) : bool :=
  match o with Some _ => true | None => false end.

(** A unit of weight as [cleanNumericValue] knows it: kg, lbs or g in any
    letter case. *)
Definition is_unit (u : jsstring) : Prop := unitr (rev u).

(** ** The history list, in words *)

(** The record id of an item, when it has one: a non-empty string. *)
Definition request_key (i : HistoryList.HistoryItem) : option jsstring :=
  match HistoryList.shipmentRequestId i with
  | Some (c :: r) => Some (c :: r)
  | _ => None
  end.

Definition request_keys (l : list HistoryList.HistoryItem) : list jsstring :=
  flat_map (fun i => match request_key i with Some k => [k] | None => [] end) l.

(** What the reduction of the history list keeps true of the items kept
    so far, [acc], with respect to the items seen so far, [seen]. *)
Definition merged (acc seen : list HistoryList.HistoryItem) : Prop :=
  NoDup (request_keys acc)
  /\ (forall i, In i acc -> In i seen)
  /\ (forall j, In j seen -> request_key j = None -> In j acc)
  /\ (forall j k, In j seen -> request_key j = Some k -> In k (request_keys acc))
  /\ (forall i k, In i acc -> request_key i = Some k ->
                  (exists j, In j seen /\ HistoryList.source j = HistoryList.session
                             /\ request_key j = Some k) ->
                  HistoryList.source i = HistoryList.session).

(** ** The session, in words *)

(** The current batch is one of the batches of the session. *)
Definition current_known (u : ContextState) : Prop :=
  match currentBatch u with
  | Some b => In b (batches u)
  | None => True
  end.

(** [{ ...p1, ...p2 }] on patches: the later value of a key wins. *)
Definition patch_then (p1 p2 : PartialData) : PartialData :=
  let later (a b : option value) := match b with Some v => Some v | None => a end in
  {| p_billOfLadingNumber := later (p_billOfLadingNumber p1) (p_billOfLadingNumber p2);
     p_containerNumber := later (p_containerNumber p1) (p_containerNumber p2);
     p_consigneeName := later (p_consigneeName p1) (p_consigneeName p2);
     p_consigneeAddress := later (p_consigneeAddress p1) (p_consigneeAddress p2);
     p_dateOfExport := later (p_dateOfExport p1) (p_dateOfExport p2);
     p_lineItemsCount := later (p_lineItemsCount p1) (p_lineItemsCount p2);
     p_averageGrossWeight := later (p_averageGrossWeight p1) (p_averageGrossWeight p2);
     p_averagePrice := later (p_averagePrice p1) (p_averagePrice p2) |}.

(** What the user of a session can do. *)
Inductive action :=
| Start (form : FileUploader.UploaderState)
| Upload (files : list File) (title : jsstring) (description : option jsstring)
| Load (shipmentRequestId : jsstring)
| Click (item : HistoryList.HistoryItem)
| Blur (hasErrors : bool) (fieldKey : FieldKey) (currentValue oldValue : value)
| Submit (hasErrors : bool)
| Edit (id : jsstring) (data : PartialData)
| SetStatus (shipmentRequestId status : jsstring)
| ClearError.

Definition perform (a : action) : M unit :=
  match a with
  | Start form => FileUploader.handleStart form ;; ret tt
  | Upload files title description =>
      DocumentContext.uploadDocuments files title description
  | Load shipmentRequestId => DocumentContext.loadShipmentRequest shipmentRequestId
  | Click item => HistoryList.handleItemClick item
  | Blur hasErrors fieldKey currentValue oldValue =>
      DataTable.handleFieldBlur hasErrors fieldKey currentValue oldValue ;; ret tt
  | Submit hasErrors => DataTable.handleSubmitCompletion hasErrors
  | Edit id data => DocumentContext.updateDocumentData id data
  | SetStatus shipmentRequestId status =>
      DocumentContext.updateBatchStatus shipmentRequestId status
  | ClearError => DocumentContext.clearError
  end.

(** Actions taken in turn: each handler has returned, and the page has
    rendered again, before the next action is taken.  No action lands at
    an [await] of another one; for that see [overlapping_loads] and
    [DataTable.handleSubmitCompletion_of]. *)
Fixpoint perform_in_turn (l : list action) : M unit :=
  match l with
  | [] => ret tt
  | a :: l' => perform a ;; perform_in_turn l'
  end.

(** ** Requests, in words *)

(** The requests to the extraction endpoint among those sent so far,
    newest first. *)
Definition is_fetch (e : event) : bool :=
  match e with Fetch _ _ => true | _ => false end.

Definition extraction_requests (s : Sys) : list event := filter is_fetch (trace s).

(** The row of a record once step 7 of [uploadDocuments] has stored the
    extracted data. *)
Definition reviewed_row (id title : jsstring) (description : option jsstring)
    (user_id : jsstring) (created : option Z) (extracted : OceanShipmentData)
  : ShipmentRequest :=
  {| sr_id := id; sr_title := title;
     sr_description := DocumentContext.or_null description;
     sr_status := DocumentContext.needs_review;
     sr_extracted_data := Some extracted;
     sr_user_id := user_id; sr_created_at := created |}.

(** The log entry of a failed upload. *)
Definition failure_entry (id : jsstring) : LogEntry :=
  {| log_shipment_request_id := id; log_status := lit "processing failed";
     log_actor := lit "AI"; log_payload := None |}.

Module UploadFixture.

(** User [u1] holds the older record [r0]; the store refuses inserts. *)
Definition row0 : ShipmentRequest :=
  {| sr_id := lit "r0"; sr_title := lit "Earlier batch"; sr_description := None;
     sr_status := lit "completed"; sr_extracted_data := None;
     sr_user_id := lit "u1"; sr_created_at := Some 500%Z |}.

Definition with_row0 : Sys :=
  {| db := {| shipment_requests := [row0]; shipment_request_logs := [] |};
     trace := []; fresh := 0; ui := Fixture.blank |}.

Definition E_store_refuses : Env :=
  {| NEXT_PUBLIC_API_URL := None;
     auth_getUser := auth_getUser Fixture.E_ok;
     insert_outcome := fun _ => InsertFailed (lit "permission denied");
     select_error := select_error Fixture.E_ok;
     update_error := update_error Fixture.E_ok;
     log_error := log_error Fixture.E_ok;
     fetch := fetch Fixture.E_ok;
     now := now Fixture.E_ok;
     randomUUID := randomUUID Fixture.E_ok;
     createObjectURL := createObjectURL Fixture.E_ok |}.

(** The store refuses the final update of the record. *)
Definition E_update_fails : Env :=
  {| NEXT_PUBLIC_API_URL := None;
     auth_getUser := auth_getUser Fixture.E_ok;
     insert_outcome := insert_outcome Fixture.E_ok;
     select_error := select_error Fixture.E_ok;
     update_error := fun _ => Some (lit "permission denied");
     log_error := log_error Fixture.E_ok;
     fetch := fetch Fixture.E_ok;
     now := now Fixture.E_ok;
     randomUUID := randomUUID Fixture.E_ok;
     createObjectURL := createObjectURL Fixture.E_ok |}.

(** What [processDocument] makes of [Fixture.extraction_body]. *)
Definition extracted : OceanShipmentData :=
  {| billOfLadingNumber := VString (lit "ZMLU34110002");
     containerNumber := VString (lit "MSCU1234567");
     consigneeName := VString (lit "KABOFER TRADING INC");
     consigneeAddress := VString (lit "66 Wall Street, New York");
     dateOfExport := VString (lit "2019-08-22");
     lineItemsCount := VNumber (lit "18");
     averageGrossWeight := VString (lit "162.37");
     averagePrice := VString (lit "1250.50") |}.

End UploadFixture.

(** The number of batches of a record in the session's memory. *)
Definition batches_of (id : jsstring) (u : ContextState) : nat :=
  length (filter (fun b => DocumentContext.opt_eqb (shipmentRequestId b) id) (batches u)).

(** The session of a reopened page: the store and the past as they are,
    the React state as [DocumentProvider] creates it. *)
Definition reopened (s : Sys) : Sys := with_ui Fixture.blank s.

Module ReviewFixture.

(** Record [r1] in review, as the store and the session hold it. *)
Definition row_in_review : ShipmentRequest :=
  {| sr_id := lit "r1"; sr_title := lit "Batch A"; sr_description := None;
     sr_status := lit "needs review";
     sr_extracted_data := Some UploadFixture.extracted;
     sr_user_id := lit "u1"; sr_created_at := Some 1000%Z |}.

Definition doc_in_review : ProcessedDocument :=
  {| doc_id := lit "d1"; fileName := lit "inv.pdf"; fileType := pdf;
     doc_uploadedAt := Some 1000%Z; data := UploadFixture.extracted;
     fileUrl := None |}.

Definition open_batch : ProcessBatch :=
  {| id := lit "b1"; title := lit "Batch A"; description := None;
     status := Some DocumentContext.needs_review; files := [doc_in_review];
     uploadedAt := Some 1000%Z; fileCount := 1;
     shipmentRequestId := Some (lit "r1") |}.

Definition in_review : Sys :=
  {| db := {| shipment_requests := [row_in_review]; shipment_request_logs := [] |};
     trace := []; fresh := 0;
     ui := {| batches := [open_batch]; currentBatch := Some open_batch;
              currentDocument := Some doc_in_review;
              isProcessing := false; error := None |} |}.

(** The history item of the completed batch of [Fixture.done_batch]. *)
Definition done_item : HistoryList.HistoryItem :=
  {| HistoryList.id := lit "b1"; HistoryList.title := lit "Batch A";
     HistoryList.description := None;
     HistoryList.status := Some DataTable.completed;
     HistoryList.createdAt := Some 1000%Z;
     HistoryList.fileCount := Some 1%nat;
     HistoryList.source := HistoryList.session;
     HistoryList.shipmentRequestId := Some (lit "r1") |}.

End ReviewFixture.

(** ** Handlers that overlap *)

(** Two calls of [loadShipmentRequest] for one record from one render,
    the second made before the first has its answer. *)
Definition overlapping_loads (seen : list ProcessBatch) (id : jsstring) : M unit :=
  first <- DocumentContext.load_request id ;;
  second <- DocumentContext.load_request id ;;
  DocumentContext.load_resume seen id first ;;
  DocumentContext.load_resume seen id second.

Module OverlapFixture.

(** A second batch of the session, of record [r2], in review. *)
Definition other_batch : ProcessBatch :=
  {| id := lit "b2"; title := lit "Batch B"; description := None;
     status := Some DocumentContext.needs_review;
     files := [ReviewFixture.doc_in_review];
     uploadedAt := Some 2000%Z; fileCount := 1;
     shipmentRequestId := Some (lit "r2") |}.

Definition other_item : HistoryList.HistoryItem :=
  {| HistoryList.id := lit "b2"; HistoryList.title := lit "Batch B";
     HistoryList.description := None;
     HistoryList.status := Some DocumentContext.needs_review;
     HistoryList.createdAt := Some 2000%Z;
     HistoryList.fileCount := Some 1%nat;
     HistoryList.source := HistoryList.session;
     HistoryList.shipmentRequestId := Some (lit "r2") |}.

(** The session holds both batches; the one of [r1] is current. *)
Definition two_batches : Sys :=
  {| db := {| shipment_requests := [ReviewFixture.row_in_review];
              shipment_request_logs := [] |};
     trace := []; fresh := 0;
     ui := {| batches := [other_batch; ReviewFixture.open_batch];
              currentBatch := Some ReviewFixture.open_batch;
              currentDocument := Some ReviewFixture.doc_in_review;
              isProcessing := false; error := None |} |}.

End OverlapFixture.

Unset Implicit Arguments.
Arguments lit : simpl never.
Arguments dec : simpl never.

(* ===================================================================== *)
(** * Basic facts *)
(* ===================================================================== *)

Lemma str_eqb_refl (a : jsstring) : str_eqb a a = true.
Proof.
  induction a as [|x a IH]; simpl; [reflexivity|].
  now rewrite N.eqb_refl, IH.
Qed.

Lemma str_eqb_eq (a b : jsstring) : str_eqb a b = true <-> a = b.
Proof.
  split.
  - revert b; induction a as [|x a IH]; intros [|y b]; simpl; try discriminate; auto.
    intros H. apply andb_true_iff in H as [Hx Hr].
    apply N.eqb_eq in Hx. f_equal; auto.
  - intros ->. apply str_eqb_refl.
Qed.

Lemma get_object props key : get (VObject props) key = Normal (field props key).
Proof.
  unfold get, field. now destruct (own_property props key).
Qed.

(* ===================================================================== *)
(** * The extraction client *)
(* ===================================================================== *)

Ltac run_processDocument :=
  unfold Api.processDocument, try_catch, bind, lift, http_post, ret, throw,
    request_of, answer, form_data in *.

(** [processDocument] sends one request, changes nothing else, never
    throws, and resolves to one of the two variants. *)
Lemma processDocument_total files E s :
  exists r, Api.processDocument files E s = (emit (request_of E files) s, Normal r)
            /\ tagged r.
Proof.
  run_processDocument.
  destruct (fetch E (length (trace s)) _) as [resp|e].
  2:{ eexists; split; [reflexivity|]. right; eexists; reflexivity. }
  destruct (negb (ok resp)).
  - destruct (match http_json resp with Normal v => Normal v | Throw _ => _ end) as [ed|e].
    2:{ eexists; split; [reflexivity|]. right; eexists; reflexivity. }
    destruct (get ed _) as [msg|e].
    2:{ eexists; split; [reflexivity|]. right; eexists; reflexivity. }
    destruct (if truthy msg then _ else _) as [x|e];
      eexists; (split; [reflexivity|]); right; eexists; reflexivity.
  - destruct (http_json resp) as [j|e].
    2:{ eexists; split; [reflexivity|]. right; eexists; reflexivity. }
    repeat match goal with
    | |- context [get j ?k] => destruct (get j k) as [?|?]
    | |- context [Api.cleanNumericValue ?k] => destruct (Api.cleanNumericValue k) as [?|?]
    end;
    eexists; (split; [reflexivity|]);
      solve [ right; eexists; reflexivity | left; eexists; reflexivity ].
Qed.

Lemma processDocument_network_error files E s e :
  answer E s files = Throw e ->
  Api.processDocument files E s
  = (emit (request_of E files) s,
     Normal (failure (message_or e (lit "Failed to process document")))).
Proof.
  intros H. run_processDocument. now rewrite H.
Qed.

Lemma processDocument_malformed files E s response e :
  answer E s files = Normal response -> ok response = true ->
  http_json response = Throw e ->
  Api.processDocument files E s
  = (emit (request_of E files) s,
     Normal (failure (message_or e (lit "Failed to process document")))).
Proof.
  intros H Hok Hj. run_processDocument. now rewrite H, Hok, Hj.
Qed.

Lemma processDocument_null files E s response :
  answer E s files = Normal response -> ok response = true ->
  http_json response = Normal VNull ->
  Api.processDocument files E s
  = (emit (request_of E files) s,
     Normal (failure (message_or (TypeError_null_property (lit "null")
                                    (lit "bill_of_lading_number"))
                        (lit "Failed to process document")))).
Proof.
  intros H Hok Hj. run_processDocument. now rewrite H, Hok, Hj.
Qed.

Lemma processDocument_status_message files E s response props m :
  answer E s files = Normal response -> ok response = false ->
  http_json response = Normal (VObject props) ->
  field props (lit "message") = VString m -> m <> [] ->
  Api.processDocument files E s = (emit (request_of E files) s, Normal (failure m)).
Proof.
  intros H Hok Hj Hm Hne. run_processDocument.
  rewrite H, Hok, Hj. cbn [negb]. rewrite get_object, Hm.
  destruct m as [|c m]; [congruence|]. reflexivity.
Qed.

Lemma processDocument_status_line files E s response :
  answer E s files = Normal response -> ok response = false ->
  (match http_json response with
   | Throw _ => True
   | Normal (VObject props) => truthy (field props (lit "message")) = false
   | Normal _ => False
   end) ->
  Api.processDocument files E s
  = (emit (request_of E files) s,
     Normal (failure (http_error_message (http_status response)))).
Proof.
  intros H Hok Hb. run_processDocument. rewrite H, Hok. cbn [negb].
  destruct (http_json response) as [[| | | | | |props]|e]; try contradiction.
  - rewrite get_object, Hb. reflexivity.
  - cbn. reflexivity.
Qed.

Lemma processDocument_not_an_object files E s response j :
  answer E s files = Normal response -> ok response = true ->
  http_json response = Normal j ->
  (match j with
   | VBool _ | VNumber _ | VString _ | VArray _ => True
   | _ => False
   end) ->
  Api.processDocument files E s
  = (emit (request_of E files) s, Normal (succeeded (mapped [] []))).
Proof.
  intros H Hok Hj Hkind. run_processDocument. rewrite H, Hok, Hj.
  destruct j; try contradiction; reflexivity.
Qed.

Lemma processDocument_ok files E s response props w :
  answer E s files = Normal response -> ok response = true ->
  http_json response = Normal (VObject props) ->
  Api.cleanNumericValue (field props (lit "average_gross_weight")) = Normal w ->
  Api.processDocument files E s
  = (emit (request_of E files) s, Normal (succeeded (mapped props w))).
Proof.
  intros H Hok Hj Hw. run_processDocument.
  rewrite H, Hok, Hj. cbn [negb]. rewrite !get_object, Hw. reflexivity.
Qed.

Lemma processDocument_status_failure files E s response :
  answer E s files = Normal response -> ok response = false ->
  exists m, Api.processDocument files E s
            = (emit (request_of E files) s, Normal (failure m)).
Proof.
  intros H Hok. run_processDocument. rewrite H, Hok. cbn [negb].
  destruct (match http_json response with Normal v => Normal v | Throw _ => _ end)
    as [ed|e]; [|eexists; reflexivity].
  destruct (get ed _) as [msg|e]; [|eexists; reflexivity].
  destruct (truthy msg); [|eexists; reflexivity].
  unfold Api.new_Error. destruct (ToString msg); eexists; reflexivity.
Qed.

Lemma processDocument_status_any_message files E s response j msg :
  answer E s files = Normal response -> ok response = false ->
  http_json response = Normal j ->
  get j (lit "message") = Normal msg ->
  Api.processDocument files E s
  = (emit (request_of E files) s,
     Normal (failure
               (if truthy msg then
                  match ToString msg with
                  | Some m => m
                  | None => message_or TypeError_not_primitive
                              (lit "Failed to process document")
                  end
                else http_error_message (http_status response)))).
Proof.
  intros H Hok Hj Hmsg. run_processDocument. rewrite H, Hok, Hj. cbn [negb].
  rewrite Hmsg. destruct (truthy msg); [|reflexivity].
  unfold Api.new_Error. destruct (ToString msg); reflexivity.
Qed.

Lemma processDocument_status_null files E s response :
  answer E s files = Normal response -> ok response = false ->
  http_json response = Normal VNull ->
  Api.processDocument files E s
  = (emit (request_of E files) s,
     Normal (failure (message_or (TypeError_null_property (lit "null") (lit "message"))
                        (lit "Failed to process document")))).
Proof.
  intros H Hok Hj. run_processDocument. now rewrite H, Hok, Hj.
Qed.

Lemma processDocument_no_conversion files E s response j w e :
  answer E s files = Normal response -> ok response = true ->
  http_json response = Normal j ->
  get j (lit "average_gross_weight") = Normal w ->
  Api.cleanNumericValue w = Throw e ->
  Api.processDocument files E s
  = (emit (request_of E files) s,
     Normal (failure (message_or e (lit "Failed to process document")))).
Proof.
  intros H Hok Hj Hw Hc. run_processDocument. rewrite H, Hok, Hj. cbn [negb].
  destruct j as [| |b|x|x|l|props]; try discriminate;
    try (cbn in Hw; injection Hw as <-; discriminate).
  rewrite get_object in Hw. injection Hw as <-.
  rewrite !get_object, Hc. reflexivity.
Qed.

(** [processDocument] succeeds exactly under a 2xx status with a JSON
    body other than [null] whose gross weight has a string conversion. *)
Lemma processDocument_success_iff files E s :
  (exists d, Api.processDocument files E s
             = (emit (request_of E files) s, Normal (succeeded d)))
  <-> exists response j w c,
      answer E s files = Normal response /\ ok response = true
      /\ http_json response = Normal j
      /\ get j (lit "average_gross_weight") = Normal w
      /\ Api.cleanNumericValue w = Normal c.
Proof.
  split.
  - intros [d Hd].
    destruct (answer E s files) as [response|e] eqn:Ha.
    2:{ rewrite (processDocument_network_error _ _ _ _ Ha) in Hd. discriminate. }
    destruct (ok response) eqn:Hok.
    2:{ destruct (processDocument_status_failure _ _ _ _ Ha Hok) as [m Hm].
        rewrite Hm in Hd. discriminate. }
    destruct (http_json response) as [j|e] eqn:Hj.
    2:{ rewrite (processDocument_malformed _ _ _ _ _ Ha Hok Hj) in Hd. discriminate. }
    destruct (get j (lit "average_gross_weight")) as [w|e] eqn:Hw.
    2:{ destruct j as [| |b|x|x|l|props]; try discriminate Hw;
          try (rewrite get_object in Hw; discriminate Hw);
          run_processDocument; rewrite Ha, Hok, Hj in Hd; cbn in Hd;
          discriminate Hd. }
    destruct (Api.cleanNumericValue w) as [c|e] eqn:Hc.
    2:{ rewrite (processDocument_no_conversion _ _ _ _ _ _ _ Ha Hok Hj Hw Hc) in Hd.
        discriminate. }
    exists response, j, w, c. auto.
  - intros (response & j & w & c & Ha & Hok & Hj & Hw & Hc).
    destruct j as [| |b|x|x|l|props]; try discriminate.
    1-4: eexists;
      apply (processDocument_not_an_object _ _ _ _ _ Ha Hok Hj); exact I.
    rewrite get_object in Hw. injection Hw as <-.
    eexists. apply (processDocument_ok _ _ _ _ _ _ Ha Hok Hj Hc).
Qed.

(** ** The result of the extraction client (C5, C10) *)

(** C5, as amended.  For every input [processDocument] sends exactly one
    request (no retry), never throws, and resolves to a tagged result.
    It is the success variant exactly under a 2xx status with a JSON body
    other than [null] whose gross weight has a string conversion, and it
    then carries the mapped fields (nothing to map when the body is a
    JSON boolean, number, string or array).  With any other status it is
    always the failure variant: its message is the line built from the
    HTTP status when the body is not JSON or has no truthy [message], the
    string conversion of the body's [message] when that is truthy (the
    message itself when it is a string), and the message of the engine's
    error when the body is JSON [null] or the [message] has no string
    conversion.  On a network error and on malformed JSON under a 2xx
    status it is the failure variant carrying the message of the error
    that was thrown (a fixed text when that is not an [Error]); a 2xx
    body that is JSON [null], or whose gross weight has no string
    conversion, gives the failure variant too, with the message of the
    engine's error. *)
Theorem processDocument_tagged_result (files : list File) (E : Env) (s : Sys) :
  (exists r,
      Api.processDocument files E s = (emit (request_of E files) s, Normal r)
      /\ tagged r)
  /\ (forall response props w,
        answer E s files = Normal response -> ok response = true ->
        http_json response = Normal (VObject props) ->
        Api.cleanNumericValue (field props (lit "average_gross_weight")) = Normal w ->
        result (Api.processDocument files) E s = Normal (succeeded (mapped props w)))
  /\ (forall response j,
        answer E s files = Normal response -> ok response = true ->
        http_json response = Normal j ->
        (match j with
         | VBool _ | VNumber _ | VString _ | VArray _ => True
         | _ => False
         end) ->
        result (Api.processDocument files) E s
        = Normal (succeeded
                    {| billOfLadingNumber := VUndefined;
                       containerNumber := VUndefined;
                       consigneeName := VUndefined;
                       consigneeAddress := VUndefined;
                       dateOfExport := VUndefined;
                       lineItemsCount := VUndefined;
                       averageGrossWeight := VString [];
                       averagePrice := VUndefined |}))
  /\ (forall response props m,
        answer E s files = Normal response -> ok response = false ->
        http_json response = Normal (VObject props) ->
        field props (lit "message") = VString m -> m <> [] ->
        result (Api.processDocument files) E s = Normal (failure m))
  /\ (forall response,
        answer E s files = Normal response -> ok response = false ->
        (match http_json response with
         | Throw _ => True
         | Normal (VObject props) => truthy (field props (lit "message")) = false
         | Normal _ => False
         end) ->
        result (Api.processDocument files) E s
        = Normal (failure (http_error_message (http_status response))))
  /\ (forall e,
        answer E s files = Throw e ->
        result (Api.processDocument files) E s
        = Normal (failure (message_or e (lit "Failed to process document"))))
  /\ (forall response e,
        answer E s files = Normal response -> ok response = true ->
        http_json response = Throw e ->
        result (Api.processDocument files) E s
        = Normal (failure (message_or e (lit "Failed to process document"))))
  /\ (forall response,
        answer E s files = Normal response -> ok response = true ->
        http_json response = Normal VNull ->
        exists m, result (Api.processDocument files) E s = Normal (failure m))
  /\ (forall response,
        answer E s files = Normal response -> ok response = false ->
        exists m, result (Api.processDocument files) E s = Normal (failure m))
  /\ (forall response j msg,
        answer E s files = Normal response -> ok response = false ->
        http_json response = Normal j ->
        get j (lit "message") = Normal msg ->
        result (Api.processDocument files) E s
        = Normal (failure
                    (if truthy msg then
                       match ToString msg with
                       | Some m => m
                       | None => message_or TypeError_not_primitive
                                   (lit "Failed to process document")
                       end
                     else http_error_message (http_status response))))
  /\ (forall response,
        answer E s files = Normal response -> ok response = false ->
        http_json response = Normal VNull ->
        result (Api.processDocument files) E s
        = Normal (failure
                    (message_or (TypeError_null_property (lit "null") (lit "message"))
                       (lit "Failed to process document"))))
  /\ (forall response j w e,
        answer E s files = Normal response -> ok response = true ->
        http_json response = Normal j ->
        get j (lit "average_gross_weight") = Normal w ->
        Api.cleanNumericValue w = Throw e ->
        result (Api.processDocument files) E s
        = Normal (failure (message_or e (lit "Failed to process document"))))
  /\ ((exists d, result (Api.processDocument files) E s = Normal (succeeded d))
      <-> exists response j w c,
          answer E s files = Normal response /\ ok response = true
          /\ http_json response = Normal j
          /\ get j (lit "average_gross_weight") = Normal w
          /\ Api.cleanNumericValue w = Normal c).
Proof.
  unfold result.
  split; [apply processDocument_total|].
  split; [intros response props w H1 H2 H3 H4;
          now rewrite (processDocument_ok _ _ _ _ _ _ H1 H2 H3 H4)|].
  split; [intros response j H1 H2 H3 H4;
          now rewrite (processDocument_not_an_object _ _ _ _ _ H1 H2 H3 H4)|].
  split; [intros response props m H1 H2 H3 H4 H5;
          now rewrite (processDocument_status_message _ _ _ _ _ _ H1 H2 H3 H4 H5)|].
  split; [intros response H1 H2 H3;
          now rewrite (processDocument_status_line _ _ _ _ H1 H2 H3)|].
  split; [intros e H1; now rewrite (processDocument_network_error _ _ _ _ H1)|].
  split; [intros response e H1 H2 H3;
          now rewrite (processDocument_malformed _ _ _ _ _ H1 H2 H3)|].
  split; [intros response H1 H2 H3; eexists;
          now rewrite (processDocument_null _ _ _ _ H1 H2 H3)|].
  split; [intros response H1 H2;
          destruct (processDocument_status_failure _ _ _ _ H1 H2) as [m Hm];
          exists m; now rewrite Hm|].
  split; [intros response j msg H1 H2 H3 H4;
          now rewrite (processDocument_status_any_message _ _ _ _ _ _ H1 H2 H3 H4)|].
  split; [intros response H1 H2 H3;
          now rewrite (processDocument_status_null _ _ _ _ H1 H2 H3)|].
  split; [intros response j w e H1 H2 H3 H4 H5;
          now rewrite (processDocument_no_conversion _ _ _ _ _ _ _ H1 H2 H3 H4 H5)|].
  rewrite <- processDocument_success_iff.
  destruct (processDocument_total files E s) as (r & Hr & _). rewrite Hr. cbn [snd].
  split; intros [d H]; exists d; congruence.
Qed.

Lemma processDocument_tagged_result_witness :
  result (Api.processDocument [Fixture.inv_pdf]) Fixture.E_ok Fixture.start
  = Normal (succeeded (mapped
                         [ (lit "bill_of_lading_number", VString (lit "ZMLU34110002"));
                           (lit "container_number", VString (lit "MSCU1234567"));
                           (lit "consignee_name", VString (lit "KABOFER TRADING INC"));
                           (lit "consignee_address", VString (lit "66 Wall Street, New York"));
                           (lit "date_of_export", VString (lit "2019-08-22"));
                           (lit "line_items_count", VNumber (lit "18"));
                           (lit "average_gross_weight", VString (lit "162.37 KG"));
                           (lit "average_price", VString (lit "1250.50")) ]
                         (lit "162.37"))).
Proof.
  apply (proj1 (proj2 (processDocument_tagged_result
                         [Fixture.inv_pdf] Fixture.E_ok Fixture.start))
           {| http_status := 200; http_json := Normal Fixture.extraction_body |} _ _
           eq_refl eq_refl eq_refl).
  reflexivity.
Defined.

(** C5 as stated fails: under status 200 with a body that is not JSON,
    and on a network error, the failure message is the thrown error's
    own, drawn neither from a response body's [message] nor from the HTTP
    status; and status 200 with the parseable body [null], or with a gross
    weight that has no string conversion, is a failure. *)
Lemma processDocument_message_not_from_response :
  (result (Api.processDocument [Fixture.inv_pdf])
          (Fixture.with_fetch ApiFixture.html_200) Fixture.start
   = Normal (failure (lit "Unexpected token < in JSON at position 0"))
   /\ (drawn_from_response ApiFixture.html_200
         (lit "Unexpected token < in JSON at position 0") -> False))
  /\ (result (Api.processDocument [Fixture.inv_pdf])
             (Fixture.with_fetch ApiFixture.offline) Fixture.start
      = Normal (failure (lit "Failed to fetch"))
      /\ (drawn_from_response ApiFixture.offline (lit "Failed to fetch") -> False))
  /\ Api.success
       (match result (Api.processDocument [Fixture.inv_pdf])
                (Fixture.with_fetch ApiFixture.null_200) Fixture.start with
        | Normal r => r
        | Throw _ => succeeded DocumentContext.defaultData
        end) = false
  /\ result (Api.processDocument [Fixture.inv_pdf])
            (Fixture.with_fetch ApiFixture.odd_weight_200) Fixture.start
     = Normal (failure (lit "value.toString is not a function")).
Proof.
  repeat split; try reflexivity.
  - intros [response [Heq [H|[props [Hj _]]]]];
      injection Heq as <-; simpl in *; [vm_compute in H|]; discriminate.
  - intros [response [Heq _]]. discriminate.
Qed.

(** C10.  When the response object omits the [average_gross_weight] key
    or holds [null] under it, the success result's [averageGrossWeight] is
    the empty string, and the other seven fields are the response's own
    values under their keys ([undefined] for an absent one), unchanged;
    [cleanNumericValue] sends [null], [undefined] and the empty string to
    the empty string. *)
Theorem missing_weight_is_empty_string
    (files : list File) (E : Env) (s : Sys)
    (response : HttpResponse) (props : list (jsstring * value)) :
  answer E s files = Normal response ->
  ok response = true ->
  http_json response = Normal (VObject props) ->
  own_property props (lit "average_gross_weight") = None
  \/ own_property props (lit "average_gross_weight") = Some VNull ->
  result (Api.processDocument files) E s
  = Normal (succeeded
              {| billOfLadingNumber := field props (lit "bill_of_lading_number");
                 containerNumber := field props (lit "container_number");
                 consigneeName := field props (lit "consignee_name");
                 consigneeAddress := field props (lit "consignee_address");
                 dateOfExport := field props (lit "date_of_export");
                 lineItemsCount := field props (lit "line_items_count");
                 averageGrossWeight := VString [];
                 averagePrice := field props (lit "average_price") |})
  /\ Api.cleanNumericValue VNull = Normal []
  /\ Api.cleanNumericValue VUndefined = Normal []
  /\ Api.cleanNumericValue (VString []) = Normal [].
Proof.
  intros H1 H2 H3 Hw. split; [|repeat split].
  assert (Hc : Api.cleanNumericValue (field props (lit "average_gross_weight"))
               = Normal []).
  { unfold field. destruct Hw as [-> | ->]; reflexivity. }
  unfold result. now rewrite (processDocument_ok _ _ _ _ _ _ H1 H2 H3 Hc).
Qed.

Lemma missing_weight_is_empty_string_witness :
  result (Api.processDocument [Fixture.inv_pdf])
         (Fixture.with_fetch (Normal ApiFixture.null_weight_200)) Fixture.start
  = Normal (succeeded
              {| billOfLadingNumber := VUndefined;
                 containerNumber := VString (lit "MSCU1234567");
                 consigneeName := VUndefined;
                 consigneeAddress := VUndefined;
                 dateOfExport := VUndefined;
                 lineItemsCount := VUndefined;
                 averageGrossWeight := VString [];
                 averagePrice := VNumber (lit "1250.5") |}).
Proof.
  apply (missing_weight_is_empty_string
           [Fixture.inv_pdf]
           (Fixture.with_fetch (Normal ApiFixture.null_weight_200)) Fixture.start
           ApiFixture.null_weight_200 _ eq_refl eq_refl eq_refl).
  right. reflexivity.
Defined.

(* ===================================================================== *)
(** * Field validation *)
(* ===================================================================== *)

(** A schema accepts a string exactly when every check passes. *)
Lemma accepts_all_checks schema s :
  accepts schema (VString s) = forallb (fun c => check_passes c s) schema.
Proof.
  unfold accepts, safeParse.
  induction schema as [|c schema IH]; simpl; [reflexivity|].
  destruct (check_passes c s); simpl; [exact IH | reflexivity].
Qed.

(** A pattern that starts with [^] matches at index 0 or nowhere. *)
Lemma search_anchored r i s : search (Seq Bol r) (S i) s = None.
Proof.
  revert i; induction s as [|c s IH]; intros i; simpl; [reflexivity|apply IH].
Qed.

Lemma test_anchored r s :
  test (Seq Bol r) s
  = match m r (fun e _ => Some e) 0 s with Some _ => true | None => false end.
Proof.
  unfold test, exec. destruct s as [|c s]; simpl.
  - now destruct (m r _ 0 []).
  - rewrite search_anchored. now destruct (m r _ 0 (c :: s)).
Qed.

Lemma letter_under_i x :
  in_range (canonicalize 65) (canonicalize 90) (canonicalize x) = is_letter x.
Proof.
  unfold is_letter, in_range, canonicalize. cbn [N.leb N.compare andb].
  change ((97 <=? 65)%N && (65 <=? 122)%N) with false.
  change ((97 <=? 90)%N && (90 <=? 122)%N) with false. cbv iota.
  destruct (N.leb_spec 97 x), (N.leb_spec x 122); cbn [andb];
    repeat match goal with
           | |- context [(?a <=? ?b)%N] => destruct (N.leb_spec a b)
           end; cbn [andb orb]; try reflexivity; lia.
Qed.

(** C7.  The container-number rule accepts a string exactly when it has
    11 characters, the first four of them letters and the other seven
    digits; ["MSCU1234567"] is accepted and ["ABC123"] rejected. *)
Theorem containerNumber_rule :
  (forall s : jsstring,
      accepts containerNumber_schema (VString s) = true
      <-> length s = 11
          /\ forallb is_letter (firstn 4 s) = true
          /\ forallb is_digit (skipn 4 s) = true)
  /\ accepts containerNumber_schema (VString (lit "MSCU1234567")) = true
  /\ accepts containerNumber_schema (VString (lit "ABC123")) = false.
Proof.
  split; [|split; reflexivity].
  intros s. rewrite accepts_all_checks.
  unfold containerNumber_schema, containerNumber_pattern.
  cbn [forallb check_passes seqs]. rewrite test_anchored.
  do 11 (destruct s as [|? s];
         [ cbn [length Nat.leb andb]; split;
           [ discriminate | intros [Hl _]; discriminate ] | ]).
  destruct s as [|? s].
  - unfold range_i. cbn [length Nat.leb andb m times firstn skipn forallb].
    rewrite !letter_under_i.
    repeat match goal with
           | |- context [is_letter ?c] => destruct (is_letter c)
           | |- context [is_digit ?c] => destruct (is_digit c)
           end; cbn [andb]; split; intros H; try discriminate;
      try (repeat split; reflexivity); destruct H as (_ & H1 & H2); discriminate.
  - cbn [length Nat.leb andb]. split; [discriminate|].
    intros [Hl _]. simpl in Hl. lia.
Qed.

(** C8, as amended.  The date-of-export rule accepts a string exactly
    when it is not empty, parses as a valid date, and that date is not
    after the last millisecond (23:59:59.999, local time) of the day of
    the evaluation. *)
Theorem dateOfExport_rule (E : DateEnv) (s : jsstring) :
  accepts (dateOfExport_schema E) (VString s) = true
  <-> s <> []
      /\ exists d, Date_parse E s = Some d /\ (d <= end_of_today E)%Z.
Proof.
  rewrite accepts_all_checks. unfold dateOfExport_schema.
  cbn [forallb check_passes setHours]. rewrite andb_true_r.
  fold (end_of_today E).
  unfold date_valid, date_le. split.
  - intros H. apply andb_true_iff in H as [Hlen H].
    apply andb_true_iff in H as [Hv Hle].
    split.
    + destruct s; [discriminate|congruence].
    + destruct (Date_parse E s) as [d|]; [|discriminate].
      exists d. split; [reflexivity|]. now apply Z.leb_le.
  - intros [Hne [d [Hd Hle]]]. rewrite Hd.
    destruct s as [|c s]; [congruence|].
    cbn [length Nat.leb andb]. now apply Z.leb_le.
Qed.

(** C8 as stated fails: one hour into a day (UTC), the rule accepts a
    date that lies eleven hours after the moment of the evaluation. *)
Lemma dateOfExport_later_today_accepted :
  accepts (dateOfExport_schema DateFixture.one_am) (VString DateFixture.noon) = true
  /\ Date_parse DateFixture.one_am DateFixture.noon = Some 43200000%Z
  /\ (Date_now DateFixture.one_am < 43200000)%Z.
Proof.
  repeat split.
Qed.

(* ===================================================================== *)
(** * The document context *)
(* ===================================================================== *)

Lemma validate_files_run files E s :
  DocumentContext.validate_files files E s
  = (s, match first_invalid files with
        | Some file => Throw (ErrorObject (DocumentContext.invalid_type_message file))
        | None => Normal tt
        end).
Proof.
  unfold first_invalid. induction files as [|f files IH]; simpl; [reflexivity|].
  destruct (negb (DocumentContext.isValidType (type f))); [reflexivity|exact IH].
Qed.

(** A loop body that only draws from the random source, mapped over a
    list, only draws from the random source. *)
Lemma mapM_quiet {A B} (f : A -> M B) (R : A -> B -> Prop) (k : nat) :
  (forall a E s, exists b, f a E s = (bump k s, Normal b) /\ R a b) ->
  forall l E s, exists bs,
      mapM f l E s = (bump (k * length l) s, Normal bs) /\ Forall2 R l bs.
Proof.
  intros Hf l. induction l as [|a l IH]; intros E s.
  - exists []. split; [|constructor]. simpl. rewrite Nat.mul_0_r.
    destruct s; reflexivity.
  - destruct (Hf a E s) as [b [Hb HR]].
    destruct (IH E (bump k s)) as [bs [Hbs HRs]].
    exists (b :: bs). split; [|now constructor].
    simpl. unfold bind at 1. rewrite Hb. unfold bind at 1. rewrite Hbs.
    unfold ret, bump. cbn [db trace fresh ui]. do 2 f_equal. lia.
Qed.


Ltac unfold_world :=
  unfold try_finally, try_catch, bind, getUser, insert_shipment_request,
    DocumentContext.createLog, insert_log, update_shipment_request,
    select_recent_shipment_request, select_shipment_request,
    setBatches, setCurrentBatch, setCurrentDocument, setIsProcessing, setError,
    crypto_randomUUID, URL_createObjectURL, draw, new_Date, throw, ret, to, state,
    with_db, with_ui, emit.


(** The catch block of [uploadDocuments]: whatever the identity provider,
    the store and the log answer, only log rows are written. *)
Ltac failure_path :=
  repeat (simpl;
          match goal with
          | |- context [auth_getUser ?E ?t] =>
              let a := fresh "a" in
              destruct (auth_getUser E t) as [[?|] ?]
          | |- context [select_error ?E ?t] => destruct (select_error E t)
          | |- context [log_error ?E ?t] => destruct (log_error E t)
          | |- context [find ?f ?l] => destruct (find f l)
          | |- context [str_eqb ?a ?b] => destruct (str_eqb a b)
          end);
  simpl; eexists; (split; [reflexivity|]).

(** The result of [processDocument] depends on the world only through
    the moment of the request. *)
Lemma processDocument_time files E s1 s2 :
  length (trace s1) = length (trace s2) ->
  result (Api.processDocument files) E s1 = result (Api.processDocument files) E s2.
Proof.
  intros H. unfold result. run_processDocument. rewrite H.
  destruct (fetch E (length (trace s2)) _) as [resp|e]; [|reflexivity].
  destruct (negb (ok resp)).
  - destruct (match http_json resp with Normal v => Normal v | Throw _ => _ end)
      as [ed|e]; [|reflexivity].
    destruct (get ed _) as [msg|e]; [|reflexivity].
    destruct (if truthy msg then _ else _) as [x|e]; reflexivity.
  - destruct (http_json resp) as [j|e]; [|reflexivity].
    repeat match goal with
    | |- context [get j ?k] => destruct (get j k) as [?|?]
    | |- context [Api.cleanNumericValue ?k] => destruct (Api.cleanNumericValue k) as [?|?]
    end; reflexivity.
Qed.

Lemma uploadDocuments_outcome files title description E s :
  exists s',
    DocumentContext.uploadDocuments files title description E s = (s', Normal tt)
    /\ upload_outcome E s files title description s'.
Proof.
  Opaque lit.
  unfold DocumentContext.uploadDocuments. unfold_world. simpl.
  destruct (auth_getUser E (length (trace s))) as [u ae] eqn:Hauth.
  destruct ae as [ae|].
  { failure_path; apply upload_unauthenticated; rewrite ?Hauth; reflexivity. }
  destruct u as [user_id|].
  2:{ failure_path; apply upload_unauthenticated; rewrite ?Hauth; reflexivity. }
  simpl.
  destruct (insert_outcome E (S (length (trace s)))) as [id created|message] eqn:Hins.
  2:{ destruct message; failure_path;
      eapply upload_not_created; rewrite ?Hauth; try eassumption; reflexivity. }
  simpl. rewrite validate_files_run.
  destruct (first_invalid files) as [file|] eqn:Hinv.
  { failure_path;
      eapply upload_invalid_file; rewrite ?Hauth; try eassumption; reflexivity. }
  simpl.
  destruct (log_error E _); simpl;
  destruct (log_error E _); simpl;
  match goal with
  | |- context [Api.processDocument files E ?s1] =>
      destruct (processDocument_total files E s1) as (r & Hr & Htag);
      assert (Hx : extraction E (4 + length (trace s)) files r)
        by (intros s2 H2; rewrite (processDocument_time files E s2 s1)
              by (rewrite H2; reflexivity);
            unfold result; now rewrite Hr);
      rewrite Hr; clear Hr; destruct Htag as [[extracted ->]|[message ->]]
  end; simpl.
  all: try solve [ destruct message; failure_path;
      eapply upload_extraction_failed; rewrite ?Hauth; try eassumption; reflexivity ].
  all: match goal with
  | extracted : OceanShipmentData |- context [mapM ?f ?l ?E' ?s1] =>
      destruct (mapM_quiet f
                  (fun file doc => fileName doc = name file /\ data doc = extracted) 2
                  (fun a E0 s0 => ex_intro _ _ (conj eq_refl (conj eq_refl eq_refl)))
                  l E' s1) as (docs & -> & Hdocs)
  end; simpl.
  all: destruct (log_error _ _); simpl; destruct (update_error _ _); simpl.
  all: eexists; (split; [reflexivity|]).
  all: match goal with
       | extracted : OceanShipmentData
         |- upload_outcome _ _ _ _ _ {| db := _; trace := _; fresh := _;
                                        ui := {| batches := ?nb :: _ |} |} =>
           eapply upload_published with (newBatch := nb) (extracted := extracted)
       end; rewrite ?Hauth; try eassumption; reflexivity.
Qed.
Transparent lit.

Lemma uploadDocuments_returns files title description E s :
  result (DocumentContext.uploadDocuments files title description) E s = Normal tt
  /\ upload_outcome E s files title description
       (after (DocumentContext.uploadDocuments files title description) E s).
Proof.
  destruct (uploadDocuments_outcome files title description E s) as (s' & Hrun & Hout).
  unfold result, after. rewrite Hrun. split; [reflexivity|exact Hout].
Qed.

Lemma extraction_functional E t files r1 r2 :
  extraction E t files r1 -> extraction E t files r2 -> r1 = r2.
Proof.
  intros H1 H2.
  pose (s1 := {| db := {| shipment_requests := []; shipment_request_logs := [] |};
                 trace := repeat AuthGetUser t; fresh := 0; ui := Fixture.blank |}).
  assert (Hlen : length (trace s1) = t) by apply repeat_length.
  specialize (H1 s1 Hlen). specialize (H2 s1 Hlen). congruence.
Qed.

Lemma all_valid_no_invalid files :
  forallb (fun f => DocumentContext.isValidType (type f)) files = true ->
  first_invalid files = None.
Proof.
  unfold first_invalid. induction files as [|f files IH]; simpl; [reflexivity|].
  intros H. apply andb_true_iff in H as [Hf H]. rewrite Hf. simpl. auto.
Qed.

Lemma first_invalid_split files :
  (exists f, In f files /\ DocumentContext.isValidType (type f) = false) ->
  exists valid file rest,
    files = valid ++ file :: rest
    /\ forallb (fun f => DocumentContext.isValidType (type f)) valid = true
    /\ DocumentContext.isValidType (type file) = false
    /\ first_invalid files = Some file.
Proof.
  unfold first_invalid. induction files as [|g files IH]; intros (f & Hin & Hf).
  - destruct Hin.
  - destruct (DocumentContext.isValidType (type g)) eqn:Hg.
    + destruct Hin as [->|Hin]; [congruence|].
      destruct IH as (valid & file & rest & -> & Hv & Hi & Hfind); [eauto|].
      exists (g :: valid), file, rest. simpl. rewrite Hg. simpl. auto.
    + exists [], g, files. simpl. rewrite Hg. simpl. auto.
Qed.

(** C1.  A call of [uploadDocuments] with files of valid types, a
    non-empty title and a principal present returns, and then either it
    has published one batch, at the front and current, whose status is
    [needs review], or the workflow has failed, in the creation of the
    record or in the extraction, with the error set and no batch
    published; no batch that the call added is in another status. *)
Theorem upload_ends_in_review_or_failure
    (files : list File) (title : jsstring) (description : option jsstring)
    (E : Env) (s : Sys) (user_id : jsstring) :
  principal (auth_getUser E (length (trace s))) = Some user_id ->
  forallb (fun f => DocumentContext.isValidType (type f)) files = true ->
  title <> [] ->
  let s' := after (DocumentContext.uploadDocuments files title description) E s in
  result (DocumentContext.uploadDocuments files title description) E s = Normal tt
  /\ ((exists newBatch,
          ui s' = published_ui (ui s) newBatch
          /\ status newBatch = Some DocumentContext.needs_review)
      \/ (exists message,
             insert_outcome E (S (length (trace s))) = InsertFailed message
             /\ ui s' = failed_ui (ui s)
                          (lit "Failed to create shipment request: "
                           ++ or_default message (lit "Unknown error")))
      \/ (exists message,
             extraction E (4 + length (trace s)) files (failure message)
             /\ ui s' = failed_ui (ui s)
                          (or_default message (lit "Failed to process documents"))))
  /\ (forall b, In b (batches (ui s')) ->
                In b (batches (ui s))
                \/ status b = Some DocumentContext.needs_review).
Proof.
  intros Hp Hvalid Htitle s'.
  apply all_valid_no_invalid in Hvalid.
  destruct (uploadDocuments_returns files title description E s) as [Hret Hout].
  fold s' in Hout. split; [exact Hret|].
  destruct Hout as [Hp' _ _ | ? ? _ Hins Hui _ | ? ? ? ? _ _ Hf' _ _
                   | ? ? ? ? _ _ _ Hx Hui _ | ? ? ? nb ? _ _ _ _ Hui Hst _ _ _ _];
    try congruence; rewrite Hui; (split; [eauto 6|]); simpl; auto.
  intros b [<-|Hb]; auto.
Qed.

Lemma upload_ends_in_review_or_failure_witness :
  let s' := after (DocumentContext.uploadDocuments
                     [Fixture.inv_pdf] (lit "Batch A") None)
                  Fixture.E_ok Fixture.start in
  result (DocumentContext.uploadDocuments [Fixture.inv_pdf] (lit "Batch A") None)
         Fixture.E_ok Fixture.start = Normal tt
  /\ ((exists newBatch,
          ui s' = published_ui (ui Fixture.start) newBatch
          /\ status newBatch = Some DocumentContext.needs_review)
      \/ (exists message,
             insert_outcome Fixture.E_ok (S (length (trace Fixture.start)))
             = InsertFailed message
             /\ ui s' = failed_ui (ui Fixture.start)
                          (lit "Failed to create shipment request: "
                           ++ or_default message (lit "Unknown error")))
      \/ (exists message,
             extraction Fixture.E_ok (4 + length (trace Fixture.start))
               [Fixture.inv_pdf] (failure message)
             /\ ui s' = failed_ui (ui Fixture.start)
                          (or_default message (lit "Failed to process documents"))))
  /\ (forall b, In b (batches (ui s')) ->
                In b (batches (ui Fixture.start))
                \/ status b = Some DocumentContext.needs_review).
Proof.
  apply (upload_ends_in_review_or_failure
           [Fixture.inv_pdf] (lit "Batch A") None Fixture.E_ok Fixture.start (lit "u1")).
  - reflexivity.
  - reflexivity.
  - discriminate.
Defined.

(** C2.  A call of [uploadDocuments] with at least one file of an
    unsupported type fails.  Once the principal is there and the record
    has been inserted, it fails with the validation error that names the
    first such file in upload order, and the row inserted earlier in the
    call stays in the store, in status [pending] and without extracted
    data. *)
Theorem invalid_file_fails_after_insert
    (files : list File) (title : jsstring) (description : option jsstring)
    (E : Env) (s : Sys) :
  (exists f, In f files /\ DocumentContext.isValidType (type f) = false) ->
  let s' := after (DocumentContext.uploadDocuments files title description) E s in
  (exists message, ui s' = failed_ui (ui s) message)
  /\ (forall user_id id created,
         principal (auth_getUser E (length (trace s))) = Some user_id ->
         insert_outcome E (S (length (trace s))) = Inserted id created ->
         exists valid file rest row,
           files = valid ++ file :: rest
           /\ forallb (fun f => DocumentContext.isValidType (type f)) valid = true
           /\ DocumentContext.isValidType (type file) = false
           /\ ui s' = failed_ui (ui s)
                        (lit "Invalid file type for " ++ name file
                         ++ lit ". Please upload PDF or Excel files only.")
           /\ shipment_requests (db s') = row :: shipment_requests (db s)
           /\ sr_id row = id
           /\ sr_status row = lit "pending"
           /\ sr_extracted_data row = None).
Proof.
  intros Hbad s'.
  destruct (first_invalid_split files Hbad)
    as (valid & file & rest & Hsplit & Hv & Hi & Hfirst).
  destruct (uploadDocuments_returns files title description E s) as [_ Hout].
  fold s' in Hout. split.
  - destruct Hout as [_ Hui _ | ? ? _ _ Hui _ | ? ? ? ? _ _ _ Hui _
                     | ? ? ? ? _ _ Hf' _ _ _ | ? ? ? ? ? _ _ Hf' _ _ _ _ _ _ _];
      try congruence; eauto.
  - intros user_id id created Hp Hins.
    exists valid, file, rest, (pending_row id title description user_id created).
    destruct Hout as [Hp' _ _ | ? ? Hp' Hins' _ _ | ? ? ? ? Hp' Hins' Hf' Hui Hdb
                     | ? ? ? ? _ _ Hf' _ _ _ | ? ? ? ? ? _ _ Hf' _ _ _ _ _ _ _];
      try congruence.
    assert (file0 = file) as -> by congruence.
    assert (user_id0 = user_id) as -> by congruence.
    assert (id0 = id /\ created0 = created) as [-> ->] by (split; congruence).
    repeat split; assumption.
Qed.

Lemma invalid_file_fails_after_insert_witness :
  exists valid file rest row,
    [Fixture.inv_pdf; Fixture.notes_docx; Fixture.sheet_xlsx] = valid ++ file :: rest
    /\ forallb (fun f => DocumentContext.isValidType (type f)) valid = true
    /\ DocumentContext.isValidType (type file) = false
    /\ ui (after (DocumentContext.uploadDocuments
                    [Fixture.inv_pdf; Fixture.notes_docx; Fixture.sheet_xlsx]
                    (lit "Batch A") None) Fixture.E_ok Fixture.start)
       = failed_ui (ui Fixture.start)
           (lit "Invalid file type for " ++ name file
            ++ lit ". Please upload PDF or Excel files only.")
    /\ shipment_requests
         (db (after (DocumentContext.uploadDocuments
                       [Fixture.inv_pdf; Fixture.notes_docx; Fixture.sheet_xlsx]
                       (lit "Batch A") None) Fixture.E_ok Fixture.start))
       = row :: shipment_requests (db Fixture.start)
    /\ sr_id row = lit "r1"
    /\ sr_status row = lit "pending"
    /\ sr_extracted_data row = None.
Proof.
  refine (proj2 (invalid_file_fails_after_insert
                   [Fixture.inv_pdf; Fixture.notes_docx; Fixture.sheet_xlsx]
                   (lit "Batch A") None Fixture.E_ok Fixture.start _)
            (lit "u1") (lit "r1") (Some 1000%Z) eq_refl eq_refl).
  exists Fixture.notes_docx. split; [right; left; reflexivity | reflexivity].
Defined.

(** C9.  Every failing execution of [uploadDocuments] leaves the batches,
    the current batch and the current document as they were, sets the
    error string and resets [isProcessing]; a missing principal, a failed
    record creation, a file of an unsupported type and a failed extraction
    are such executions, each with its own message. *)
Theorem failed_upload_keeps_state
    (files : list File) (title : jsstring) (description : option jsstring)
    (E : Env) (s : Sys) :
  let s' := after (DocumentContext.uploadDocuments files title description) E s in
  (forall message,
      error (ui s') = Some message ->
      ui s' = {| batches := batches (ui s);
                 currentBatch := currentBatch (ui s);
                 currentDocument := currentDocument (ui s);
                 isProcessing := false;
                 error := Some message |})
  /\ (principal (auth_getUser E (length (trace s))) = None ->
      error (ui s') = Some (lit "Please sign in to upload documents"))
  /\ (forall user_id message,
         principal (auth_getUser E (length (trace s))) = Some user_id ->
         insert_outcome E (S (length (trace s))) = InsertFailed message ->
         error (ui s')
         = Some (lit "Failed to create shipment request: "
                 ++ or_default message (lit "Unknown error")))
  /\ (forall user_id id created file,
         principal (auth_getUser E (length (trace s))) = Some user_id ->
         insert_outcome E (S (length (trace s))) = Inserted id created ->
         first_invalid files = Some file ->
         error (ui s') = Some (DocumentContext.invalid_type_message file))
  /\ (forall user_id id created message,
         principal (auth_getUser E (length (trace s))) = Some user_id ->
         insert_outcome E (S (length (trace s))) = Inserted id created ->
         first_invalid files = None ->
         extraction E (4 + length (trace s)) files (failure message) ->
         error (ui s')
         = Some (or_default message (lit "Failed to process documents"))).
Proof.
  intros s'.
  destruct (uploadDocuments_returns files title description E s) as [_ Hout].
  fold s' in Hout.
  split; [|split; [|split; [|split]]].
  - intros message Herr.
    destruct Hout as [_ Hui _ | ? ? _ _ Hui _ | ? ? ? ? _ _ _ Hui _
                     | ? ? ? ? _ _ _ _ Hui _ | ? ? ? nb ? _ _ _ _ Hui _ _ _ _ _];
      rewrite Hui in Herr |- *; simpl in Herr; try discriminate;
      injection Herr as <-; reflexivity.
  - intros Hp.
    destruct Hout as [_ Hui _ | ? ? Hp' | ? ? ? ? Hp' | ? ? ? ? Hp' | ? ? ? ? ? Hp'];
      try congruence. now rewrite Hui.
  - intros user_id message Hp Hins.
    destruct Hout as [Hp' | ? ? _ Hins' Hui _ | ? ? ? ? _ Hins' | ? ? ? ? _ Hins'
                     | ? ? ? ? ? _ Hins']; try congruence.
    assert (message0 = message) as -> by congruence.
    rewrite Hui. reflexivity.
  - intros user_id id created file Hp Hins Hf.
    destruct Hout as [Hp' | ? ? _ Hins' | ? ? ? ? _ _ Hf' Hui _ | ? ? ? ? _ _ Hf'
                     | ? ? ? ? ? _ _ Hf']; try congruence.
    assert (file0 = file) as -> by congruence.
    rewrite Hui. reflexivity.
  - intros user_id id created message Hp Hins Hf Hx.
    destruct Hout as [Hp' | ? ? _ Hins' | ? ? ? ? _ _ Hf' | ? ? ? ? _ _ _ Hx' Hui _
                     | ? ? ? ? ? _ _ _ Hx']; try congruence.
    + pose proof (extraction_functional _ _ _ _ _ Hx Hx') as Heq.
      injection Heq as <-. now rewrite Hui.
    + pose proof (extraction_functional _ _ _ _ _ Hx Hx') as Heq. discriminate.
Qed.

Lemma failed_upload_keeps_state_witness :
  ui (after (DocumentContext.uploadDocuments [Fixture.inv_pdf] (lit "Batch A") None)
            Fixture.E_anonymous (Fixture.holding Fixture.done_batch))
  = {| batches := [Fixture.done_batch];
       currentBatch := None;
       currentDocument := None;
       isProcessing := false;
       error := Some (lit "Please sign in to upload documents") |}.
Proof.
  apply (proj1 (failed_upload_keeps_state
                  [Fixture.inv_pdf] (lit "Batch A") None
                  Fixture.E_anonymous (Fixture.holding Fixture.done_batch))
           (lit "Please sign in to upload documents")).
  reflexivity.
Defined.

(** The worked example of the specification: one PDF named [inv.pdf],
    title ["Batch A"], and an extraction that answers [extraction_body],
    give a current batch in [needs review] with one document whose fields
    are the mapped response, and the stored record follows. *)
Example upload_inv_pdf :
  let s' := after (DocumentContext.uploadDocuments
                     [Fixture.inv_pdf] (lit "Batch A") None)
                  Fixture.E_ok Fixture.start in
  option_map status (currentBatch (ui s')) = Some (Some (lit "needs review"))
  /\ option_map (fun b => map data (files b)) (currentBatch (ui s'))
     = Some [ {| billOfLadingNumber := VString (lit "ZMLU34110002");
                 containerNumber := VString (lit "MSCU1234567");
                 consigneeName := VString (lit "KABOFER TRADING INC");
                 consigneeAddress := VString (lit "66 Wall Street, New York");
                 dateOfExport := VString (lit "2019-08-22");
                 lineItemsCount := VNumber (lit "18");
                 averageGrossWeight := VString (lit "162.37");
                 averagePrice := VString (lit "1250.50") |} ]
  /\ map sr_status (shipment_requests (db s')) = [lit "needs review"]
  /\ map log_status (shipment_request_logs (db s'))
     = [lit "processing done"; lit "processing started"; lit "uploaded"].
Proof.
  cbv zeta. repeat split; vm_compute; reflexivity.
Qed.

(** ** Loading a record (C3) *)

(** C3, as amended.  For a record id already present as a batch in the
    session's memory, [loadShipmentRequest] still issues its one network
    read of the record and writes nothing to the store; the batches are
    left unchanged.  When that read succeeds, the in-memory batch becomes
    current as it is, with its first document; when the read fails or
    finds no row, the current batch and document stay as they were and
    the error is set. *)
Theorem loadShipmentRequest_in_memory
    (id : jsstring) (E : Env) (s : Sys) (existing : ProcessBatch) :
  in_memory id (ui s) = Some existing ->
  let s' := after (DocumentContext.loadShipmentRequest id) E s in
  trace s' = SelectShipmentRequest id :: trace s
  /\ db s' = db s
  /\ batches (ui s') = batches (ui s)
  /\ isProcessing (ui s') = false
  /\ (select_error E (length (trace s)) = None ->
      (exists row, stored id (db s) = Some row) ->
      currentBatch (ui s') = Some existing
      /\ currentDocument (ui s') = hd_error (files existing)
      /\ error (ui s') = None)
  /\ (select_error E (length (trace s)) <> None \/ stored id (db s) = None ->
      currentBatch (ui s') = currentBatch (ui s)
      /\ currentDocument (ui s') = currentDocument (ui s)
      /\ error (ui s') = Some (lit "Failed to load shipment request")).
Proof.
  unfold in_memory, stored. intros Hmem. cbv zeta.
  unfold after, DocumentContext.loadShipmentRequest. unfold_world. simpl.
  destruct (select_error E (length (trace s))) as [msg|] eqn:Hsel; simpl.
  { do 4 (split; [reflexivity|]). split.
    - intros Hn; discriminate Hn.
    - intros _. repeat split. }
  destruct (find (fun r => str_eqb (sr_id r) id) (shipment_requests (db s)))
    as [row|] eqn:Hrow; simpl.
  - rewrite Hmem. simpl. destruct s as [d t f u]; simpl.
    do 4 (split; [reflexivity|]). split.
    + intros _ _. repeat split.
    + intros [Hn|Hn]; congruence.
  - do 4 (split; [reflexivity|]). split.
    + intros _ [row Hn]; discriminate Hn.
    + intros _. repeat split.
Qed.

Lemma loadShipmentRequest_in_memory_witness :
  let s' := after (DocumentContext.loadShipmentRequest (lit "r1"))
                  Fixture.E_ok StoreFixture.session in
  trace s' = SelectShipmentRequest (lit "r1") :: trace StoreFixture.session
  /\ db s' = db StoreFixture.session
  /\ batches (ui s') = batches (ui StoreFixture.session)
  /\ isProcessing (ui s') = false
  /\ (select_error Fixture.E_ok (length (trace StoreFixture.session)) = None ->
      (exists row, stored (lit "r1") (db StoreFixture.session) = Some row) ->
      currentBatch (ui s') = Some Fixture.done_batch
      /\ currentDocument (ui s') = hd_error (files Fixture.done_batch)
      /\ error (ui s') = None)
  /\ (select_error Fixture.E_ok (length (trace StoreFixture.session)) <> None
      \/ stored (lit "r1") (db StoreFixture.session) = None ->
      currentBatch (ui s') = currentBatch (ui StoreFixture.session)
      /\ currentDocument (ui s') = currentDocument (ui StoreFixture.session)
      /\ error (ui s') = Some (lit "Failed to load shipment request")).
Proof.
  apply (loadShipmentRequest_in_memory
           (lit "r1") Fixture.E_ok StoreFixture.session Fixture.done_batch).
  reflexivity.
Defined.

(** C3 as stated fails: with the batch of [r1] in memory the call reads
    the record from the store all the same, and when that read fails the
    in-memory copy is not made current. *)
Lemma loadShipmentRequest_reads_the_store :
  in_memory (lit "r1") (ui StoreFixture.session) = Some Fixture.done_batch
  /\ trace (after (DocumentContext.loadShipmentRequest (lit "r1"))
                  Fixture.E_ok StoreFixture.session)
     = [SelectShipmentRequest (lit "r1")]
  /\ existsb is_read
       (trace (after (DocumentContext.loadShipmentRequest (lit "r1"))
                     Fixture.E_ok StoreFixture.session)) = true
  /\ ui (after (DocumentContext.loadShipmentRequest (lit "r1"))
               Fixture.E_offline StoreFixture.session)
     = {| batches := [Fixture.done_batch];
          currentBatch := None;
          currentDocument := None;
          isProcessing := false;
          error := Some (lit "Failed to load shipment request") |}.
Proof.
  repeat split; reflexivity.
Qed.

(** ** Batch status (C4) *)

Lemma updateBatchStatus_mirrors rid st E s :
  batches (ui (after (DocumentContext.updateBatchStatus rid st) E s))
  = map (mirror rid st) (batches (ui s)).
Proof.
  unfold after, DocumentContext.updateBatchStatus. unfold_world. simpl.
  destruct (currentBatch (ui s)) as [cb|]; simpl; [|reflexivity].
  destruct (DocumentContext.opt_eqb (shipmentRequestId cb) rid); reflexivity.
Qed.

Lemma updateDocumentData_keeps_status id data E s :
  map status (batches (ui (after (DocumentContext.updateDocumentData id data) E s)))
  = map status (batches (ui s))
  /\ option_map status
       (currentBatch (ui (after (DocumentContext.updateDocumentData id data) E s)))
     = option_map status (currentBatch (ui s)).
Proof.
  unfold after, DocumentContext.updateDocumentData. unfold_world. simpl.
  assert (Hmap : forall l, map status (map (DocumentContext.merge_batch id data) l)
                           = map status l).
  { intros l. rewrite map_map. apply map_ext. reflexivity. }
  destruct (currentBatch (ui s)) as [cb|]; simpl;
    destruct (currentDocument (ui s)) as [cd|]; simpl;
    try destruct (str_eqb (doc_id cd) id); simpl; rewrite Hmap; split; reflexivity.
Qed.

Lemma handleSubmitCompletion_completes hasErrors E s :
  batches (ui (after (DataTable.handleSubmitCompletion hasErrors) E s))
  = batches (ui s)
  \/ exists rid,
      batches (ui (after (DataTable.handleSubmitCompletion hasErrors) E s))
      = map (mirror rid DataTable.completed) (batches (ui s)).
Proof.
  unfold after, DataTable.handleSubmitCompletion. unfold_world. simpl.
  destruct (currentBatch (ui s)) as [[? ? ? ? ? ? ? [[|c r]|]]|] eqn:Hcb;
    try (left; reflexivity).
  destruct hasErrors; [left; reflexivity|].
  destruct (auth_getUser E (length (trace s))) as [[uid|] ?]; simpl;
    [|left; reflexivity].
  destruct (update_error E _); simpl; [left; reflexivity|].
  destruct (log_error E _); simpl;
    match goal with
    | |- context [DocumentContext.updateBatchStatus ?rid ?st ?E' ?s1] =>
        right; exists rid;
        pose proof (updateBatchStatus_mirrors rid st E' s1) as Hm;
        unfold after in Hm;
        destruct (DocumentContext.updateBatchStatus rid st E' s1) as [s2 [x|e]];
        simpl in *; exact Hm
    end.
Qed.

Lemma loadShipmentRequest_prepends id E s :
  exists added,
    batches (ui (after (DocumentContext.loadShipmentRequest id) E s))
    = added ++ batches (ui s).
Proof.
  unfold after, DocumentContext.loadShipmentRequest. unfold_world. simpl.
  destruct (select_error E (length (trace s))); simpl; [exists []; reflexivity|].
  destruct (find _ (shipment_requests (db s))); simpl; [|exists []; reflexivity].
  destruct (find _ (batches (ui s))); simpl;
    [exists []; reflexivity | eexists [_]; reflexivity].
Qed.

Lemma uploadDocuments_prepends files title description E s :
  exists added,
    batches (ui (after (DocumentContext.uploadDocuments files title description) E s))
    = added ++ batches (ui s).
Proof.
  destruct (uploadDocuments_returns files title description E s) as [_ Hout].
  destruct Hout as [_ Hui _ | ? ? _ _ Hui _ | ? ? ? ? _ _ _ Hui _
                   | ? ? ? ? _ _ _ _ Hui _ | ? ? ? nb ? _ _ _ _ Hui _ _ _ _ _];
    rewrite Hui; [exists [] | exists [] | exists [] | exists [] | exists [nb]];
    reflexivity.
Qed.

(** C4, as amended.  [updateDocumentData], with any arguments, changes
    the status of no batch, and [uploadDocuments] and
    [loadShipmentRequest] only add batches in front of those held.
    [updateBatchStatus] is an unguarded mirror: it gives the status it is
    passed to every batch of the record id it is passed, so it keeps a
    completed batch completed when the id is another one or the status
    passed is [completed].  The presentation layer offers completion only
    while the current batch is in [needs review], and its completion path
    passes no other status than [completed]. *)
Theorem completed_batch_transitions :
  (forall id data E s,
      map status (batches (ui (after (DocumentContext.updateDocumentData id data) E s)))
      = map status (batches (ui s))
      /\ option_map status
           (currentBatch (ui (after (DocumentContext.updateDocumentData id data) E s)))
         = option_map status (currentBatch (ui s)))
  /\ (forall files title description E s,
         exists added,
           batches (ui (after (DocumentContext.uploadDocuments files title description) E s))
           = added ++ batches (ui s))
  /\ (forall id E s,
         exists added,
           batches (ui (after (DocumentContext.loadShipmentRequest id) E s))
           = added ++ batches (ui s))
  /\ (forall rid st E s,
         batches (ui (after (DocumentContext.updateBatchStatus rid st) E s))
         = map (mirror rid st) (batches (ui s)))
  /\ (forall rid st b,
         status b = Some DataTable.completed ->
         DocumentContext.opt_eqb (shipmentRequestId b) rid = false
         \/ st = DataTable.completed ->
         status (mirror rid st b) = Some DataTable.completed)
  /\ (forall u hasErrors,
         DataTable.submit_rendered u hasErrors = true ->
         exists b, currentBatch u = Some b
                   /\ status b = Some DocumentContext.needs_review)
  /\ (forall hasErrors E s,
         batches (ui (after (DataTable.handleSubmitCompletion hasErrors) E s))
         = batches (ui s)
         \/ exists rid,
             batches (ui (after (DataTable.handleSubmitCompletion hasErrors) E s))
             = map (mirror rid DataTable.completed) (batches (ui s))).
Proof.
  split; [exact updateDocumentData_keeps_status|].
  split; [exact uploadDocuments_prepends|].
  split; [exact loadShipmentRequest_prepends|].
  split; [exact updateBatchStatus_mirrors|].
  split; [|split; [|exact handleSubmitCompletion_completes]].
  - intros rid st b Hb [Hid | ->]; unfold mirror.
    + now rewrite Hid.
    + destruct (DocumentContext.opt_eqb (shipmentRequestId b) rid);
        [reflexivity|exact Hb].
  - intros u hasErrors. unfold DataTable.submit_rendered, DataTable.currentDocument,
      DataTable.needsReview, DataTable.status_is.
    destruct (currentBatch u) as [b|]; [|discriminate].
    destruct (hd_error (files b)); [|discriminate].
    intros H. apply andb_true_iff in H as [H _]. apply andb_true_iff in H as [H _].
    exists b. split; [reflexivity|].
    unfold DocumentContext.opt_eqb in H.
    destruct (status b) as [st|]; [|discriminate].
    apply str_eqb_eq in H. now subst.
Qed.

(** C4 as stated fails: [updateBatchStatus] with the status [needs review]
    takes the completed batch of record [r1] back to [needs review]. *)
Lemma updateBatchStatus_reopens_completed :
  map status (batches (ui StoreFixture.reviewing)) = [Some (lit "completed")]
  /\ map status
       (batches (ui (after (DocumentContext.updateBatchStatus
                              (lit "r1") (lit "needs review"))
                           Fixture.E_ok StoreFixture.reviewing)))
     = [Some (lit "needs review")]
  /\ option_map status
       (currentBatch (ui (after (DocumentContext.updateBatchStatus
                                   (lit "r1") (lit "needs review"))
                                Fixture.E_ok StoreFixture.reviewing)))
     = Some (Some (lit "needs review")).
Proof.
  repeat split; reflexivity.
Qed.

(* ===================================================================== *)
(** * The gross weight (C6) *)
(* ===================================================================== *)

(** ** Whitespace *)

Lemma trimStart_app l1 l2 :
  trimStart (l1 ++ l2)
  = if forallb is_space l1 then trimStart l2 else trimStart l1 ++ l2.
Proof.
  induction l1 as [|c l1 IH]; simpl; [reflexivity|].
  destruct (is_space c); simpl; [exact IH|reflexivity].
Qed.

Lemma trimStart_all w : forallb is_space w = true -> trimStart w = [].
Proof.
  induction w as [|c w IH]; simpl; [reflexivity|].
  destruct (is_space c); simpl; [exact IH|discriminate].
Qed.

Lemma trimStart_split l :
  exists w, l = w ++ trimStart l /\ forallb is_space w = true.
Proof.
  induction l as [|c l IH]; simpl.
  - exists []. split; reflexivity.
  - destruct (is_space c) eqn:Hc.
    + destruct IH as (w & Hl & Hw). exists (c :: w). simpl.
      rewrite Hc, Hw. split; [now f_equal|reflexivity].
    + exists []. split; reflexivity.
Qed.

Lemma trimStart_head l x r : trimStart l = x :: r -> is_space x = false.
Proof.
  induction l as [|c l IH]; simpl; [discriminate|].
  destruct (is_space c) eqn:Hc; [exact IH|].
  intros H. injection H as <- _. exact Hc.
Qed.

Lemma trimStart_idem l : trimStart (trimStart l) = trimStart l.
Proof.
  destruct (trimStart l) as [|x r] eqn:H; [reflexivity|].
  simpl. now rewrite (trimStart_head _ _ _ H).
Qed.

Lemma trimEnd_idem l : trimEnd (trimEnd l) = trimEnd l.
Proof.
  unfold trimEnd. now rewrite rev_involutive, trimStart_idem.
Qed.

(** A letter, in either case, is not whitespace. *)
Lemma letter_not_space u c :
  (65 <= u <= 90)%N -> is_ci u c = true -> is_space c = false.
Proof.
  unfold is_ci, canonicalize. intros Hu H.
  assert (Hc : (65 <= c <= 122)%N).
  { destruct ((97 <=? c) && (c <=? 122))%N eqn:Hr.
    - apply andb_true_iff in Hr as [H1 H2].
      apply N.leb_le in H1, H2. lia.
    - apply N.eqb_eq in H. lia. }
  unfold is_space.
  repeat match goal with
         | |- context [(c =? ?b)%N] =>
             replace (c =? b)%N with false by (symmetry; apply N.eqb_neq; lia)
         end.
  replace (c <=? 13)%N with false by (symmetry; apply N.leb_gt; lia).
  replace (c <=? 8202)%N with true by (symmetry; apply N.leb_le; lia).
  replace (8192 <=? c)%N with false by (symmetry; apply N.leb_gt; lia).
  now rewrite andb_false_r.
Qed.

(** ** The pattern *)

Lemma tail_ws i s :
  m (Seq (StarC is_space) Eol) k0 i s
  = if forallb is_space s then Some (i + length s) else None.
Proof.
  cbn [m]. revert i; induction s as [|c s IH]; intros i; cbn [star forallb length].
  - now rewrite Nat.add_0_r.
  - destruct (is_space c); cbn [andb]; [|reflexivity].
    rewrite IH. destruct (forallb is_space s); [|reflexivity].
    f_equal. lia.
Qed.

Lemma star_skip (k : cont) :
  (forall i c s, is_space c = true -> k i (c :: s) = None) ->
  forall s i,
    star is_space k i s
    = k (i + (length s - length (trimStart s))) (trimStart s).
Proof.
  intros Hk s. induction s as [|c s IH]; intros i; cbn [star trimStart length].
  - now rewrite Nat.add_0_r.
  - destruct (is_space c) eqn:Hc.
    + rewrite IH.
      destruct (trimStart_split s) as (w & Hs & _).
      assert (Hlen : length (trimStart s) <= length s)
        by (rewrite Hs at 2; rewrite length_app; lia).
      replace (i + (S (length s) - length (trimStart s)))
        with (S i + (length s - length (trimStart s))) by lia.
      destruct (k _ (trimStart s)) eqn:Hks; [reflexivity|].
      now apply Hk.
    + cbn [length]. now rewrite Nat.sub_diag, Nat.add_0_r.
Qed.

Lemma unit_ws_space c s : is_space c = true -> unit_ws (c :: s) = false.
Proof.
  intros Hc. unfold unit_ws.
  assert (H : forall u, (65 <= u <= 90)%N -> is_ci u c = false).
  { intros u Hu. destruct (is_ci u c) eqn:E; [|reflexivity].
    rewrite (letter_not_space u c Hu E) in Hc. discriminate. }
  rewrite !H by lia. reflexivity.
Qed.

(** The alternation of the units followed by [\s*$]. *)
Lemma units_then_tail i r :
  m (Seq (alts [ str_i (lit "kg"); str_i (lit "KG"); str_i (lit "lbs");
                 str_i (lit "LBS"); str_i (lit "g"); str_i (lit "G") ])
         (Seq (StarC is_space) Eol)) k0 i r
  = if unit_ws r then Some (i + length r) else None.
Proof.
  change (m (Seq ?a ?b) k0 i r) with (m a (m b k0) i r).
  set (k := m (Seq (StarC is_space) Eol) k0).
  assert (Hk : forall j x, k j x = if forallb is_space x then Some (j + length x) else None)
    by (intros; apply tail_ws).
  clearbody k.
  change (lit "kg") with [107; 103]%N. change (lit "KG") with [75; 71]%N.
  change (lit "lbs") with [108; 98; 115]%N. change (lit "LBS") with [76; 66; 83]%N.
  change (lit "g") with [103]%N. change (lit "G") with [71]%N.
  cbn [alts str_i]. unfold chr_i.
  change (canonicalize 107) with 75%N. change (canonicalize 103) with 71%N.
  change (canonicalize 108) with 76%N. change (canonicalize 98) with 66%N.
  change (canonicalize 115) with 83%N. change (canonicalize 75) with 75%N.
  change (canonicalize 71) with 71%N. change (canonicalize 76) with 76%N.
  change (canonicalize 66) with 66%N. change (canonicalize 83) with 83%N.
  unfold unit_ws, is_ci.
  destruct r as [|c1 [|c2 [|c3 r3]]]; cbn [m length forallb]; rewrite ?Hk;
    cbn [forallb length];
    repeat match goal with
           | |- context [(canonicalize ?c =? ?u)%N] =>
               destruct (canonicalize c =? u)%N
           end;
    repeat match goal with
           | |- context [is_space ?c] => destruct (is_space c)
           end;
    try destruct (forallb is_space r3);
    cbn [andb orb]; try reflexivity; f_equal; lia.
Qed.

Lemma m_unit_suffix i s :
  m Api.unit_suffix k0 i s = if umatch s then Some (i + length s) else None.
Proof.
  unfold Api.unit_suffix. cbn [seqs].
  change (m (Seq (StarC is_space) ?b) k0 i s) with (star is_space (m b k0) i s).
  rewrite star_skip.
  - rewrite units_then_tail. unfold umatch.
    destruct (unit_ws (trimStart s)); [|reflexivity].
    destruct (trimStart_split s) as (w & Hs & _).
    assert (length (trimStart s) <= length s)
      by (rewrite Hs at 2; rewrite length_app; lia).
    f_equal. lia.
  - intros j c x Hc. rewrite units_then_tail. now rewrite unit_ws_space.
Qed.

Lemma search_cut s i :
  search Api.unit_suffix i s
  = if has_match s then Some (i + length (cut s), i + length s) else None.
Proof.
  revert i; induction s as [|c s IH]; intros i; cbn [search has_match cut];
    fold k0; rewrite m_unit_suffix.
  - destruct (umatch []); cbn [orb length]; [|reflexivity].
    now rewrite Nat.add_0_r.
  - destruct (umatch (c :: s)); cbn [orb length].
    + now rewrite Nat.add_0_r.
    + rewrite IH. destruct (has_match s); [|reflexivity].
      do 2 f_equal; lia.
Qed.

Lemma cut_prefix s : firstn (length (cut s)) s = cut s.
Proof.
  induction s as [|c s IH]; cbn [cut].
  - now destruct (umatch []).
  - destruct (umatch (c :: s)); [reflexivity|].
    cbn [length firstn]. now rewrite IH.
Qed.

Lemma cut_without_match s : has_match s = false -> cut s = s.
Proof.
  induction s as [|c s IH]; cbn [cut has_match]; intros H;
    apply orb_false_iff in H as [-> H]; [reflexivity|].
  now rewrite IH.
Qed.

(** [replace] with the unit pattern removes the first matching suffix. *)
Lemma replace_cut s : replace Api.unit_suffix s [] = cut s.
Proof.
  unfold replace, exec. rewrite search_cut.
  destruct (has_match s) eqn:H.
  - cbn [Nat.add app]. now rewrite skipn_all, app_nil_r, cut_prefix.
  - symmetry. now apply cut_without_match.
Qed.

(** ** The match, seen from the end of the string *)

Lemma forallb_rev {A} (f : A -> bool) l : forallb f (rev l) = forallb f l.
Proof.
  induction l as [|a l IH]; simpl; [reflexivity|].
  rewrite forallb_app, IH. simpl. rewrite andb_true_r. apply andb_comm.
Qed.

Lemma is_ci_other u v c : is_ci u c = true -> u <> v -> is_ci v c = false.
Proof.
  unfold is_ci. intros H Hne. apply N.eqb_eq in H. apply N.eqb_neq. congruence.
Qed.

Lemma unitr_head ru : unitr ru -> exists c r, ru = c :: r /\ is_space c = false.
Proof.
  intros [g k Hg Hk | s b l Hs Hb Hl | g Hg]; eexists _, _; (split; [reflexivity|]);
    eapply letter_not_space; try eassumption; lia.
Qed.

Lemma unitr_rev_head ru : unitr ru -> exists c r, rev ru = c :: r /\ is_space c = false.
Proof.
  intros [g k Hg Hk | s b l Hs Hb Hl | g Hg]; simpl; eexists _, _;
    (split; [reflexivity|]); eapply letter_not_space; try eassumption; lia.
Qed.

Lemma unit_ws_iff y :
  unit_ws y = true
  <-> exists ru w, y = rev ru ++ w /\ unitr ru /\ forallb is_space w = true.
Proof.
  unfold unit_ws. split.
  - destruct y as [|c1 r1]; [discriminate|]. intros H.
    apply orb_true_iff in H as [H|H]; [apply orb_true_iff in H as [H|H]|].
    + apply andb_true_iff in H as [H1 H]. destruct r1 as [|c2 r2]; [discriminate|].
      apply andb_true_iff in H as [H2 H]. exists [c2; c1], r2.
      repeat split; [now constructor|exact H].
    + apply andb_true_iff in H as [H1 H].
      destruct r1 as [|c2 [|c3 r3]]; try discriminate.
      apply andb_true_iff in H as [H H3]. apply andb_true_iff in H as [H2 H3'].
      exists [c3; c2; c1], r3. repeat split; [now constructor|exact H3].
    + apply andb_true_iff in H as [H1 H]. exists [c1], r1.
      repeat split; [now constructor|exact H].
  - intros (ru & w & -> & Hu & Hw).
    destruct Hu as [g k Hg Hk | s b l Hs Hb Hl | g Hg]; simpl;
      rewrite ?Hg, ?Hk, ?Hs, ?Hb, ?Hl, ?Hw; simpl;
      rewrite ?orb_true_r; reflexivity.
Qed.

Lemma unit_wsr_iff a :
  unit_wsr a = true
  <-> exists ru w, a = ru ++ w /\ unitr ru /\ forallb is_space w = true.
Proof.
  unfold unit_wsr. split.
  - destruct a as [|c1 r1]; [discriminate|]. intros H.
    apply orb_true_iff in H as [H|H]; [apply orb_true_iff in H as [H|H]|].
    + apply andb_true_iff in H as [H1 H]. destruct r1 as [|c2 r2]; [discriminate|].
      apply andb_true_iff in H as [H2 H]. exists [c1; c2], r2.
      repeat split; [now constructor|exact H].
    + apply andb_true_iff in H as [H1 H].
      destruct r1 as [|c2 [|c3 r3]]; try discriminate.
      apply andb_true_iff in H as [H H3]. apply andb_true_iff in H as [H2 H3'].
      exists [c1; c2; c3], r3. repeat split; [now constructor|exact H3].
    + apply andb_true_iff in H as [H1 H]. exists [c1], r1.
      repeat split; [now constructor|exact H].
  - intros (ru & w & -> & Hu & Hw).
    destruct Hu as [g k Hg Hk | s b l Hs Hb Hl | g Hg]; simpl;
      rewrite ?Hg, ?Hk, ?Hs, ?Hb, ?Hl, ?Hw; simpl;
      rewrite ?orb_true_r; reflexivity.
Qed.

(** A string is a match when it is whitespace, a unit and whitespace. *)
Lemma umatch_iff x :
  umatch x = true
  <-> exists w1 ru w2,
      x = w1 ++ rev ru ++ w2
      /\ forallb is_space w1 = true /\ unitr ru /\ forallb is_space w2 = true.
Proof.
  unfold umatch. rewrite unit_ws_iff. split.
  - intros (ru & w2 & Hy & Hu & Hw2).
    destruct (trimStart_split x) as (w1 & Hx & Hw1).
    exists w1, ru, w2. rewrite Hy in Hx. auto.
  - intros (w1 & ru & w2 & -> & Hw1 & Hu & Hw2).
    exists ru, w2. repeat split; try assumption.
    rewrite trimStart_app, Hw1.
    destruct (unitr_rev_head ru Hu) as (c & r & -> & Hc).
    simpl. now rewrite Hc.
Qed.

Lemma umatch_rev x : umatch x = unit_wsr (trimStart (rev x)).
Proof.
  apply eq_true_iff_eq. rewrite umatch_iff, unit_wsr_iff. split.
  - intros (w1 & ru & w2 & -> & Hw1 & Hu & Hw2).
    exists ru, (rev w1). repeat split; try assumption; [|now rewrite forallb_rev].
    rewrite !rev_app_distr, rev_involutive, <- app_assoc.
    rewrite trimStart_app, forallb_rev, Hw2.
    destruct (unitr_head ru Hu) as (c & r & -> & Hc).
    simpl. now rewrite Hc.
  - intros (ru & w & Ha & Hu & Hw).
    destruct (trimStart_split (rev x)) as (wa & Hx & Hwa).
    rewrite Ha in Hx. apply (f_equal (@rev N)) in Hx.
    rewrite rev_involutive, !rev_app_distr in Hx.
    exists (rev w), ru, (rev wa). rewrite !forallb_rev.
    repeat split; try assumption. now rewrite Hx, app_assoc.
Qed.

Lemma has_match_false s :
  (forall p x, s = p ++ x -> umatch x = false) -> has_match s = false.
Proof.
  induction s as [|c s IH]; intros H; cbn [has_match].
  - now rewrite (H [] [] eq_refl).
  - rewrite (H [] (c :: s) eq_refl). cbn [orb].
    apply IH. intros p x ->. apply (H (c :: p) x). reflexivity.
Qed.

Lemma cut_app pre suf :
  umatch suf = true ->
  (forall p1 p2, pre = p1 ++ p2 -> p2 <> [] -> umatch (p2 ++ suf) = false) ->
  cut (pre ++ suf) = pre.
Proof.
  intros Hsuf. induction pre as [|c pre IH]; intros H.
  - cbn [app]. destruct suf; cbn [cut]; now rewrite Hsuf.
  - assert (Hc : umatch ((c :: pre) ++ suf) = false)
      by (apply (H [] (c :: pre) eq_refl); discriminate).
    cbn [app cut] in *. rewrite Hc.
    f_equal. apply IH. intros p1 p2 -> Hp2. apply (H (c :: p1) p2); auto.
Qed.

Lemma unit_wsr_unit_off a l : unit_wsr a = true -> unit_off (a ++ l) <> None.
Proof.
  rewrite unit_wsr_iff. intros (ru & w & -> & Hu & _).
  unfold unit_off, ends_kg, ends_lbs, ends_g.
  destruct Hu as [g k Hg Hk | s b l' Hs Hb Hl | g Hg]; simpl.
  - rewrite Hg, Hk. discriminate.
  - rewrite Hs, Hb, Hl. simpl. destruct (is_ci 71 s && is_ci 75 b); discriminate.
  - rewrite Hg. destruct (w ++ l) as [|c1 [|c2 r]]; simpl;
      repeat match goal with |- context [if ?b then _ else _] => destruct b end;
      discriminate.
Qed.

(** The unit that [unit_off] removes is the longest one: no prefix of the
    reversed string that reaches past it, through whitespace, to a
    non-blank character is a match. *)
Lemma unit_off_longest a b wb x q rest :
  unit_off a = Some b ->
  b = wb ++ x :: q ++ rest ->
  forallb is_space wb = true ->
  is_space x = false ->
  exists ru,
    a = ru ++ b /\ unitr ru /\ unit_wsr (ru ++ wb ++ x :: q) = false.
Proof.
  intros Hoff Hb Hwb Hx.
  assert (Hall : forallb is_space (wb ++ x :: q) = false).
  { rewrite forallb_app. simpl. rewrite Hx. simpl. apply andb_false_r. }
  unfold unit_off in Hoff.
  destruct (ends_kg a) eqn:Hkg; [|destruct (ends_lbs a) eqn:Hlbs;
                                   [|destruct (ends_g a) eqn:Hg]];
    try discriminate; injection Hoff as Hoff.
  - destruct a as [|g [|k a2]]; try discriminate. simpl in Hoff, Hkg. subst a2.
    apply andb_true_iff in Hkg as [Hg Hk].
    exists [g; k]. repeat split; [now constructor|].
    simpl. rewrite Hall, (is_ci_other 71 83 g Hg) by lia.
    rewrite (letter_not_space 75 k) by (lia || assumption).
    simpl. now rewrite !andb_false_r.
  - destruct a as [|s [|c [|l a3]]]; try discriminate. simpl in Hoff, Hlbs. subst a3.
    apply andb_true_iff in Hlbs as [Hs Hl]. apply andb_true_iff in Hs as [Hs Hc].
    exists [s; c; l]. repeat split; [now constructor|].
    simpl. rewrite Hall, (is_ci_other 83 71 s Hs) by lia.
    simpl. now rewrite !andb_false_r.
  - destruct a as [|g a1]; try discriminate. simpl in Hoff, Hg. subst a1.
    exists [g]. repeat split; [now constructor|].
    simpl. rewrite Hall, (is_ci_other 71 83 g Hg) by lia. rewrite Hg.
    simpl. rewrite ?andb_false_r, ?orb_false_r.
    destruct wb as [|w wb]; simpl.
    + rewrite Hb in Hkg. simpl in Hkg. rewrite Hg in Hkg. simpl in Hkg.
      now rewrite Hkg.
    + simpl in Hwb. apply andb_true_iff in Hwb as [Hw _].
      destruct (is_ci 75 w) eqn:E; [|reflexivity].
      rewrite (letter_not_space 75 w) in Hw by (lia || assumption). discriminate.
Qed.

(** What [replace] leaves, read off the reversed string. *)
Lemma cut_rev s :
  cut s = match unit_off (trimStart (rev s)) with
          | Some b => rev (trimStart b)
          | None => s
          end.
Proof.
  destruct (trimStart_split (rev s)) as (wa & Hs & Hwa).
  destruct (unit_off (trimStart (rev s))) as [b|] eqn:Hoff.
  - destruct (trimStart_split b) as (wb & Hb & Hwb).
    assert (Hru : exists ru, trimStart (rev s) = ru ++ b /\ unitr ru).
    { unfold unit_off in Hoff.
      destruct (ends_kg _) eqn:Hkg; [|destruct (ends_lbs _) eqn:Hlbs;
                                       [|destruct (ends_g _) eqn:Hg]];
        try discriminate; injection Hoff as Hoff.
      - destruct (trimStart (rev s)) as [|g [|k a2]]; try discriminate.
        simpl in Hoff, Hkg. apply andb_true_iff in Hkg as [? ?].
        exists [g; k]. subst. split; [reflexivity|now constructor].
      - destruct (trimStart (rev s)) as [|c1 [|c2 [|c3 a3]]]; try discriminate.
        simpl in Hoff, Hlbs. apply andb_true_iff in Hlbs as [H ?].
        apply andb_true_iff in H as [? ?].
        exists [c1; c2; c3]. subst. split; [reflexivity|now constructor].
      - destruct (trimStart (rev s)) as [|g a1]; try discriminate.
        simpl in Hoff, Hg. exists [g]. subst. split; [reflexivity|now constructor]. }
    destruct Hru as (ru & Ha & Hu).
    assert (Hsplit : s = rev (trimStart b) ++ rev (wa ++ ru ++ wb)).
    { rewrite <- rev_app_distr, <- !app_assoc, <- Hb, <- Ha, <- Hs.
      now rewrite rev_involutive. }
    assert (Hkeep : forall l, trimStart (wa ++ ru ++ l) = ru ++ l).
    { intros l. rewrite trimStart_app, Hwa.
      destruct (unitr_head ru Hu) as (c & r & -> & Hc). simpl. now rewrite Hc. }
    rewrite Hsplit at 1. apply cut_app.
    + rewrite umatch_rev, rev_involutive, Hkeep.
      apply unit_wsr_iff. exists ru, wb. auto.
    + intros p1 p2 Hp Hp2.
      apply (f_equal (@rev N)) in Hp. rewrite rev_involutive, rev_app_distr in Hp.
      destruct (rev p2) as [|x q] eqn:Hq.
      { apply (f_equal (@rev N)) in Hq. rewrite rev_involutive in Hq. contradiction. }
      assert (Hx : is_space x = false) by (eapply trimStart_head; exact Hp).
      rewrite umatch_rev, rev_app_distr, rev_involutive, Hq, <- !app_assoc, Hkeep.
      destruct (unit_off_longest (trimStart (rev s)) b wb x q (rev p1) Hoff)
        as (ru' & Ha' & Hu' & Hno); auto.
      { rewrite Hb at 1. now rewrite Hp. }
      assert (ru' = ru) as -> by (rewrite Ha in Ha'; now apply app_inv_tail in Ha').
      exact Hno.
  - apply cut_without_match, has_match_false. intros p x Hpx.
    rewrite umatch_rev.
    apply (f_equal (@rev N)) in Hpx. rewrite rev_app_distr in Hpx.
    rewrite Hpx, trimStart_app in Hoff.
    destruct (forallb is_space (rev x)) eqn:Hall.
    + now rewrite trimStart_all.
    + destruct (unit_wsr (trimStart (rev x))) eqn:E; [|reflexivity].
      exfalso. now apply (unit_wsr_unit_off _ (rev p) E).
Qed.

(** ** The specification's wording, seen from the end of the string *)

Lemma str_eqb_rev a b : str_eqb (rev a) (rev b) = str_eqb a b.
Proof.
  apply eq_true_iff_eq. rewrite !str_eqb_eq. split; [apply rev_inj|now intros ->].
Qed.

Lemma endsWith_rev x u :
  endsWith x u = str_eqb (firstn (length u) (rev x)) (rev u).
Proof.
  unfold endsWith. destruct (Nat.leb_spec (length u) (length x)) as [Hle|Hgt].
  - cbn [andb]. now rewrite firstn_rev, str_eqb_rev.
  - cbn [andb]. symmetry. apply not_true_iff_false. intros H.
    apply str_eqb_eq in H. apply (f_equal (@length N)) in H.
    rewrite firstn_all2, !length_rev in H by (rewrite length_rev; lia). lia.
Qed.

Lemma ends_with_kg t : ends_with_i t (lit "kg") = ends_kg (rev t).
Proof.
  unfold ends_with_i. rewrite endsWith_rev, <- map_rev.
  change (map canonicalize (lit "kg")) with [75; 71]%N.
  destruct (rev t) as [|g [|k a]]; cbn; unfold is_ci;
    rewrite ?andb_true_r, ?andb_false_r; reflexivity.
Qed.

Lemma ends_with_lbs t : ends_with_i t (lit "lbs") = ends_lbs (rev t).
Proof.
  unfold ends_with_i. rewrite endsWith_rev, <- map_rev.
  change (map canonicalize (lit "lbs")) with [76; 66; 83]%N.
  destruct (rev t) as [|s [|b [|l a]]]; cbn; unfold is_ci;
    rewrite ?andb_true_r, ?andb_false_r, ?andb_assoc; reflexivity.
Qed.

Lemma ends_with_g t : ends_with_i t (lit "g") = ends_g (rev t).
Proof.
  unfold ends_with_i. rewrite endsWith_rev, <- map_rev.
  change (map canonicalize (lit "g")) with [71]%N.
  destruct (rev t) as [|g a]; cbn; unfold is_ci;
    rewrite ?andb_true_r; reflexivity.
Qed.

Lemma without_last_rev n t : without_last n t = rev (skipn n (rev t)).
Proof.
  unfold without_last. now rewrite skipn_rev, rev_involutive.
Qed.

Lemma strip_unit_rev t :
  strip_unit t = match unit_off (rev t) with
                 | Some b => rev b
                 | None => t
                 end.
Proof.
  unfold strip_unit, unit_off.
  rewrite ends_with_kg, ends_with_lbs, ends_with_g, !without_last_rev.
  destruct (ends_kg (rev t)); [reflexivity|].
  destruct (ends_lbs (rev t)); [reflexivity|].
  destruct (ends_g (rev t)); reflexivity.
Qed.

(** The regular expression and the wording agree on every string. *)
Lemma trim_replace_normalized s :
  trim (replace Api.unit_suffix s []) = normalized_weight s.
Proof.
  rewrite replace_cut, cut_rev. unfold normalized_weight.
  rewrite strip_unit_rev.
  replace (rev (trimEnd s)) with (trimStart (rev s))
    by (unfold trimEnd; now rewrite rev_involutive).
  destruct (unit_off (trimStart (rev s))) as [b|].
  - unfold trim, trimEnd. now rewrite !rev_involutive, trimStart_idem.
  - unfold trim. now rewrite trimEnd_idem.
Qed.

Lemma cleanNumericValue_string s :
  Api.cleanNumericValue (VString s) = Normal (normalized_weight s).
Proof.
  unfold Api.cleanNumericValue. destruct s as [|c s]; [reflexivity|].
  cbn [truthy str_eqb negb toString_method ToString].
  now rewrite trim_replace_normalized.
Qed.

(** C6.  The gross weight of every extraction response is stored with
    its trailing whitespace, one trailing unit ("kg", "lbs" or "g" in any
    letter case) and the whitespace around what is left removed, a number
    being taken in its decimal rendering; ["162.37 KG"] is stored as
    ["162.37"]. *)
Theorem gross_weight_normalized :
  (forall s : jsstring,
      Api.cleanNumericValue (VString s) = Normal (normalized_weight s))
  /\ (forall repr : jsstring,
         truthy (VNumber repr) = true ->
         Api.cleanNumericValue (VNumber repr) = Normal (normalized_weight repr))
  /\ (forall files E s response props v,
         answer E s files = Normal response ->
         ok response = true ->
         http_json response = Normal (VObject props) ->
         field props (lit "average_gross_weight") = VString v ->
         exists d,
           result (Api.processDocument files) E s = Normal (succeeded d)
           /\ averageGrossWeight d = VString (normalized_weight v))
  /\ Api.cleanNumericValue (VString (lit "162.37 KG")) = Normal (lit "162.37")
  /\ normalized_weight (lit "  12.5 lbs ") = lit "12.5"
  /\ normalized_weight (lit "0.75g") = lit "0.75".
Proof.
  split; [exact cleanNumericValue_string|].
  split.
  { intros repr Hr. unfold Api.cleanNumericValue. rewrite Hr.
    cbn [negb toString_method ToString]. now rewrite trim_replace_normalized. }
  split; [|repeat split; reflexivity].
  intros files E s response props v H1 H2 H3 Hv.
  exists (mapped props (normalized_weight v)). split; [|reflexivity].
  unfold result. rewrite (processDocument_ok files E s response props
                            (normalized_weight v) H1 H2 H3); [reflexivity|].
  rewrite Hv. apply cleanNumericValue_string.
Qed.

Lemma gross_weight_normalized_witness :
  exists d,
    result (Api.processDocument [Fixture.inv_pdf]) Fixture.E_ok Fixture.start
    = Normal (succeeded d)
    /\ averageGrossWeight d = VString (normalized_weight (lit "162.37 KG")).
Proof.
  apply (proj1 (proj2 (proj2 gross_weight_normalized))
           [Fixture.inv_pdf] Fixture.E_ok Fixture.start
           {| http_status := 200; http_json := Normal Fixture.extraction_body |}
           _ (lit "162.37 KG") eq_refl eq_refl eq_refl eq_refl).
Defined.

(* ===================================================================== *)
(** * The other field rules *)
(* ===================================================================== *)

(** A greedy run of a class that must reach the end of the input. *)
Lemma star_to_end p i s :
  star p (m Eol (fun e _ => Some e)) i s
  = if forallb p s then Some (i + length s) else None.
Proof.
  revert i; induction s as [|c s IH]; intros i; simpl.
  - f_equal. lia.
  - destruct (p c); simpl; [|reflexivity].
    rewrite IH. destruct (forallb p s); [f_equal; lia | reflexivity].
Qed.

(** [/^[class]+$/] accepts the non-empty strings over the class. *)
Lemma test_plus_class p s :
  test (seqs [Bol; plusC p; Eol]) s = nonempty s && forallb p s.
Proof.
  cbn [seqs]. rewrite test_anchored. unfold plusC. cbn [m].
  destruct s as [|c s]; [reflexivity|].
  cbn [nonempty forallb andb]. destruct (p c); [|reflexivity].
  change (fun (i : nat) (s0 : jsstring) => match s0 with
                                            | [] => Some i
                                            | _ :: _ => None
                                            end)
    with (m Eol (fun e _ => Some e)).
  rewrite star_to_end. now destruct (forallb p s).
Qed.

Lemma alnum_under_i x :
  in_range 65 90 (canonicalize x) || in_range 48 57 (canonicalize x) = is_alnum x.
Proof.
  unfold is_alnum, is_letter, is_digit, in_range, canonicalize.
  destruct (N.leb_spec 97 x), (N.leb_spec x 122); cbn [andb];
    repeat match goal with
           | |- context [(?a <=? ?b)%N] => destruct (N.leb_spec a b)
           end; cbn [andb orb]; try reflexivity; lia.
Qed.

Lemma forallb_ext_eq {A} (f g : A -> bool) l :
  (forall x, f x = g x) -> forallb f l = forallb g l.
Proof. intros H; induction l; simpl; [reflexivity | now rewrite H, IHl]. Qed.

(** X1.  The bill-of-lading rule accepts a string exactly when it has 5
    to 50 characters, each an ASCII letter of either case or a digit. *)
Theorem billOfLadingNumber_rule (s : jsstring) :
  accepts billOfLadingNumber_schema (VString s) = true
  <-> (5 <= length s <= 50)%nat /\ forallb is_alnum s = true.
Proof.
  rewrite accepts_all_checks. unfold billOfLadingNumber_schema, billOfLadingNumber_pattern.
  cbn [forallb check_passes]. rewrite test_plus_class.
  rewrite (forallb_ext_eq _ is_alnum s alnum_under_i).
  rewrite !andb_true_iff, !Nat.leb_le. split.
  - intros (H5 & H50 & (_ & Hall) & _). auto.
  - intros ((H5 & H50) & Hall). repeat split; auto.
    destruct s; [simpl in H5; lia | reflexivity].
Qed.

Lemma name_class x :
  in_range 97 122 x || in_range 65 90 x || in_range 48 57 x
  || is_space x || N.eqb x 45 || N.eqb x 46 = is_name_char x.
Proof.
  unfold is_name_char, is_letter, is_digit.
  now rewrite (orb_comm (in_range 97 122 x)).
Qed.

(** X2.  The consignee-name rule accepts a string exactly when it has 2
    to 200 characters, each an ASCII letter, a digit, whitespace, a hyphen
    or a period; so a name with any other character, a comma or an
    accented letter for one, is rejected whatever else it holds. *)
Theorem consigneeName_rule (s : jsstring) :
  (accepts consigneeName_schema (VString s) = true
   <-> (2 <= length s <= 200)%nat /\ forallb is_name_char s = true)
  /\ (forall c, In c s -> is_name_char c = false ->
                accepts consigneeName_schema (VString s) = false).
Proof.
  assert (Hrule : accepts consigneeName_schema (VString s) = true
                  <-> (2 <= length s <= 200)%nat /\ forallb is_name_char s = true).
  { rewrite accepts_all_checks. unfold consigneeName_schema, consigneeName_pattern.
    cbn [forallb check_passes]. rewrite test_plus_class.
    rewrite (forallb_ext_eq _ is_name_char s name_class).
    rewrite !andb_true_iff, !Nat.leb_le. split.
    - intros (H5 & H50 & (_ & Hall) & _). auto.
    - intros ((H5 & H50) & Hall). repeat split; auto.
      destruct s; [simpl in H5; lia | reflexivity]. }
  split; [exact Hrule|].
  intros c Hin Hc.
  apply not_true_is_false. intros Hacc. apply Hrule in Hacc. destruct Hacc as [_ Hall].
  rewrite forallb_forall in Hall. rewrite (Hall c Hin) in Hc. discriminate.
Qed.

Lemma digits_value_numeral s acc :
  forallb is_digit s = true ->
  digits_value acc s = fold_left (fun a c => 10 * a + (c - 48))%N s acc.
Proof.
  revert acc; induction s as [|c s IH]; intros acc H; simpl in *; [reflexivity|].
  apply andb_true_iff in H. destruct H as [Hc Hs]. rewrite Hc. now apply IH.
Qed.

Lemma digit_not_space c : is_digit c = true -> is_space c = false.
Proof.
  unfold is_digit, in_range. intros H. apply andb_true_iff in H.
  destruct H as [H1 H2]. apply N.leb_le in H1, H2. unfold is_space.
  repeat match goal with
         | |- context [(?a <=? ?b)%N] =>
             first [ replace (a <=? b)%N with false
                       by (symmetry; apply N.leb_gt; lia)
                   | replace (a <=? b)%N with true
                       by (symmetry; apply N.leb_le; lia) ]
         | |- context [(?a =? ?b)%N] =>
             replace (a =? b)%N with false by (symmetry; apply N.eqb_neq; lia)
         end.
  reflexivity.
Qed.

(** [parseInt] of a non-empty string of digits is the number it denotes. *)
Lemma parseInt10_digits s :
  nonempty s = true -> forallb is_digit s = true ->
  parseInt10 s = Some (Z.of_N (numeral s)).
Proof.
  intros Hne Hall. destruct s as [|c s]; [discriminate|].
  pose proof Hall as Hall'. cbn [forallb] in Hall. apply andb_true_iff in Hall.
  destruct Hall as [Hc Hs].
  unfold parseInt10. cbn [trimStart]. rewrite (digit_not_space c Hc).
  cbv zeta.
  match goal with
  | |- context [snd ?x] => assert (Hsign : x = (false, c :: s))
  end.
  { unfold is_digit, in_range in Hc. apply andb_true_iff in Hc.
    destruct Hc as [H1 H2]. apply N.leb_le in H1. apply N.leb_le in H2.
    destruct c as [|p]; [reflexivity|].
    do 6 (destruct p as [p|p|]; try reflexivity); exfalso; lia. }
  rewrite Hsign. cbn [fst snd]. rewrite Hc.
  rewrite (digits_value_numeral (c :: s) 0 Hall'). reflexivity.
Qed.

Lemma numeral_zeros n s : numeral (zeros n ++ s) = numeral s.
Proof.
  unfold numeral, zeros. rewrite fold_left_app.
  replace (fold_left (fun acc c : N => (10 * acc + (c - 48))%N) (repeat 48%N n) 0%N)
    with 0%N; [reflexivity|].
  induction n as [|n IH]; simpl; [reflexivity | exact IH].
Qed.

Lemma lineItemsCount_accepts s :
  accepts lineItemsCount_schema (VString s) = true
  <-> nonempty s = true /\ forallb is_digit s = true
      /\ (1 <= numeral s <= 10000)%N.
Proof.
  rewrite accepts_all_checks. unfold lineItemsCount_schema, lineItemsCount_pattern.
  cbn [forallb check_passes]. rewrite test_plus_class.
  rewrite !andb_true_iff. split.
  - intros (_ & (Hne & Hall) & Hr & _). repeat split; auto;
      cbv zeta in Hr; rewrite (parseInt10_digits s Hne Hall) in Hr;
      unfold int_between in Hr; apply andb_true_iff in Hr;
      destruct Hr as [H1 H2]; apply Z.leb_le in H1, H2; lia.
  - intros (Hne & Hall & H1 & H2). repeat split; auto.
    + destruct s; [discriminate | reflexivity].
    + cbv zeta. rewrite (parseInt10_digits s Hne Hall). unfold int_between.
      apply andb_true_iff. split; apply Z.leb_le; lia.
Qed.

(** X3.  The line-items rule accepts a string exactly when it is a
    non-empty run of decimal digits that denotes a number from 1 to
    10000; leading zeros do not count, so the rule bounds the number and
    not the length of the string. *)
Theorem lineItemsCount_rule (s : jsstring) :
  (accepts lineItemsCount_schema (VString s) = true
   <-> nonempty s = true /\ forallb is_digit s = true
       /\ (1 <= numeral s <= 10000)%N)
  /\ (forall n, accepts lineItemsCount_schema (VString s) = true ->
                accepts lineItemsCount_schema (VString (zeros n ++ s)) = true).
Proof.
  split; [apply lineItemsCount_accepts|].
  intros n H. apply lineItemsCount_accepts in H. destruct H as (Hne & Hall & Hr).
  apply lineItemsCount_accepts. rewrite numeral_zeros. repeat split; try tauto.
  - destruct n; simpl; [exact Hne | reflexivity].
  - rewrite forallb_app, Hall, andb_true_r. unfold zeros.
    induction n; simpl; auto.
Qed.

Lemma fraction_k_spec i t : is_some (fraction_k i t) = fraction t.
Proof.
  unfold fraction_k, opt, plusC. cbn [seqs m].
  destruct t as [|c t]; [reflexivity|].
  cbn [fraction]. rewrite (N.eqb_sym 46 c).
  destruct (N.eqb c 46); cbn [andb]; [|reflexivity].
  destruct t as [|c' t]; [reflexivity|].
  cbn [nonempty forallb andb]. destruct (is_digit c'); [|reflexivity].
  change (fun (i0 : nat) (s0 : jsstring) => match s0 with
                                            | [] => Some i0
                                            | _ :: _ => None
                                            end)
    with (m Eol (fun e _ => Some e)).
  rewrite star_to_end. now destruct (forallb is_digit t).
Qed.

Lemma digit_not_period c : is_digit c = true -> N.eqb c 46 = false.
Proof.
  unfold is_digit, in_range. intros H. apply andb_true_iff in H.
  destruct H as [H _]. apply N.leb_le in H. apply N.eqb_neq. lia.
Qed.

Lemma star_fraction i s : is_some (star is_digit fraction_k i s) = after_digits s.
Proof.
  revert i; induction s as [|c s IH]; intros i.
  - cbn [star after_digits]. now rewrite fraction_k_spec.
  - cbn [star after_digits]. destruct (is_digit c) eqn:Hc.
    + specialize (IH (S i)).
      destruct (star is_digit fraction_k (S i) s); cbn [is_some] in *;
        [exact IH|].
      rewrite fraction_k_spec, <- IH. cbn [fraction].
      now rewrite (digit_not_period c Hc).
    + apply fraction_k_spec.
Qed.

Lemma test_decimal s :
  test decimal_pattern s
  = match s with c :: s' => is_digit c && after_digits s' | [] => false end.
Proof.
  unfold decimal_pattern. cbn [seqs]. rewrite test_anchored.
  unfold plusC at 1. cbn [m]. destruct s as [|c s]; [reflexivity|].
  destruct (is_digit c); cbn [andb]; [|reflexivity].
  change (star is_digit fraction_k 1 s) with (star is_digit fraction_k 1 s).
  rewrite <- (star_fraction 1 s). reflexivity.
Qed.

Lemma after_digits_iff s :
  after_digits s = true
  <-> exists a b, forallb is_digit a = true /\ forallb is_digit b = true
                  /\ (s = a \/ (nonempty b = true /\ s = a ++ 46%N :: b)).
Proof.
  induction s as [|c s IH]; cbn [after_digits].
  - split; [|reflexivity]. intros _. exists [], []. repeat split; auto.
  - destruct (is_digit c) eqn:Hc.
    + rewrite IH. split.
      * intros (a & b & Ha & Hb & H). exists (c :: a), b. cbn [forallb].
        rewrite Hc, Ha. repeat split; auto.
        destruct H as [->|[Hne ->]]; [left|right]; auto.
      * intros (a & b & Ha & Hb & H). destruct a as [|x a].
        -- destruct H as [H|[_ H]]; [discriminate|].
           injection H as -> _. discriminate.
        -- cbn [forallb] in Ha. apply andb_true_iff in Ha. destruct Ha as [_ Ha].
           exists a, b. repeat split; auto.
           destruct H as [H|[Hne H]]; [left|right; split; auto];
             cbn [app] in H; now injection H.
    + cbn [fraction]. rewrite !andb_true_iff, N.eqb_eq. split.
      * intros [[-> Hne] Hall]. exists [], s. repeat split; auto.
      * intros (a & b & Ha & Hb & H). destruct a as [|x a].
        -- destruct H as [H|[Hne H]]; [discriminate|].
           cbn [app] in H. injection H as -> ->. auto.
        -- cbn [forallb] in Ha. apply andb_true_iff in Ha. destruct Ha as [Hx _].
           assert (x = c) by (destruct H as [H|[_ H]]; cbn [app] in H; now injection H).
           subst x. rewrite Hx in Hc. discriminate.
Qed.

(** [/^\d+(\.\d+)?$/] accepts the decimal numerals. *)
Lemma test_decimal_form s : test decimal_pattern s = true <-> decimal_form s.
Proof.
  rewrite test_decimal. unfold decimal_form. destruct s as [|c s].
  - split; [discriminate|]. intros (a & b & Hne & _ & _ & H).
    destruct a; [discriminate|]. destruct H as [H|[_ H]]; discriminate.
  - rewrite andb_true_iff, after_digits_iff. split.
    + intros (Hc & a & b & Ha & Hb & H). exists (c :: a), b. cbn [forallb nonempty].
      rewrite Hc, Ha. repeat split; auto.
      destruct H as [->|[Hne ->]]; [left|right]; auto.
    + intros (a & b & Hne & Ha & Hb & H). destruct a as [|x a]; [discriminate|].
      cbn [forallb] in Ha. apply andb_true_iff in Ha. destruct Ha as [Hx Ha].
      assert (x = c /\ (s = a \/ (nonempty b = true /\ s = a ++ 46%N :: b))) as [-> H'].
      { destruct H as [H|[Hb' H]]; cbn [app] in H; injection H as -> ->; auto. }
      split; [exact Hx|]. exists a, b. auto.
Qed.

(** X4.  The weight and the price rule accept a string exactly when it
    is a decimal numeral (digits, and maybe a period and digits: no sign,
    no exponent, no unit, no surrounding whitespace) whose parsed number
    is in the range of the field. *)
Theorem decimal_fields_rule (F : FloatEnv) (s : jsstring) :
  (accepts (averageGrossWeight_schema F) (VString s) = true
   <-> decimal_form s
       /\ number_ge F (parseFloat F s) (lit_0_01 F) = true
       /\ number_le F (parseFloat F s) (lit_999999_99 F) = true)
  /\ (accepts (averagePrice_schema F) (VString s) = true
      <-> decimal_form s
          /\ number_ge F (parseFloat F s) (lit_0_01 F) = true
          /\ number_le F (parseFloat F s) (lit_9999999_99 F) = true).
Proof.
  split; rewrite accepts_all_checks;
    unfold averageGrossWeight_schema, averagePrice_schema;
    cbn [forallb check_passes]; rewrite !andb_true_iff, test_decimal_form.
  all: split;
    [ intros (_ & Hd & (H1 & H2) & _); auto
    | intros (Hd & H1 & H2); repeat split; auto;
      destruct Hd as (a & b & Hne & _ & _ & H);
      destruct a; [discriminate|];
      destruct H as [->|[_ ->]]; reflexivity ].
Qed.

Lemma numeral_char_no_unit c rest :
  is_digit c = true \/ c = 46%N -> umatch (c :: rest) = false.
Proof.
  intros Hc.
  assert (Hs : is_space c = false).
  { destruct Hc as [Hc| ->]; [now apply digit_not_space | reflexivity]. }
  assert (Hci : forall u, (65 <= u <= 90)%N -> is_ci u c = false).
  { intros u Hu. unfold is_ci.
    destruct Hc as [Hc| ->].
    - unfold canonicalize. unfold is_digit, in_range in Hc. apply andb_true_iff in Hc.
      destruct Hc as [H1 H2]. apply N.leb_le in H1, H2.
      replace ((97 <=? c)%N) with false by (symmetry; apply N.leb_gt; lia).
      cbn [andb]. apply N.eqb_neq. lia.
    - change (canonicalize 46) with 46%N. apply N.eqb_neq. lia. }
  unfold umatch. cbn [trimStart]. rewrite Hs. cbn [unit_ws].
  rewrite !Hci by lia. reflexivity.
Qed.

Lemma decimal_form_chars s :
  decimal_form s ->
  Forall (fun c => is_digit c = true \/ c = 46%N) s
  /\ (exists c r, s = c :: r /\ is_digit c = true)
  /\ (exists c r, rev s = c :: r /\ is_digit c = true).
Proof.
  intros (a & b & Hne & Ha & Hb & H).
  rewrite forallb_forall in Ha, Hb.
  destruct a as [|x a]; [discriminate|].
  assert (Hx : is_digit x = true) by (apply Ha; now left).
  assert (Hlast : forall l, l <> [] -> (forall c, In c l -> is_digit c = true) ->
                            exists c r, rev l = c :: r /\ is_digit c = true).
  { intros l Hl Hall. destruct (rev l) as [|c r] eqn:Hr.
    - apply (f_equal (@rev N)) in Hr. rewrite rev_involutive in Hr. now subst l.
    - exists c, r. split; [reflexivity|]. apply Hall. apply in_rev. rewrite Hr.
      now left. }
  destruct H as [->|[Hbne ->]]; repeat split.
  - apply Forall_forall. intros c Hc. left. now apply Ha.
  - exists x, a. auto.
  - apply Hlast; [discriminate | exact Ha].
  - apply Forall_forall. intros c Hc. change (x :: a) with ([x] ++ a) in Hc.
    rewrite <- app_assoc in Hc. apply in_app_or in Hc. destruct Hc as [Hc|Hc].
    + left. apply Ha. destruct Hc as [<-|[]]. now left.
    + apply in_app_or in Hc. destruct Hc as [Hc|[<-|Hc]]; auto.
      left. apply Ha. now right.
  - exists x, (a ++ 46%N :: b). auto.
  - rewrite rev_app_distr. cbn [rev]. rewrite <- app_assoc.
    destruct (Hlast b) as (c & r & Hr & Hc);
      [destruct b; [discriminate | discriminate] | exact Hb |].
    rewrite Hr. exists c, (r ++ [46%N] ++ rev (x :: a)). auto.
Qed.

(** X5.  A decimal numeral followed by optional whitespace, one unit of
    weight (kg, lbs or g in any letter case) and optional whitespace is
    cleaned to the numeral alone, which then has the form the weight rule
    asks for. *)
Theorem cleaned_weight_is_decimal (num w1 u w2 : jsstring) :
  decimal_form num ->
  forallb is_space w1 = true ->
  is_unit u ->
  forallb is_space w2 = true ->
  Api.cleanNumericValue (VString (num ++ w1 ++ u ++ w2)) = Normal num
  /\ test decimal_pattern num = true.
Proof.
  intros Hnum Hw1 Hu Hw2.
  split; [|now apply test_decimal_form].
  destruct (decimal_form_chars num Hnum) as (Hall & (c & r & Hs & Hc) & (c' & r' & Hr & Hc')).
  unfold Api.cleanNumericValue.
  assert (Htruthy : truthy (VString (num ++ w1 ++ u ++ w2)) = true)
    by (rewrite Hs; reflexivity).
  rewrite Htruthy. cbn [negb toString_method ToString].
  rewrite replace_cut. f_equal.
  rewrite cut_app.
  - unfold trim, trimEnd. rewrite Hr. cbn [trimStart].
    rewrite (digit_not_space c' Hc'), <- Hr, rev_involutive, Hs.
    cbn [trimStart]. now rewrite (digit_not_space c Hc).
  - apply umatch_iff. exists w1, (rev u), w2.
    rewrite rev_involutive. auto.
  - intros p1 p2 -> Hp2. destruct p2 as [|x p2]; [contradiction|].
    cbn [app]. apply numeral_char_no_unit.
    apply Forall_app in Hall. destruct Hall as [_ Hall].
    now inversion Hall.
Qed.

Lemma cleaned_weight_is_decimal_witness :
  Api.cleanNumericValue
    (VString (lit "162.37" ++ lit " " ++ lit "KG" ++ [])) = Normal (lit "162.37")
  /\ test decimal_pattern (lit "162.37") = true.
Proof.
  apply (cleaned_weight_is_decimal (lit "162.37") (lit " ") (lit "KG") []).
  - exists (lit "162"), (lit "37"). repeat split; try reflexivity.
    right. split; reflexivity.
  - reflexivity.
  - apply unitr_kg; reflexivity.
  - reflexivity.
Defined.

Lemma accepts_nonempty n message rest v :
  accepts (min (S n) message :: rest) v = true -> exists c r, v = VString (c :: r).
Proof.
  destruct v as [| |b|x|s|l|p]; try discriminate.
  destruct s as [|c r]; [discriminate|]. intros _. now exists c, r.
Qed.

(** X6.  Every field of the review form is required and must be a
    string: an object that the schema accepts holds a non-empty string
    under each of the eight keys.  So the empty placeholder that
    [loadShipmentRequest] makes for a record without extracted data is
    rejected, and so is an object with no key at all. *)
Theorem every_field_is_required (E : DateEnv) (F : FloatEnv) :
  (forall d, OceanShipmentDataSchema E F d = true ->
             forall key, exists c r, get_field key d = VString (c :: r))
  /\ OceanShipmentDataSchema E F DocumentContext.defaultData = false
  /\ OceanShipmentDataSchema E F empty_object = false.
Proof.
  assert (Hall : forall d, OceanShipmentDataSchema E F d = true ->
                           forall key, exists c r, get_field key d = VString (c :: r)).
  { intros d H key. unfold OceanShipmentDataSchema in H.
    repeat (apply andb_true_iff in H; destruct H as [H ?]).
    destruct key; cbn [get_field]; eapply accepts_nonempty;
      match goal with
      | Hk : accepts ?schema ?v = true |- accepts _ ?v = true => exact Hk
      end. }
  split; [exact Hall|]. split; apply not_true_is_false; intros H;
    destruct (Hall _ H k_containerNumber) as (c & r & Hk); discriminate.
Qed.

(* ===================================================================== *)
(** * The middleware *)
(* ===================================================================== *)

Lemma startsWith_app p rest : Middleware.startsWith (p ++ rest) p = true.
Proof.
  unfold Middleware.startsWith.
  rewrite firstn_app, Nat.sub_diag, firstn_all. cbn [firstn].
  rewrite app_nil_r. apply str_eqb_refl.
Qed.

(** X7.  The middleware lets a request without a user through exactly on
    the sign-in and sign-up pages, and a request with a user exactly off
    them; every path that begins with [/sign-in] or [/sign-up] counts as
    such a page; and the target of a redirect, requested by the same
    user, is let through, so no redirect leads to another. *)
Theorem middleware_access_control (pathname : jsstring) (user : option jsstring) :
  (Middleware.middleware pathname None = Middleware.supabaseResponse
   <-> Middleware.isAuthPage pathname = true)
  /\ (forall u, Middleware.middleware pathname (Some u) = Middleware.supabaseResponse
                <-> Middleware.isAuthPage pathname = false)
  /\ (forall rest, Middleware.isAuthPage (lit "/sign-in" ++ rest) = true
                   /\ Middleware.isAuthPage (lit "/sign-up" ++ rest) = true)
  /\ (forall target,
         Middleware.middleware pathname user = Middleware.redirect target ->
         Middleware.middleware target user = Middleware.supabaseResponse).
Proof.
  unfold Middleware.middleware. split; [|split; [|split]].
  - split.
    + destruct (Middleware.isAuthPage pathname); [reflexivity|discriminate].
    + intros ->. reflexivity.
  - intros u. split.
    + destruct (Middleware.isAuthPage pathname); [discriminate|reflexivity].
    + intros ->. reflexivity.
  - intros rest. unfold Middleware.isAuthPage.
    rewrite (startsWith_app (lit "/sign-in") rest).
    rewrite (startsWith_app (lit "/sign-up") rest). split; [reflexivity|].
    apply orb_true_r.
  - intros target.
    destruct user as [u|]; destruct (Middleware.isAuthPage pathname);
      cbn [negb]; try discriminate; intros H; injection H as <-; reflexivity.
Qed.

(** X8.  The redirect of every auth action is let through by the
    middleware: after a sign-in the home page is served to the user,
    after a sign-out the sign-in page is served to the visitor.  After a
    sign-up the home page is served when the sign-up opened a session,
    and the visitor is sent on to the sign-in page when it did not.  An
    action whose provider call failed redirects nowhere. *)
Theorem auth_redirects_pass_middleware :
  (forall error target u,
      AuthActions.signIn error = AuthActions.redirects target ->
      error = None
      /\ Middleware.middleware target (Some u) = Middleware.supabaseResponse)
  /\ (forall error target,
         AuthActions.signOut error = AuthActions.redirects target ->
         error = None
         /\ Middleware.middleware target None = Middleware.supabaseResponse)
  /\ (forall error target u,
         AuthActions.signUp error = AuthActions.redirects target ->
         error = None
         /\ Middleware.middleware target (Some u) = Middleware.supabaseResponse
         /\ Middleware.middleware target None = Middleware.redirect (lit "/sign-in")).
Proof.
  split; [|split].
  - intros [m|] target u H; [discriminate|]. injection H as <-. split; reflexivity.
  - intros [m|] target H; [discriminate|]. injection H as <-. split; reflexivity.
  - intros [m|] target u H; [discriminate|]. injection H as <-.
    repeat split; reflexivity.
Qed.

(* ===================================================================== *)
(** * The upload form *)
(* ===================================================================== *)

Lemma filter_index_skip {A} index k (l : list A) :
  (k <= index)%nat ->
  FileUploader.filter_index (fun i => negb (i =? index)%nat) k l
  = firstn (index - k) l ++ skipn (S (index - k)) l.
Proof.
  revert k; induction l as [|a l IH]; intros k Hk.
  - cbn [FileUploader.filter_index]. now rewrite firstn_nil, skipn_nil.
  - cbn [FileUploader.filter_index]. destruct (Nat.eqb_spec k index) as [->|Hne].
    + cbn [negb]. rewrite Nat.sub_diag. cbn [firstn skipn app].
      clear IH Hk. revert index. induction l as [|b l IHl]; intros index;
        cbn [FileUploader.filter_index]; [reflexivity|].
      destruct (Nat.eqb_spec (S index) index) as [H|_]; [lia|].
      cbn [negb]. f_equal.
      assert (Hgen : forall k, (index < k)%nat ->
                FileUploader.filter_index (fun i => negb (i =? index)%nat) k l = l).
      { clear. induction l as [|c l IH]; intros k Hk;
          cbn [FileUploader.filter_index]; [reflexivity|].
        destruct (Nat.eqb_spec k index); [lia|]. cbn [negb]. f_equal.
        apply IH. lia. }
      apply Hgen. lia.
    + cbn [negb]. rewrite (IH (S k)) by lia.
      replace (index - k)%nat with (S (index - S k)) by lia.
      reflexivity.
Qed.

(** X9.  Removing the file at an index of the selection takes out
    exactly that file and keeps the others in their order; an index
    outside the selection removes nothing; title and description are
    untouched.  A file added by the file input or by a drop goes to the
    end of the selection, and removing it there gives the selection
    back. *)
Theorem removeFile_removes_one (index : nat) (u : FileUploader.UploaderState) :
  let u' := FileUploader.removeFile index u in
  FileUploader.selectedFiles u'
  = firstn index (FileUploader.selectedFiles u)
    ++ skipn (S index) (FileUploader.selectedFiles u)
  /\ length (FileUploader.selectedFiles u')
     = (if (index <? length (FileUploader.selectedFiles u))%nat
        then length (FileUploader.selectedFiles u) - 1
        else length (FileUploader.selectedFiles u))%nat
  /\ ((length (FileUploader.selectedFiles u) <=? index)%nat = true ->
      FileUploader.selectedFiles u' = FileUploader.selectedFiles u)
  /\ FileUploader.title u' = FileUploader.title u
  /\ FileUploader.description u' = FileUploader.description u
  /\ (forall file,
         FileUploader.selectedFiles
           (FileUploader.removeFile (length (FileUploader.selectedFiles u))
              (FileUploader.handleFileInput [file] u))
         = FileUploader.selectedFiles u
         /\ FileUploader.selectedFiles
              (FileUploader.removeFile (length (FileUploader.selectedFiles u))
                 (FileUploader.handleDrop [file] u))
            = FileUploader.selectedFiles u).
Proof.
  cbv zeta. unfold FileUploader.removeFile, FileUploader.handleFileInput,
    FileUploader.handleDrop, FileUploader.add_files.
  cbn [FileUploader.selectedFiles FileUploader.title FileUploader.description].
  change (0 <? length [_])%nat with true. cbv iota.
  rewrite !filter_index_skip by lia. rewrite !Nat.sub_0_r.
  set (l := FileUploader.selectedFiles u).
  split; [reflexivity|]. split; [|split; [|split; [|split]]].
  - rewrite length_app, length_firstn, length_skipn.
    destruct (Nat.ltb_spec index (length l)); lia.
  - intros H. apply Nat.leb_le in H.
    rewrite firstn_all2 by lia. rewrite skipn_all2 by lia. apply app_nil_r.
  - reflexivity.
  - reflexivity.
  - intros file. rewrite !filter_index_skip by lia. rewrite Nat.sub_0_r.
    rewrite firstn_app, Nat.sub_diag, firstn_all. cbn [firstn].
    rewrite skipn_all2 by (rewrite length_app; cbn [length]; lia).
    rewrite !app_nil_r. split; reflexivity.
Qed.

(** [handleStart] in closed form: the upload never throws, so the reset of
    the form always follows it. *)
Lemma handleStart_run (u : FileUploader.UploaderState) (E : Env) (s : Sys) :
  FileUploader.handleStart u E s
  = (if (length (FileUploader.selectedFiles u) =? 0)%nat
        || FileUploader.blank (FileUploader.title u)
     then (s, Normal u)
     else (after (DocumentContext.uploadDocuments
                    (FileUploader.selectedFiles u) (FileUploader.title u)
                    (Some (FileUploader.description u)))
                 E (after DocumentContext.clearError E s),
           Normal {| FileUploader.isDragging := FileUploader.isDragging u;
                     FileUploader.selectedFiles := [];
                     FileUploader.title := [];
                     FileUploader.description := [] |})).
Proof.
  unfold FileUploader.handleStart.
  destruct ((length (FileUploader.selectedFiles u) =? 0)%nat
            || FileUploader.blank (FileUploader.title u)); [reflexivity|].
  unfold bind at 1.
  change (DocumentContext.clearError E s)
    with (after DocumentContext.clearError E s, @Normal unit tt).
  unfold bind at 1.
  destruct (uploadDocuments_outcome (FileUploader.selectedFiles u)
              (FileUploader.title u) (Some (FileUploader.description u)) E
              (after DocumentContext.clearError E s)) as (s' & Hrun & _).
  unfold after at 2. rewrite Hrun. reflexivity.
Qed.

(** X10.  [handleStart] does nothing at all while no file is selected or
    the title is blank; otherwise it clears the error, runs the upload
    and then resets the form, whether the upload succeeded or failed.
    The start button is enabled exactly when [handleStart] would proceed
    and no processing is going on. *)
Theorem handleStart_always_resets
    (u : FileUploader.UploaderState) (E : Env) (s : Sys) :
  FileUploader.handleStart u E s
  = (if (length (FileUploader.selectedFiles u) =? 0)%nat
        || FileUploader.blank (FileUploader.title u)
     then (s, Normal u)
     else (after (DocumentContext.uploadDocuments
                    (FileUploader.selectedFiles u) (FileUploader.title u)
                    (Some (FileUploader.description u)))
                 E (after DocumentContext.clearError E s),
           Normal {| FileUploader.isDragging := FileUploader.isDragging u;
                     FileUploader.selectedFiles := [];
                     FileUploader.title := [];
                     FileUploader.description := [] |}))
  /\ (forall st,
         FileUploader.canStart u st
         = negb ((length (FileUploader.selectedFiles u) =? 0)%nat
                 || FileUploader.blank (FileUploader.title u))
           && negb (isProcessing st)).
Proof.
  split; [apply handleStart_run|].
  intros st. unfold FileUploader.canStart, FileUploader.blank.
  destruct (FileUploader.selectedFiles u);
    cbn [length Nat.eqb Nat.ltb Nat.leb orb negb andb]; [reflexivity|].
  destruct (trim (FileUploader.title u)); reflexivity.
Qed.

(* ===================================================================== *)
(** * The server-side helper *)
(* ===================================================================== *)

(** X11.  [createShipmentRequest] never throws.  It answers [created]
    only with a non-empty id, after the store took a pending row of that
    id with the title, description and user given and no extracted data;
    it answers [not_created] without having asked the store when the
    client could not be made, and without any row written when the
    store refused the insert. *)
Theorem createShipmentRequest_result
    (client : completion unit) (title : jsstring) (description : option jsstring)
    (userId : jsstring) (E : Env) (s : Sys) :
  let s' := after (ShipmentRequests.createShipmentRequest client title description userId) E s in
  exists r,
    result (ShipmentRequests.createShipmentRequest client title description userId) E s
    = Normal r
    /\ (forall id, r = ShipmentRequests.created id ->
                   id <> []
                   /\ exists at_,
                       insert_outcome E (length (trace s)) = Inserted id at_
                       /\ shipment_requests (db s')
                          = pending_row id title description userId at_
                            :: shipment_requests (db s))
    /\ (forall e, client = Throw e ->
                  s' = s
                  /\ r = ShipmentRequests.not_created
                           (message_or e (lit "Unknown error occurred")))
    /\ (forall message,
           client = Normal tt ->
           insert_outcome E (length (trace s)) = InsertFailed message ->
           shipment_requests (db s') = shipment_requests (db s)
           /\ r = ShipmentRequests.not_created
                    (or_default message (lit "Failed to create shipment request"))).
Proof.
  cbv zeta. unfold after, result, ShipmentRequests.createShipmentRequest.
  unfold try_catch, bind, lift, insert_shipment_request, ret, with_db, emit.
  destruct client as [[]|e].
  - destruct (insert_outcome E (length (trace s))) as [id at_|message] eqn:Hins;
      cbn [resp_error resp_data fst snd].
    + destruct id as [|c r0]; cbn [fst snd]; eexists; (split; [reflexivity|]);
        (split; [|split]); try (intros; discriminate).
      intros id H. injection H as <-. split; [discriminate|].
      exists at_. split; reflexivity.
    + eexists; (split; [reflexivity|]).
      (split; [|split]); try (intros; discriminate).
      intros m _ H. injection H as <-. split; [reflexivity|].
      destruct message; reflexivity.
  - cbn [fst snd]. eexists; (split; [reflexivity|]).
    (split; [|split]); try (intros; discriminate).
    intros e' H. injection H as <-. split; [destruct s|]; reflexivity.
Qed.

(* ===================================================================== *)
(** * The history list *)
(* ===================================================================== *)

Lemma same_request_key a item :
  HistoryList.same_request a item = true
  <-> exists k, request_key a = Some k /\ request_key item = Some k.
Proof.
  unfold HistoryList.same_request, request_key, DocumentContext.opt_eqb.
  destruct (HistoryList.shipmentRequestId a) as [[|c r]|].
  - split; [discriminate | intros (k & H & _); discriminate].
  - destruct (HistoryList.shipmentRequestId item) as [x|].
    + split.
      * intros H. apply str_eqb_eq in H. subst x. exists (c :: r). auto.
      * intros (k & H1 & H2). injection H1 as <-.
        destruct x as [|c' r']; [discriminate|]. injection H2 as -> ->.
        apply str_eqb_refl.
    + split; [discriminate | intros (k & _ & H); discriminate].
  - split; [discriminate | intros (k & H & _); discriminate].
Qed.

Lemma findIndex_some {A} (f : A -> bool) l n :
  HistoryList.findIndex f l = Some n ->
  exists pre a post, l = pre ++ a :: post /\ length pre = n /\ f a = true.
Proof.
  revert n; induction l as [|x l IH]; intros n; cbn [HistoryList.findIndex];
    [discriminate|].
  destruct (f x) eqn:Hx.
  - intros H. injection H as <-. exists [], x, l. auto.
  - destruct (HistoryList.findIndex f l) as [k|]; [|discriminate].
    intros H. injection H as <-.
    destruct (IH k eq_refl) as (pre & a & post & -> & Hlen & Ha).
    exists (x :: pre), a, post. cbn [length app]. auto.
Qed.

Lemma findIndex_none {A} (f : A -> bool) l :
  HistoryList.findIndex f l = None -> forall a, In a l -> f a = false.
Proof.
  induction l as [|x l IH]; cbn [HistoryList.findIndex]; [intros _ a []|].
  destruct (f x) eqn:Hx; [discriminate|].
  destruct (HistoryList.findIndex f l); [discriminate|].
  intros _ a [<-|Ha]; auto.
Qed.

Lemma assign_at {A} (pre post : list A) a item :
  HistoryList.assign (length pre) item (pre ++ a :: post) = pre ++ item :: post.
Proof.
  induction pre as [|x pre IH]; cbn [length app HistoryList.assign];
    [reflexivity | now rewrite IH].
Qed.

Lemma request_keys_app l1 l2 :
  request_keys (l1 ++ l2) = request_keys l1 ++ request_keys l2.
Proof. unfold request_keys. apply flat_map_app. Qed.

Lemma request_keys_in k l :
  In k (request_keys l) <-> exists i, In i l /\ request_key i = Some k.
Proof.
  unfold request_keys. rewrite in_flat_map. split.
  - intros (i & Hi & Hk). exists i. split; [exact Hi|].
    destruct (request_key i); [|destruct Hk].
    destruct Hk as [->|[]]. reflexivity.
  - intros (i & Hi & Hk). exists i. split; [exact Hi|]. rewrite Hk. now left.
Qed.

Lemma request_keys_swap pre a item post k :
  request_key a = Some k -> request_key item = Some k ->
  request_keys (pre ++ item :: post) = request_keys (pre ++ a :: post).
Proof.
  intros Ha Hi. rewrite !request_keys_app. f_equal.
  unfold request_keys. cbn [flat_map]. now rewrite Ha, Hi.
Qed.

(** One step of the reduction keeps [merged]. *)
Lemma keep_unique_merged acc seen item :
  merged acc seen -> merged (HistoryList.keep_unique acc item) (seen ++ [item]).
Proof.
  intros (Hnd & Hsub & Hnone & Hkeys & Hsess).
  unfold HistoryList.keep_unique.
  destruct (HistoryList.findIndex _ acc) as [n|] eqn:Hfind.
  - destruct (findIndex_some _ _ _ Hfind) as (pre & a & post & -> & <- & Ha).
    apply same_request_key in Ha. destruct Ha as (k & Hka & Hki).
    destruct (HistoryList.source item) eqn:Hsrc.
    + (* a record of the store gives way *)
      repeat split.
      * exact Hnd.
      * intros i Hi. apply in_or_app. left. now apply Hsub.
      * intros j Hj Hk. apply in_app_or in Hj. destruct Hj as [Hj|[<-|[]]].
        -- now apply Hnone.
        -- congruence.
      * intros j k' Hj Hk. apply in_app_or in Hj. destruct Hj as [Hj|[<-|[]]].
        -- now apply (Hkeys j).
        -- apply request_keys_in. exists a. split; [|congruence].
           apply in_or_app. right. now left.
      * intros i k' Hi Hk (j & Hj & Hjs & Hjk). apply (Hsess i k' Hi Hk).
        apply in_app_or in Hj. destruct Hj as [Hj|[<-|[]]]; [|congruence].
        exists j. auto.
    + (* a session item takes the place *)
      rewrite assign_at.
      assert (Hsame : request_keys (pre ++ item :: post)
                      = request_keys (pre ++ a :: post))
        by (now apply request_keys_swap with k).
      repeat split.
      * now rewrite Hsame.
      * intros i Hi. apply in_app_or in Hi. destruct Hi as [Hi|[<-|Hi]].
        -- apply in_or_app. left. apply Hsub. apply in_or_app. now left.
        -- apply in_or_app. right. now left.
        -- apply in_or_app. left. apply Hsub. apply in_or_app. right. now right.
      * intros j Hj Hk. apply in_app_or in Hj. destruct Hj as [Hj|[<-|[]]].
        -- specialize (Hnone j Hj Hk). apply in_app_or in Hnone.
           destruct Hnone as [H|[<-|H]]; [| congruence |].
           ++ apply in_or_app. now left.
           ++ apply in_or_app. right. now right.
        -- congruence.
      * intros j k' Hj Hk. rewrite Hsame. apply in_app_or in Hj.
        destruct Hj as [Hj|[<-|[]]].
        -- now apply (Hkeys j).
        -- apply request_keys_in. exists a. split; [|congruence].
           apply in_or_app. right. now left.
      * intros i k' Hi Hk (j & Hj & Hjs & Hjk).
        assert (Hother : In i (pre ++ post) -> HistoryList.source i = HistoryList.session).
        { intros Hin.
          assert (Hia : In i (pre ++ a :: post)).
          { apply in_app_or in Hin. apply in_or_app.
            destruct Hin; [now left | right; now right]. }
          apply (Hsess i k' Hia Hk).
          apply in_app_or in Hj. destruct Hj as [Hj|[<-|[]]]; [exists j; auto|].
          (* the new item has the key of [i]: then [i] and [a] share it *)
          exfalso. assert (k' = k) by congruence. subst k'.
          rewrite request_keys_app in Hnd. unfold request_keys at 2 in Hnd.
          cbn [flat_map] in Hnd. rewrite Hka in Hnd. cbn [app] in Hnd.
          apply NoDup_remove_2 in Hnd. apply Hnd.
          apply in_app_or in Hin. apply in_or_app.
          destruct Hin as [Hin|Hin]; [left|right];
            apply request_keys_in; exists i; auto. }
        apply in_app_or in Hi. destruct Hi as [Hi|[<-|Hi]].
        -- apply Hother. apply in_or_app. now left.
        -- exact Hsrc.
        -- apply Hother. apply in_or_app. now right.
  - (* no item of that record yet *)
    pose proof (findIndex_none _ _ Hfind) as Hno.
    assert (Hfresh : forall k, request_key item = Some k -> ~ In k (request_keys acc)).
    { intros k Hk Hin. apply request_keys_in in Hin. destruct Hin as (a & Ha & Hak).
      specialize (Hno a Ha).
      assert (HistoryList.same_request a item = true)
        by (apply same_request_key; exists k; auto).
      congruence. }
    repeat split.
    + rewrite request_keys_app. unfold request_keys at 2. cbn [flat_map].
      rewrite app_nil_r. destruct (request_key item) as [k|] eqn:Hk.
      * apply NoDup_app; [exact Hnd | repeat constructor; intros [] |].
        intros x Hx [Heq|[]]. subst x. exact (Hfresh k eq_refl Hx).
      * now rewrite app_nil_r.
    + intros i Hi. apply in_app_or in Hi. apply in_or_app.
      destruct Hi as [Hi|Hi]; [left; now apply Hsub | now right].
    + intros j Hj Hk. apply in_app_or in Hj. apply in_or_app.
      destruct Hj as [Hj|Hj]; [left; now apply Hnone | now right].
    + intros j k Hj Hk. rewrite request_keys_app. apply in_or_app.
      apply in_app_or in Hj. destruct Hj as [Hj|[<-|[]]].
      * left. now apply (Hkeys j).
      * right. unfold request_keys. cbn [flat_map]. rewrite Hk. now left.
    + intros i k Hi Hk (j & Hj & Hjs & Hjk).
      apply in_app_or in Hi. apply in_app_or in Hj.
      destruct Hi as [Hi|[<-|[]]].
      * apply (Hsess i k Hi Hk). destruct Hj as [Hj|[<-|[]]]; [exists j; auto|].
        exfalso. apply (Hfresh k Hjk). apply request_keys_in. exists i. auto.
      * destruct Hj as [Hj|[<-|[]]]; [|exact Hjs].
        exfalso. apply (Hfresh k Hk). now apply (Hkeys j).
Qed.

Lemma fold_keep_unique_merged items acc seen :
  merged acc seen ->
  merged (fold_left HistoryList.keep_unique items acc) (seen ++ items).
Proof.
  revert acc seen; induction items as [|item items IH]; intros acc seen H.
  - now rewrite app_nil_r.
  - cbn [fold_left]. replace (seen ++ item :: items) with ((seen ++ [item]) ++ items)
      by (now rewrite <- app_assoc).
    apply IH. now apply keep_unique_merged.
Qed.

Lemma uniqueItems_merged sort dbRecords batches :
  merged (HistoryList.uniqueItems sort dbRecords batches)
         (sort (dbRecords ++ HistoryList.sessionItems batches)).
Proof.
  unfold HistoryList.uniqueItems.
  apply (fold_keep_unique_merged _ [] []).
  repeat split; try (intros; contradiction); try constructor.
Qed.

(** X12.  Whatever order the sort gives, the rendered history list holds
    no two items of one record: the record ids of its items that have
    one are pairwise different. *)
Theorem uniqueItems_one_per_record
    (sort : list HistoryList.HistoryItem -> list HistoryList.HistoryItem)
    (dbRecords : list HistoryList.HistoryItem) (batches : list ProcessBatch) :
  NoDup (request_keys (HistoryList.uniqueItems sort dbRecords batches)).
Proof. exact (proj1 (uniqueItems_merged sort dbRecords batches)). Qed.

(** X13.  When the sort only reorders, the rendered history list is a
    selection of the store's records and the session's batches that
    loses no record: every item without a record id is kept, every
    record id of an item is the record id of a rendered item, and the
    rendered item of a record that has a batch in the session is a
    session item. *)
Theorem uniqueItems_session_precedence
    (sort : list HistoryList.HistoryItem -> list HistoryList.HistoryItem)
    (rows : list ShipmentRequest) (batches : list ProcessBatch) :
  (forall l x, In x (sort l) <-> In x l) ->
  let dbRecords := map HistoryList.record_item rows in
  let rendered := HistoryList.uniqueItems sort dbRecords batches in
  (forall i, In i rendered ->
             In i dbRecords \/ In i (HistoryList.sessionItems batches))
  /\ (forall j, In j (HistoryList.sessionItems batches) ->
                request_key j = None -> In j rendered)
  /\ (forall j k, In j dbRecords \/ In j (HistoryList.sessionItems batches) ->
                  request_key j = Some k ->
                  exists i, In i rendered /\ request_key i = Some k)
  /\ (forall i b k, In i rendered -> In b batches ->
                    request_key i = Some k ->
                    shipmentRequestId b = Some k ->
                    HistoryList.source i = HistoryList.session).
Proof.
  intros Hsort. cbv zeta.
  destruct (uniqueItems_merged sort (map HistoryList.record_item rows) batches)
    as (_ & Hsub & Hnone & Hkeys & Hsess).
  repeat split.
  - intros i Hi. apply in_app_or. apply Hsort. now apply Hsub.
  - intros j Hj Hk. apply Hnone; [|exact Hk]. apply Hsort. apply in_or_app. now right.
  - intros j k Hj Hk. apply request_keys_in. apply (Hkeys j); [|exact Hk].
    apply Hsort. now apply in_or_app.
  - intros i b k Hi Hb Hik Hbk. apply (Hsess i k Hi Hik).
    exists (HistoryList.Build_HistoryItem (Types.id b) (Types.title b)
              (Types.description b) (Types.status b) (uploadedAt b)
              (Some (Types.fileCount b)) HistoryList.session
              (Types.shipmentRequestId b)).
    split; [|split].
    + apply Hsort. apply in_or_app. right. unfold HistoryList.sessionItems.
      apply in_map_iff. exists b. split; [reflexivity|exact Hb].
    + reflexivity.
    + unfold request_key. cbn [HistoryList.shipmentRequestId].
      rewrite Hbk. unfold request_key in Hik.
      destruct (HistoryList.shipmentRequestId i) as [[|c r]|]; try discriminate.
      injection Hik as <-. reflexivity.
Qed.

Lemma uniqueItems_session_precedence_witness :
  let dbRecords := map HistoryList.record_item [StoreFixture.row1] in
  let rendered :=
    HistoryList.uniqueItems (fun l => l) dbRecords [Fixture.done_batch] in
  (forall i, In i rendered ->
             In i dbRecords \/ In i (HistoryList.sessionItems [Fixture.done_batch]))
  /\ (forall j, In j (HistoryList.sessionItems [Fixture.done_batch]) ->
                request_key j = None -> In j rendered)
  /\ (forall j k, In j dbRecords \/ In j (HistoryList.sessionItems [Fixture.done_batch]) ->
                  request_key j = Some k ->
                  exists i, In i rendered /\ request_key i = Some k)
  /\ (forall i b k, In i rendered -> In b [Fixture.done_batch] ->
                    request_key i = Some k ->
                    shipmentRequestId b = Some k ->
                    HistoryList.source i = HistoryList.session).
Proof.
  apply (uniqueItems_session_precedence (fun l => l)
           [StoreFixture.row1] [Fixture.done_batch]).
  intros l x. split; intros H; exact H.
Defined.

Lemma find_by_id (b : ProcessBatch) (l : list ProcessBatch) :
  In b l ->
  exists b0, find (fun x => str_eqb (Types.id x) (Types.id b)) l = Some b0
             /\ In b0 l /\ Types.id b0 = Types.id b.
Proof.
  induction l as [|x l IH]; intros Hin; [destruct Hin|].
  cbn [find]. destruct (str_eqb (Types.id x) (Types.id b)) eqn:Hx.
  - exists x. apply str_eqb_eq in Hx. repeat split; [now left | exact Hx].
  - destruct Hin as [->|Hin]; [rewrite str_eqb_refl in Hx; discriminate|].
    destruct (IH Hin) as (b0 & Hf & Hb0 & Hid). exists b0.
    repeat split; [exact Hf | now right | exact Hid].
Qed.

(** X14.  A click on a rendered item always finds its target.  A session
    item selects a batch of the session with the id of the item, without
    a request and without touching the batches, the current document or
    the error; an item of the store loads its record by its id. *)
Theorem rendered_item_click
    (sort : list HistoryList.HistoryItem -> list HistoryList.HistoryItem)
    (rows : list ShipmentRequest) (E : Env) (s : Sys)
    (item : HistoryList.HistoryItem) :
  (forall l x, In x (sort l) <-> In x l) ->
  In item (HistoryList.uniqueItems sort (map HistoryList.record_item rows)
             (batches (ui s))) ->
  match HistoryList.source item with
  | HistoryList.session =>
      exists b,
        In b (batches (ui s))
        /\ Types.id b = HistoryList.id item
        /\ HistoryList.handleItemClick item E s
           = (with_ui {| batches := batches (ui s);
                         currentBatch := Some b;
                         currentDocument := currentDocument (ui s);
                         isProcessing := isProcessing (ui s);
                         error := error (ui s) |} s,
              Normal tt)
  | HistoryList.database =>
      HistoryList.handleItemClick item E s
      = match HistoryList.id item with
        | [] => (s, Normal tt)
        | c :: r => DocumentContext.loadShipmentRequest (c :: r) E s
        end
  end.
Proof.
  intros Hsort Hin.
  destruct (uniqueItems_merged sort (map HistoryList.record_item rows) (batches (ui s)))
    as (_ & Hsub & _).
  apply Hsub in Hin. apply (proj1 (Hsort _ _)) in Hin. apply in_app_or in Hin.
  destruct Hin as [Hin|Hin].
  - apply in_map_iff in Hin. destruct Hin as (row & <- & _).
    cbn [HistoryList.record_item HistoryList.source HistoryList.id].
    unfold HistoryList.handleItemClick, bind, state.
    cbn [HistoryList.record_item HistoryList.source HistoryList.shipmentRequestId].
    destruct (sr_id row); reflexivity.
  - unfold HistoryList.sessionItems in Hin. apply in_map_iff in Hin.
    destruct Hin as (b & <- & Hb).
    cbn [HistoryList.source HistoryList.id].
    destruct (find_by_id b (batches (ui s)) Hb) as (b0 & Hfind & Hb0 & Hid).
    exists b0. split; [exact Hb0|]. split; [exact Hid|].
    unfold HistoryList.handleItemClick, bind, state.
    cbn [HistoryList.source HistoryList.id]. rewrite Hfind. reflexivity.
Qed.

Lemma rendered_item_click_witness :
  exists b,
    In b (batches (ui StoreFixture.session))
    /\ Types.id b = HistoryList.id ReviewFixture.done_item
    /\ HistoryList.handleItemClick ReviewFixture.done_item
         Fixture.E_ok StoreFixture.session
       = (with_ui {| batches := batches (ui StoreFixture.session);
                     currentBatch := Some b;
                     currentDocument := currentDocument (ui StoreFixture.session);
                     isProcessing := isProcessing (ui StoreFixture.session);
                     error := error (ui StoreFixture.session) |}
                  StoreFixture.session,
          Normal tt).
Proof.
  apply (rendered_item_click (fun l => l) [StoreFixture.row1]
           Fixture.E_ok StoreFixture.session ReviewFixture.done_item).
  - intros l x. split; intros H; exact H.
  - vm_compute. left. reflexivity.
Defined.

(* ===================================================================== *)
(** * The session state *)
(* ===================================================================== *)

(** ** The two synchronous updates, in closed form *)

Lemma updateBatchStatus_run rid st E s :
  DocumentContext.updateBatchStatus rid st E s
  = (with_ui {| batches := map (mirror rid st) (batches (ui s));
                currentBatch := option_map (mirror rid st) (currentBatch (ui s));
                currentDocument := currentDocument (ui s);
                isProcessing := isProcessing (ui s);
                error := error (ui s) |} s,
     Normal tt).
Proof.
  unfold DocumentContext.updateBatchStatus. unfold_world. simpl.
  destruct (currentBatch (ui s)) as [cb|]; simpl; [|reflexivity].
  unfold mirror.
  destruct (DocumentContext.opt_eqb (shipmentRequestId cb) rid); reflexivity.
Qed.

Lemma updateDocumentData_run id data E s :
  DocumentContext.updateDocumentData id data E s
  = (with_ui {| batches := map (DocumentContext.merge_batch id data) (batches (ui s));
                currentBatch :=
                  option_map (DocumentContext.merge_batch id data) (currentBatch (ui s));
                currentDocument :=
                  option_map (DocumentContext.merge_doc id data) (currentDocument (ui s));
                isProcessing := isProcessing (ui s);
                error := error (ui s) |} s,
     Normal tt).
Proof.
  unfold DocumentContext.updateDocumentData. unfold_world. simpl.
  destruct (currentBatch (ui s)) as [cb|]; simpl;
    (destruct (currentDocument (ui s)) as [cd|]; simpl; [|reflexivity]);
    unfold DocumentContext.merge_doc;
    destruct (str_eqb (doc_id cd) id); reflexivity.
Qed.

Lemma spread_no_keys d : spread d no_keys = d.
Proof. now destruct d. Qed.

Lemma spread_patch_then d p1 p2 :
  spread (spread d p1) p2 = spread d (patch_then p1 p2).
Proof.
  destruct p1 as [a1 a2 a3 a4 a5 a6 a7 a8], p2 as [b1 b2 b3 b4 b5 b6 b7 b8].
  unfold spread, patch_then, over. cbn.
  destruct b1, b2, b3, b4, b5, b6, b7, b8; reflexivity.
Qed.

Lemma merge_doc_no_keys id doc : DocumentContext.merge_doc id no_keys doc = doc.
Proof.
  unfold DocumentContext.merge_doc. destruct (str_eqb (doc_id doc) id); [|reflexivity].
  rewrite spread_no_keys. now destruct doc.
Qed.

Lemma merge_doc_then id p1 p2 doc :
  DocumentContext.merge_doc id p2 (DocumentContext.merge_doc id p1 doc)
  = DocumentContext.merge_doc id (patch_then p1 p2) doc.
Proof.
  unfold DocumentContext.merge_doc.
  destruct (str_eqb (doc_id doc) id) eqn:H; cbn [doc_id]; rewrite H; [|reflexivity].
  cbn. now rewrite spread_patch_then.
Qed.

Lemma map_id_ext {A} (f : A -> A) l : (forall x, f x = x) -> map f l = l.
Proof. intros H. induction l; simpl; [reflexivity | now rewrite H, IHl]. Qed.

Lemma merge_batch_no_keys id b : DocumentContext.merge_batch id no_keys b = b.
Proof.
  unfold DocumentContext.merge_batch.
  rewrite (map_id_ext _ _ (merge_doc_no_keys id)). now destruct b.
Qed.

Lemma merge_batch_then id p1 p2 b :
  DocumentContext.merge_batch id p2 (DocumentContext.merge_batch id p1 b)
  = DocumentContext.merge_batch id (patch_then p1 p2) b.
Proof.
  unfold DocumentContext.merge_batch. cbn. f_equal.
  rewrite map_map. apply map_ext. intros doc. apply merge_doc_then.
Qed.

Lemma option_map_id_ext {A} (f : A -> A) o : (forall x, f x = x) -> option_map f o = o.
Proof. intros H. destruct o; simpl; [now rewrite H | reflexivity]. Qed.

Lemma option_map_map {A B C} (f : A -> B) (g : B -> C) o :
  option_map g (option_map f o) = option_map (fun x => g (f x)) o.
Proof. now destruct o. Qed.

Lemma option_map_ext_eq {A B} (f g : A -> B) o :
  (forall x, f x = g x) -> option_map f o = option_map g o.
Proof. intros H. destruct o; simpl; [now rewrite H | reflexivity]. Qed.

(** X15.  Edits of a document accumulate.  An edit with no key changes
    nothing, and two edits of one document, one after the other, leave
    the session as one edit does that holds the keys of both with the
    later value where both hold a key: an edit never undoes the edit of
    another field. *)
Theorem updateDocumentData_accumulates
    (id : jsstring) (p1 p2 : PartialData) (E : Env) (s : Sys) :
  after (DocumentContext.updateDocumentData id no_keys) E s = s
  /\ after (DocumentContext.updateDocumentData id p2) E
       (after (DocumentContext.updateDocumentData id p1) E s)
     = after (DocumentContext.updateDocumentData id (patch_then p1 p2)) E s.
Proof.
  unfold after. rewrite !updateDocumentData_run. cbn [fst]. split.
  - rewrite (map_id_ext _ _ (merge_batch_no_keys id)).
    rewrite (option_map_id_ext _ _ (merge_batch_no_keys id)).
    rewrite (option_map_id_ext _ _ (merge_doc_no_keys id)).
    destruct s as [d t f u]. destruct u. reflexivity.
  - unfold with_ui. cbn [ui db trace fresh batches currentBatch currentDocument
                         isProcessing error].
    rewrite map_map, !option_map_map.
    rewrite (map_ext _ _ (merge_batch_then id p1 p2)).
    rewrite (option_map_ext_eq _ _ _ (merge_batch_then id p1 p2)).
    rewrite (option_map_ext_eq _ _ _ (merge_doc_then id p1 p2)).
    reflexivity.
Qed.

Lemma mirror_merge rid st id data b :
  mirror rid st (DocumentContext.merge_batch id data b)
  = DocumentContext.merge_batch id data (mirror rid st b).
Proof.
  unfold mirror. cbn [DocumentContext.merge_batch shipmentRequestId].
  destruct (DocumentContext.opt_eqb (shipmentRequestId b) rid); reflexivity.
Qed.

(** X16.  A change of status and an edit of a document do not interfere:
    in either order they leave the session in the same state, and
    neither sends a request or touches the store. *)
Theorem status_and_data_commute
    (rid st id : jsstring) (data : PartialData) (E : Env) (s : Sys) :
  after (DocumentContext.updateBatchStatus rid st) E
    (after (DocumentContext.updateDocumentData id data) E s)
  = after (DocumentContext.updateDocumentData id data) E
      (after (DocumentContext.updateBatchStatus rid st) E s)
  /\ trace (after (DocumentContext.updateBatchStatus rid st) E s) = trace s
  /\ db (after (DocumentContext.updateBatchStatus rid st) E s) = db s
  /\ trace (after (DocumentContext.updateDocumentData id data) E s) = trace s
  /\ db (after (DocumentContext.updateDocumentData id data) E s) = db s.
Proof.
  unfold after. rewrite !updateDocumentData_run, !updateBatchStatus_run.
  cbn [fst]. unfold with_ui.
  cbn [ui db trace fresh batches currentBatch currentDocument isProcessing error].
  repeat split.
  rewrite !map_map, !option_map_map.
  rewrite (map_ext _ _ (mirror_merge rid st id data)).
  rewrite (option_map_ext_eq _ _ _ (mirror_merge rid st id data)).
  reflexivity.
Qed.

(** Case analysis on every answer of the outside that a run depends on. *)
Ltac world_cases :=
  repeat (cbn [db trace fresh ui length resp_error resp_data user];
          match goal with
          | |- context [select_error ?E ?t] => destruct (select_error E t)
          | |- context [update_error ?E ?t] => destruct (update_error E t)
          | |- context [auth_getUser ?E ?t] => destruct (auth_getUser E t) as [[?|] ?]
          | |- context [log_error ?E ?t] => destruct (log_error E t)
          | |- context [find ?f ?l] => destruct (find f l)
          end);
  cbn [db trace fresh ui length resp_error resp_data user].

(** ** What each handler does to the React state *)

Lemma loadShipmentRequest_current id E s :
  let u' := ui (after (DocumentContext.loadShipmentRequest id) E s) in
  (batches u' = batches (ui s) /\ currentBatch u' = currentBatch (ui s))
  \/ (exists b, currentBatch u' = Some b /\ In b (batches u')).
Proof.
  cbv zeta. unfold after, DocumentContext.loadShipmentRequest. unfold_world. simpl.
  destruct (select_error E (length (trace s))); simpl; [left; split; reflexivity|].
  destruct (find _ (shipment_requests (db s))); simpl; [|left; split; reflexivity].
  destruct (find _ (batches (ui s))) as [existing|] eqn:Hfind; simpl; right.
  - exists existing. split; [reflexivity|]. now apply find_some in Hfind.
  - eexists. split; [reflexivity|]. now left.
Qed.

Lemma handleSubmitCompletion_ui hasErrors E s :
  ui (after (DataTable.handleSubmitCompletion hasErrors) E s) = ui s
  \/ exists rid,
      ui (after (DataTable.handleSubmitCompletion hasErrors) E s)
      = ui (after (DocumentContext.updateBatchStatus rid DataTable.completed) E s).
Proof.
  unfold after, DataTable.handleSubmitCompletion. unfold_world. simpl.
  destruct (currentBatch (ui s)) as [[? ? ? ? ? ? ? [[|c r]|]]|] eqn:Hcb;
    try (left; reflexivity).
  destruct hasErrors; [left; reflexivity|].
  destruct (auth_getUser E (length (trace s))) as [[uid|] ?]; simpl;
    [|left; reflexivity].
  destruct (update_error E _); simpl; [left; reflexivity|].
  right. exists (c :: r).
  destruct (log_error E _); simpl; rewrite !updateBatchStatus_run; reflexivity.
Qed.

Lemma handleFieldBlur_ui hasErrors fieldKey currentValue oldValue E s :
  ui (after (DataTable.handleFieldBlur hasErrors fieldKey currentValue oldValue) E s)
  = ui s
  \/ exists id,
      ui (after (DataTable.handleFieldBlur hasErrors fieldKey currentValue oldValue) E s)
      = ui (after (DocumentContext.updateDocumentData id (one_key fieldKey currentValue))
                  E s).
Proof.
  unfold after, DataTable.handleFieldBlur, try_catch, bind, state,
    select_shipment_request, update_extracted_data, getUser, insert_log, ret,
    with_db, emit.
  cbv beta iota.
  destruct (hasErrors || DataTable.isCompleted (ui s)); [left; reflexivity|].
  destruct (DataTable.strict_equal oldValue currentValue); [left; reflexivity|].
  destruct (DataTable.currentDocument (ui s)) as [doc|]; [|left; reflexivity].
  right. exists (doc_id doc).
  rewrite !updateDocumentData_run. unfold with_ui.
  destruct (currentBatch (ui s)) as [[? ? ? ? ? ? ? [[|c r]|]]|];
    try reflexivity.
  world_cases; reflexivity.
Qed.

Lemma current_known_updateDocumentData id data E s :
  current_known (ui s) ->
  current_known (ui (after (DocumentContext.updateDocumentData id data) E s)).
Proof.
  unfold after. rewrite updateDocumentData_run. unfold current_known. cbn.
  destruct (currentBatch (ui s)) as [cb|]; cbn; [|trivial]. apply in_map.
Qed.

Lemma current_known_updateBatchStatus rid st E s :
  current_known (ui s) ->
  current_known (ui (after (DocumentContext.updateBatchStatus rid st) E s)).
Proof.
  unfold after. rewrite updateBatchStatus_run. unfold current_known. cbn.
  destruct (currentBatch (ui s)) as [cb|]; cbn; [|trivial]. apply in_map.
Qed.

Lemma current_known_uploadDocuments files title description E s :
  current_known (ui s) ->
  current_known
    (ui (after (DocumentContext.uploadDocuments files title description) E s)).
Proof.
  intros H.
  destruct (uploadDocuments_returns files title description E s) as [_ Hout].
  destruct Hout as [_ Hui _ | ? ? _ _ Hui _ | ? ? ? ? _ _ _ Hui _
                   | ? ? ? ? _ _ _ _ Hui _ | ? ? ? nb ? _ _ _ _ Hui _ _ _ _ _];
    rewrite Hui; try exact H.
  unfold current_known, published_ui. cbn. now left.
Qed.

Lemma current_known_loadShipmentRequest id E s :
  current_known (ui s) ->
  current_known (ui (after (DocumentContext.loadShipmentRequest id) E s)).
Proof.
  intros H. unfold current_known in *.
  destruct (loadShipmentRequest_current id E s) as [[Hb Hc]|(b & Hc & Hb)];
    cbv zeta in *; rewrite Hc; [now rewrite Hb | exact Hb].
Qed.

Lemma current_known_perform a E s :
  current_known (ui s) -> current_known (ui (after (perform a) E s)).
Proof.
  intros H. destruct a as [form|files title description|id|item|h k v o|h|id data|rid st|];
    cbn [perform].
  - (* the upload form *)
    unfold after, bind.
    rewrite (handleStart_run form E s).
    destruct (_ || _); cbn [fst]; [exact H|].
    apply current_known_uploadDocuments. exact H.
  - now apply current_known_uploadDocuments.
  - now apply current_known_loadShipmentRequest.
  - (* a click in the history list *)
    unfold HistoryList.handleItemClick, after, bind, state.
    destruct (HistoryList.source item).
    + destruct (HistoryList.shipmentRequestId item) as [[|c r]|]; try exact H.
      now apply current_known_loadShipmentRequest.
    + destruct (find _ (batches (ui s))) as [b|] eqn:Hfind; [|exact H].
      unfold current_known. cbn. now apply find_some in Hfind.
  - (* a field loses the focus *)
    assert (Hui : ui (after (DataTable.handleFieldBlur h k v o ;; ret tt) E s)
                  = ui (after (DataTable.handleFieldBlur h k v o) E s)).
    { unfold after, bind, ret.
      now destruct (DataTable.handleFieldBlur h k v o E s) as [s1 [x|e]]. }
    rewrite Hui.
    destruct (handleFieldBlur_ui h k v o E s) as [->|[id ->]]; [exact H|].
    now apply current_known_updateDocumentData.
  - destruct (handleSubmitCompletion_ui h E s) as [->|[rid ->]]; [exact H|].
    now apply current_known_updateBatchStatus.
  - now apply current_known_updateDocumentData.
  - now apply current_known_updateBatchStatus.
  - exact H.
Qed.

(** X17.  As long as the user's actions are taken in turn, each handler
    having returned before the next action, the session keeps its two
    copies of a batch in step: whatever the actions, their order and the
    answers of the outside, the current batch stays one of the batches
    of the session.  (X28 shows that an action landing while a handler
    waits can break this.) *)
Theorem session_keeps_current_batch (l : list action) (E : Env) (s : Sys) :
  current_known (ui s) ->
  current_known (ui (after (perform_in_turn l) E s)).
Proof.
  revert s; induction l as [|a l IH]; intros s H; [exact H|].
  cbn [perform_in_turn]. unfold after, bind.
  pose proof (current_known_perform a E s H) as Ha. unfold after in Ha.
  destruct (perform a E s) as [s1 [[]|e]]; cbn [fst] in *; [|exact Ha].
  apply IH. exact Ha.
Qed.

Lemma session_keeps_current_batch_witness :
  current_known
    (ui (after (perform_in_turn
                  [ Upload [Fixture.inv_pdf] (lit "Batch A") None;
                    Blur false k_consigneeName (VString (lit "ACME")) (VString []);
                    Submit false;
                    Load (lit "r1");
                    Click ReviewFixture.done_item ])
               Fixture.E_ok Fixture.start)).
Proof.
  apply (session_keeps_current_batch
           [ Upload [Fixture.inv_pdf] (lit "Batch A") None;
             Blur false k_consigneeName (VString (lit "ACME")) (VString []);
             Submit false;
             Load (lit "r1");
             Click ReviewFixture.done_item ]
           Fixture.E_ok Fixture.start).
  simpl. exact I.
Defined.

(* ===================================================================== *)
(** * More on the upload *)
(* ===================================================================== *)

(** The symbolic run of [uploadDocuments]: one goal for every way the
    outside can answer. *)
Ltac upload_failure :=
  repeat (simpl;
          match goal with
          | |- context [auth_getUser ?E ?t] =>
              destruct (auth_getUser E t) as [[?|] ?]
          | |- context [select_error ?E ?t] => destruct (select_error E t)
          | |- context [log_error ?E ?t] => destruct (log_error E t)
          | |- context [find ?f ?l] => destruct (find f l)
          | |- context [str_eqb ?a ?b] => destruct (str_eqb a b)
          end);
  simpl.

(** X18.  An upload sends the files to the extraction endpoint in one
    request, all of them and in their order, and only once somebody is
    signed in, the record is created and every file has a supported
    type: a failure before that point sends no file anywhere. *)
Theorem upload_sends_files_once
    (files : list File) (title : jsstring) (description : option jsstring)
    (E : Env) (s : Sys) :
  extraction_requests (after (DocumentContext.uploadDocuments files title description) E s)
  = match principal (auth_getUser E (length (trace s))),
          insert_outcome E (S (length (trace s))),
          first_invalid files with
    | Some _, Inserted _ _, None =>
        Fetch (Api.API_BASE_URL E ++ lit "/process-documents")
              (map (fun file => (lit "files", file)) files)
        :: extraction_requests s
    | _, _, _ => extraction_requests s
    end.
Proof.
  Opaque lit.
  unfold after, extraction_requests, principal, DocumentContext.uploadDocuments.
  unfold_world. simpl.
  destruct (auth_getUser E (length (trace s))) as [u ae] eqn:Hauth.
  destruct ae as [ae|]; [upload_failure; reflexivity|].
  destruct u as [user_id|]; [|upload_failure; reflexivity].
  simpl.
  destruct (insert_outcome E (S (length (trace s)))) as [id created|message] eqn:Hins.
  2:{ destruct message; upload_failure; reflexivity. }
  simpl. rewrite validate_files_run.
  destruct (first_invalid files) as [file|] eqn:Hinv; [upload_failure; reflexivity|].
  simpl.
  destruct (log_error E _); simpl;
  destruct (log_error E _); simpl;
  match goal with
  | |- context [Api.processDocument files E ?s1] =>
      destruct (processDocument_total files E s1) as (r & Hr & Htag);
      rewrite Hr; clear Hr; destruct Htag as [[extracted ->]|[message ->]]
  end; simpl.
  all: try solve [ destruct message; upload_failure; reflexivity ].
  all: match goal with
  | extracted : OceanShipmentData |- context [mapM ?f ?l ?E' ?s1] =>
      destruct (mapM_quiet f
                  (fun file doc => fileName doc = name file /\ data doc = extracted) 2
                  (fun a E0 s0 => ex_intro _ _ (conj eq_refl (conj eq_refl eq_refl)))
                  l E' s1) as (docs & -> & Hdocs)
  end; simpl.
  all: destruct (log_error _ _); simpl; destruct (update_error _ _); simpl.
  all: reflexivity.
Qed.
Transparent lit.

(** X19.  When the store refuses to create the record of an upload, the
    catch block still looks up the most recent record of the user who is
    signed in and logs "processing failed" against it: the failure of
    the new upload lands in the log of an earlier record, which itself
    is left as it was. *)
Theorem failure_logged_on_latest_record
    (files : list File) (title : jsstring) (description : option jsstring)
    (E : Env) (s : Sys) (user_id message user_now : jsstring) (row : ShipmentRequest) :
  principal (auth_getUser E (length (trace s))) = Some user_id ->
  insert_outcome E (S (length (trace s))) = InsertFailed message ->
  user (auth_getUser E (2 + length (trace s))) = Some user_now ->
  select_error E (3 + length (trace s)) = None ->
  find (fun r => str_eqb (sr_user_id r) user_now) (shipment_requests (db s)) = Some row ->
  log_error E (4 + length (trace s)) = false ->
  let s' := after (DocumentContext.uploadDocuments files title description) E s in
  shipment_request_logs (db s') = failure_entry (sr_id row) :: shipment_request_logs (db s)
  /\ shipment_requests (db s') = shipment_requests (db s)
  /\ error (ui s')
     = Some (lit "Failed to create shipment request: "
             ++ or_default message (lit "Unknown error")).
Proof.
  Opaque lit.
  intros Hp Hins Hnow Hsel Hrow Hlog. cbv zeta.
  unfold after, principal, DocumentContext.uploadDocuments in *.
  unfold_world. simpl.
  destruct (auth_getUser E (length (trace s))) as [u ae] eqn:Hauth.
  cbn [authError user] in Hp.
  destruct ae as [ae|]; [discriminate|].
  destruct u as [uid|]; [|discriminate].
  simpl. rewrite Hins. simpl in *.
  destruct (auth_getUser E (S (S (length (trace s))))) as [u2 ae2].
  cbn [user] in Hnow. subst u2. simpl.
  rewrite Hsel. simpl. rewrite Hrow. simpl. rewrite Hlog. simpl.
  destruct message; repeat split; reflexivity.
Qed.
Transparent lit.

Lemma failure_logged_on_latest_record_witness :
  let s' := after (DocumentContext.uploadDocuments [Fixture.inv_pdf] (lit "Batch B") None)
                  UploadFixture.E_store_refuses UploadFixture.with_row0 in
  shipment_request_logs (db s')
  = failure_entry (sr_id UploadFixture.row0)
    :: shipment_request_logs (db UploadFixture.with_row0)
  /\ shipment_requests (db s') = shipment_requests (db UploadFixture.with_row0)
  /\ error (ui s')
     = Some (lit "Failed to create shipment request: "
             ++ or_default (lit "permission denied") (lit "Unknown error")).
Proof.
  apply (failure_logged_on_latest_record
           [Fixture.inv_pdf] (lit "Batch B") None
           UploadFixture.E_store_refuses UploadFixture.with_row0
           (lit "u1") (lit "permission denied") (lit "u1") UploadFixture.row0);
    reflexivity.
Defined.

Lemma Forall2_right {A B} (R : A -> B -> Prop) (P : B -> Prop) l1 l2 :
  (forall a b, R a b -> P b) -> Forall2 R l1 l2 -> Forall P l2.
Proof. intros H F. induction F; constructor; eauto. Qed.

(** The publication of a batch, with what the store then holds. *)
Lemma upload_published_run files title description E s user_id id created d :
  principal (auth_getUser E (length (trace s))) = Some user_id ->
  insert_outcome E (S (length (trace s))) = Inserted id created ->
  first_invalid files = None ->
  extraction E (4 + length (trace s)) files (succeeded d) ->
  let s' := after (DocumentContext.uploadDocuments files title description) E s in
  stored id (db s')
  = Some (match update_error E (6 + length (trace s)) with
          | None => reviewed_row id title description user_id created d
          | Some _ => pending_row id title description user_id created
          end)
  /\ exists b,
      ui s' = published_ui (ui s) b
      /\ status b = Some DocumentContext.needs_review
      /\ Forall (fun doc => data doc = d) (Types.files b).
Proof.
  Opaque lit.
  intros Hp Hins Hinv Hx. cbv zeta.
  unfold after, stored, principal, DocumentContext.uploadDocuments in *.
  unfold_world. simpl.
  destruct (auth_getUser E (length (trace s))) as [u ae] eqn:Hauth.
  cbn [authError user] in Hp.
  destruct ae as [ae|]; [discriminate|].
  destruct u as [uid|]; [|discriminate].
  injection Hp as ->.
  simpl. rewrite Hins. simpl. rewrite validate_files_run, Hinv. simpl.
  destruct (log_error E _); simpl;
  destruct (log_error E _); simpl;
  match goal with
  | |- context [Api.processDocument files E ?s1] =>
      destruct (processDocument_total files E s1) as (r & Hr & _);
      pose proof (Hx s1 eq_refl) as Hd; unfold result in Hd;
      rewrite Hr in Hd; cbn [snd] in Hd; injection Hd as ->;
      rewrite Hr; clear Hr
  end; simpl.
  all: match goal with
  | |- context [mapM ?f ?l ?E' ?s1] =>
      destruct (mapM_quiet f
                  (fun file doc => fileName doc = name file /\ data doc = d) 2
                  (fun a E0 s0 => ex_intro _ _ (conj eq_refl (conj eq_refl eq_refl)))
                  l E' s1) as (docs & -> & Hdocs)
  end; simpl.
  all: apply (Forall2_right _ (fun doc => data doc = d)) in Hdocs; [|now intros a b [_ H]].
  all: destruct (log_error _ _); simpl; destruct (update_error _ _); simpl.
  all: rewrite ?str_eqb_refl.
  all: split; [reflexivity|].
  all: match goal with
       | |- exists b, {| batches := ?nb :: _ |} = _ /\ _ => exists nb
       end; split; [reflexivity|]; split; [reflexivity | exact Hdocs].
Qed.
Transparent lit.

(** X20.  The batch of a successful extraction is shown for review
    whether or not the store took the result: when the final update of
    the record fails, the session holds the batch in [needs review] with
    the extracted data, while the record in the store stays [pending]
    with no data. *)
Theorem upload_store_may_lag
    (files : list File) (title : jsstring) (description : option jsstring)
    (E : Env) (s : Sys) (user_id id : jsstring) (created : option Z)
    (d : OceanShipmentData) :
  principal (auth_getUser E (length (trace s))) = Some user_id ->
  insert_outcome E (S (length (trace s))) = Inserted id created ->
  first_invalid files = None ->
  extraction E (4 + length (trace s)) files (succeeded d) ->
  let s' := after (DocumentContext.uploadDocuments files title description) E s in
  (exists b,
      currentBatch (ui s') = Some b
      /\ status b = Some DocumentContext.needs_review
      /\ Forall (fun doc => data doc = d) (Types.files b))
  /\ (update_error E (6 + length (trace s)) = None ->
      exists row, stored id (db s') = Some row
                  /\ sr_status row = DocumentContext.needs_review
                  /\ sr_extracted_data row = Some d)
  /\ (update_error E (6 + length (trace s)) <> None ->
      exists row, stored id (db s') = Some row
                  /\ sr_status row = lit "pending"
                  /\ sr_extracted_data row = None).
Proof.
  intros Hp Hins Hinv Hx.
  destruct (upload_published_run files title description E s user_id id created d
              Hp Hins Hinv Hx) as (Hstored & b & Hui & Hst & Hdata).
  cbv zeta in *. split; [|split].
  - exists b. rewrite Hui. auto.
  - intros Hu. rewrite Hu in Hstored. eexists. split; [exact Hstored|].
    split; reflexivity.
  - intros Hu. destruct (update_error E (6 + length (trace s))); [|congruence].
    eexists. split; [exact Hstored|]. split; reflexivity.
Qed.

Lemma upload_store_may_lag_witness :
  let s' := after (DocumentContext.uploadDocuments [Fixture.inv_pdf] (lit "Batch A") None)
                  UploadFixture.E_update_fails Fixture.start in
  (exists b,
      currentBatch (ui s') = Some b
      /\ status b = Some DocumentContext.needs_review
      /\ Forall (fun doc => data doc = UploadFixture.extracted) (Types.files b))
  /\ (update_error UploadFixture.E_update_fails (6 + length (trace Fixture.start)) = None ->
      exists row, stored (lit "r1") (db s') = Some row
                  /\ sr_status row = DocumentContext.needs_review
                  /\ sr_extracted_data row = Some UploadFixture.extracted)
  /\ (update_error UploadFixture.E_update_fails (6 + length (trace Fixture.start)) <> None ->
      exists row, stored (lit "r1") (db s') = Some row
                  /\ sr_status row = lit "pending"
                  /\ sr_extracted_data row = None).
Proof.
  apply (upload_store_may_lag [Fixture.inv_pdf] (lit "Batch A") None
           UploadFixture.E_update_fails Fixture.start
           (lit "u1") (lit "r1") (Some 1000%Z) UploadFixture.extracted).
  - reflexivity.
  - reflexivity.
  - reflexivity.
  - intros s1 H. vm_compute. reflexivity.
Defined.

(* ===================================================================== *)
(** * Callbacks and their render *)
(* ===================================================================== *)

(** The callbacks of the latest render are those that saw the state of
    the moment. *)
Lemma updateBatchStatus_latest rid st E s :
  DocumentContext.updateBatchStatus rid st E s
  = DocumentContext.updateBatchStatus_of (currentBatch (ui s)) rid st E s.
Proof. reflexivity. Qed.

Lemma loadShipmentRequest_latest id E s :
  DocumentContext.loadShipmentRequest id E s
  = DocumentContext.loadShipmentRequest_of (batches (ui s)) id E s.
Proof.
  unfold DocumentContext.loadShipmentRequest, DocumentContext.loadShipmentRequest_of,
    DocumentContext.load_request, DocumentContext.load_resume.
  unfold_world. simpl.
  destruct (select_error E (length (trace s))); simpl; [reflexivity|].
  destruct (find _ (shipment_requests (db s))); simpl; [|reflexivity].
  destruct (find _ (batches (ui s))); reflexivity.
Qed.

Lemma handleSubmitCompletion_latest hasErrors E s :
  DataTable.handleSubmitCompletion hasErrors E s
  = DataTable.handleSubmitCompletion_of (currentBatch (ui s)) (ret tt) hasErrors E s.
Proof.
  unfold DataTable.handleSubmitCompletion, DataTable.handleSubmitCompletion_of.
  unfold bind at 1. unfold state at 1. cbv beta iota.
  destruct (currentBatch (ui s)) as [[? ? ? ? ? ? ? [[|c r]|]]|] eqn:Hcb;
    try reflexivity.
  destruct hasErrors; [reflexivity|].
  unfold try_catch, bind, getUser, update_shipment_request, insert_log, ret,
    with_db, emit.
  destruct (auth_getUser E (length (trace s))) as [[uid|] ae];
    cbn [user]; [|reflexivity].
  cbn [db trace fresh ui length].
  destruct (update_error E (S (length (trace s)))); [reflexivity|].
  cbn [db trace fresh ui length].
  destruct (log_error E (S (S (length (trace s)))));
    rewrite updateBatchStatus_latest; cbn [ui]; rewrite Hcb; reflexivity.
Qed.

Lemma filter_none {A} (p : A -> bool) l : find p l = None -> filter p l = [].
Proof.
  induction l as [|a l IH]; [reflexivity|]. cbn [find filter].
  destruct (p a); [discriminate | exact IH].
Qed.

(* ===================================================================== *)
(** * Loading a record *)
(* ===================================================================== *)

Lemma loadShipmentRequest_found id E s row :
  in_memory id (ui s) = None ->
  select_error E (length (trace s)) = None ->
  stored id (db s) = Some row ->
  exists b doc,
    ui (after (DocumentContext.loadShipmentRequest id) E s) = published_ui (ui s) b
    /\ Types.id b = id
    /\ shipmentRequestId b = Some id
    /\ Types.title b = sr_title row
    /\ description b = sr_description row
    /\ status b = Some (sr_status row)
    /\ uploadedAt b = sr_created_at row
    /\ fileCount b = 1%nat
    /\ files b = [doc]
    /\ doc_id doc = randomUUID E (fresh s)
    /\ data doc = match sr_extracted_data row with
                  | Some d => d
                  | None => DocumentContext.defaultData
                  end.
Proof.
  unfold in_memory, stored. intros Hmem Hsel Hrow.
  unfold after, DocumentContext.loadShipmentRequest. unfold_world. simpl.
  rewrite Hsel. simpl. rewrite Hrow. simpl. rewrite Hmem. simpl.
  match goal with
  | |- exists b doc, {| batches := ?nb :: _; currentDocument := Some ?d0 |} = _ /\ _ =>
      exists nb, d0
  end.
  split; [reflexivity|]. repeat split; reflexivity.
Qed.

(** X21.  For a record id that the session does not hold,
    [loadShipmentRequest] sends its one read and writes nothing to the
    store.  When the read fails or finds no row, only the error is set.
    When it finds a row, a batch of that record is put in front of the
    batches and made current: it carries the id of the record as its own,
    the title, description, status and date of the row and one document,
    whose data is the stored extracted data, or eight empty strings when
    the row has none. *)
Theorem loadShipmentRequest_from_store (id : jsstring) (E : Env) (s : Sys) :
  in_memory id (ui s) = None ->
  let s' := after (DocumentContext.loadShipmentRequest id) E s in
  trace s' = SelectShipmentRequest id :: trace s
  /\ db s' = db s
  /\ (select_error E (length (trace s)) <> None \/ stored id (db s) = None ->
      ui s' = failed_ui (ui s) (lit "Failed to load shipment request"))
  /\ (forall row,
         select_error E (length (trace s)) = None ->
         stored id (db s) = Some row ->
         exists b doc,
           ui s' = published_ui (ui s) b
           /\ Types.id b = id
           /\ shipmentRequestId b = Some id
           /\ Types.title b = sr_title row
           /\ description b = sr_description row
           /\ status b = Some (sr_status row)
           /\ uploadedAt b = sr_created_at row
           /\ fileCount b = 1%nat
           /\ files b = [doc]
           /\ doc_id doc = randomUUID E (fresh s)
           /\ data doc = match sr_extracted_data row with
                         | Some d => d
                         | None => DocumentContext.defaultData
                         end).
Proof.
  intros Hmem. cbv zeta.
  split; [|split; [|split]].
  - unfold after, DocumentContext.loadShipmentRequest. unfold_world. simpl.
    world_cases; reflexivity.
  - unfold after, DocumentContext.loadShipmentRequest. unfold_world. simpl.
    world_cases; reflexivity.
  - unfold stored.
    unfold after, DocumentContext.loadShipmentRequest. unfold_world. simpl.
    destruct (select_error E (length (trace s))); simpl; [reflexivity|].
    destruct (find (fun r => str_eqb (sr_id r) id) (shipment_requests (db s)));
      simpl; [|reflexivity].
    intros [H|H]; congruence.
  - intros row Hsel Hrow. now apply loadShipmentRequest_found.
Qed.

Lemma str_eqb_sym a b : str_eqb a b = str_eqb b a.
Proof.
  revert b; induction a as [|x a IH]; intros [|y b]; simpl; try reflexivity.
  now rewrite N.eqb_sym, IH.
Qed.

(** X22.  [loadShipmentRequest] adds a batch of the requested record
    exactly when the read finds the row and the batches that the render
    of the callback saw hold none of that record; the batches of every
    other record stay as many as they were.  So a call from the latest
    render, which no other call overlaps, never gives a record a second
    batch: the number of its batches stays as it was, or goes from none
    to one.  A call from a render that did not see the record yet adds
    one more, whatever the session holds by then. *)
Theorem loadShipmentRequest_adds_by_render
    (seen : list ProcessBatch) (id : jsstring) (E : Env) (s : Sys) :
  let s' := after (DocumentContext.loadShipmentRequest_of seen id) E s in
  (batches_of id (ui s') = batches_of id (ui s)
   \/ (select_error E (length (trace s)) = None
       /\ (exists row, stored id (db s) = Some row)
       /\ find (fun b => DocumentContext.opt_eqb (shipmentRequestId b) id) seen = None
       /\ batches_of id (ui s') = S (batches_of id (ui s))))
  /\ (select_error E (length (trace s)) = None ->
      (exists row, stored id (db s) = Some row) ->
      find (fun b => DocumentContext.opt_eqb (shipmentRequestId b) id) seen = None ->
      batches_of id (ui s') = S (batches_of id (ui s)))
  /\ (forall other, other <> id -> batches_of other (ui s') = batches_of other (ui s))
  /\ (seen = batches (ui s) ->
      s' = after (DocumentContext.loadShipmentRequest id) E s
      /\ (batches_of id (ui s') = batches_of id (ui s)
          \/ (batches_of id (ui s) = 0%nat /\ batches_of id (ui s') = 1%nat))).
Proof.
  cbv zeta.
  assert (Hlatest : seen = batches (ui s) ->
                    after (DocumentContext.loadShipmentRequest_of seen id) E s
                    = after (DocumentContext.loadShipmentRequest id) E s).
  { intros ->. unfold after. now rewrite loadShipmentRequest_latest. }
  assert (Hzero : seen = batches (ui s) ->
                  find (fun b => DocumentContext.opt_eqb (shipmentRequestId b) id) seen
                  = None ->
                  batches_of id (ui s) = 0%nat).
  { intros -> H. unfold batches_of. now rewrite (filter_none _ _ H). }
  revert Hlatest Hzero. unfold batches_of, stored.
  unfold after, DocumentContext.loadShipmentRequest_of, DocumentContext.load_request,
    DocumentContext.load_resume.
  unfold_world. simpl.
  destruct (select_error E (length (trace s))); simpl.
  { intros Hlatest Hzero. split; [left; reflexivity|]. split; [discriminate|].
    split; [reflexivity|]. intros Hs. split; [now apply Hlatest | left; reflexivity]. }
  destruct (find _ (shipment_requests (db s))) as [found|]; simpl.
  2:{ intros Hlatest Hzero. split; [left; reflexivity|].
      split; [intros _ [row Hrow]; discriminate Hrow|].
      split; [reflexivity|].
      intros Hs. split; [now apply Hlatest | left; reflexivity]. }
  destruct (find _ seen) as [existing|] eqn:Hfind; simpl.
  { intros Hlatest Hzero. split; [left; reflexivity|]. split; [discriminate|].
    split; [reflexivity|]. intros Hs. split; [now apply Hlatest | left; reflexivity]. }
  rewrite str_eqb_refl. cbn [length].
  intros Hlatest Hzero.
  split; [right; split; [reflexivity|split; [now exists found|split; reflexivity]]|].
  split; [reflexivity|]. split.
  - intros other Hne. rewrite str_eqb_sym.
    destruct (str_eqb other id) eqn:Heq; [|reflexivity].
    apply str_eqb_eq in Heq. contradiction.
  - intros Hs. split; [now apply Hlatest|]. right.
    specialize (Hzero Hs eq_refl). unfold batches_of in Hzero. rewrite Hzero.
    split; reflexivity.
Qed.

(** X23.  What an upload published is found again when the page is
    reopened and the record loaded: a batch with the title and the
    description of the upload and one document.  When the final update
    of the upload had succeeded, it is in [needs review] with the
    extracted data; when it had failed, it is [pending] and its data is
    eight empty strings: the extraction result is lost.  The uploaded
    files and their number are not found again in either case. *)
Theorem upload_then_reload
    (files : list File) (title : jsstring) (description : option jsstring)
    (E : Env) (s : Sys) (user_id id : jsstring) (created : option Z)
    (d : OceanShipmentData) :
  principal (auth_getUser E (length (trace s))) = Some user_id ->
  insert_outcome E (S (length (trace s))) = Inserted id created ->
  first_invalid files = None ->
  extraction E (4 + length (trace s)) files (succeeded d) ->
  let s1 := after (DocumentContext.uploadDocuments files title description) E s in
  select_error E (length (trace s1)) = None ->
  let s2 := after (DocumentContext.loadShipmentRequest id) E (reopened s1) in
  exists b doc,
    ui s2 = published_ui Fixture.blank b
    /\ shipmentRequestId b = Some id
    /\ Types.title b = title
    /\ Types.description b = DocumentContext.or_null description
    /\ fileCount b = 1%nat
    /\ Types.files b = [doc]
    /\ status b = Some (match update_error E (6 + length (trace s)) with
                        | None => DocumentContext.needs_review
                        | Some _ => lit "pending"
                        end)
    /\ data doc = match update_error E (6 + length (trace s)) with
                  | None => d
                  | Some _ => DocumentContext.defaultData
                  end.
Proof.
  intros Hp Hins Hinv Hx. cbv zeta. intros Hsel.
  destruct (upload_published_run files title description E s user_id id created d
              Hp Hins Hinv Hx) as (Hstored & _).
  cbv zeta in Hstored.
  set (s1 := after (DocumentContext.uploadDocuments files title description) E s) in *.
  destruct (loadShipmentRequest_found id E (reopened s1) _ eq_refl Hsel Hstored)
    as (b & doc & Hui & _ & Hrid & Htitle & Hdesc & Hst & _ & Hcount & Hfiles & _ & Hdata).
  exists b, doc. rewrite Hui, Hrid, Htitle, Hdesc, Hst, Hcount, Hfiles, Hdata.
  destruct (update_error E (6 + length (trace s))); repeat split; reflexivity.
Qed.

Lemma loadShipmentRequest_from_store_witness :
  let s := reopened StoreFixture.session in
  let s' := after (DocumentContext.loadShipmentRequest (lit "r1")) Fixture.E_ok s in
  trace s' = SelectShipmentRequest (lit "r1") :: trace s
  /\ db s' = db s
  /\ (select_error Fixture.E_ok (length (trace s)) <> None
      \/ stored (lit "r1") (db s) = None ->
      ui s' = failed_ui (ui s) (lit "Failed to load shipment request"))
  /\ (forall row,
         select_error Fixture.E_ok (length (trace s)) = None ->
         stored (lit "r1") (db s) = Some row ->
         exists b doc,
           ui s' = published_ui (ui s) b
           /\ Types.id b = lit "r1"
           /\ shipmentRequestId b = Some (lit "r1")
           /\ Types.title b = sr_title row
           /\ description b = sr_description row
           /\ status b = Some (sr_status row)
           /\ uploadedAt b = sr_created_at row
           /\ fileCount b = 1%nat
           /\ files b = [doc]
           /\ doc_id doc = randomUUID Fixture.E_ok (fresh s)
           /\ data doc = match sr_extracted_data row with
                         | Some d => d
                         | None => DocumentContext.defaultData
                         end).
Proof.
  apply (loadShipmentRequest_from_store (lit "r1") Fixture.E_ok
           (reopened StoreFixture.session)).
  reflexivity.
Defined.

Lemma upload_then_reload_witness :
  let s1 := after (DocumentContext.uploadDocuments [Fixture.inv_pdf] (lit "Batch A") None)
                  Fixture.E_ok Fixture.start in
  let s2 := after (DocumentContext.loadShipmentRequest (lit "r1")) Fixture.E_ok
                  (reopened s1) in
  exists b doc,
    ui s2 = published_ui Fixture.blank b
    /\ shipmentRequestId b = Some (lit "r1")
    /\ Types.title b = lit "Batch A"
    /\ Types.description b = DocumentContext.or_null None
    /\ fileCount b = 1%nat
    /\ Types.files b = [doc]
    /\ status b = Some (match update_error Fixture.E_ok (6 + length (trace Fixture.start)) with
                        | None => DocumentContext.needs_review
                        | Some _ => lit "pending"
                        end)
    /\ data doc = match update_error Fixture.E_ok (6 + length (trace Fixture.start)) with
                  | None => UploadFixture.extracted
                  | Some _ => DocumentContext.defaultData
                  end.
Proof.
  apply (upload_then_reload [Fixture.inv_pdf] (lit "Batch A") None
           Fixture.E_ok Fixture.start
           (lit "u1") (lit "r1") (Some 1000%Z) UploadFixture.extracted).
  - reflexivity.
  - reflexivity.
  - reflexivity.
  - intros s1 H. vm_compute. reflexivity.
  - reflexivity.
Defined.

(* ===================================================================== *)
(** * The review form *)
(* ===================================================================== *)

Lemma find_map_same {A} (p : A -> bool) (f : A -> A) l :
  (forall x, p (f x) = p x) -> find p (map f l) = option_map f (find p l).
Proof.
  intros H. induction l as [|x l IH]; [reflexivity|].
  cbn [map find]. rewrite H. destruct (p x); [reflexivity | exact IH].
Qed.

(** The records after the store took the completion of [rid]. *)
Lemma completed_rows rid rows :
  map sr_status
    (map (fun r : ShipmentRequest =>
            if str_eqb (sr_id r) rid then
              {| sr_id := sr_id r; sr_title := sr_title r;
                 sr_description := sr_description r;
                 sr_status := DataTable.completed;
                 sr_extracted_data := sr_extracted_data r;
                 sr_user_id := sr_user_id r; sr_created_at := sr_created_at r |}
            else r) rows)
  = map (fun r => if str_eqb (sr_id r) rid then DataTable.completed else sr_status r) rows
  /\ map sr_extracted_data
       (map (fun r : ShipmentRequest =>
               if str_eqb (sr_id r) rid then
                 {| sr_id := sr_id r; sr_title := sr_title r;
                    sr_description := sr_description r;
                    sr_status := DataTable.completed;
                    sr_extracted_data := sr_extracted_data r;
                    sr_user_id := sr_user_id r; sr_created_at := sr_created_at r |}
               else r) rows)
     = map sr_extracted_data rows.
Proof.
  rewrite !map_map. split; apply map_ext; intros row;
    destruct (str_eqb (sr_id row) rid); reflexivity.
Qed.

Lemma mirror_same rid st b :
  shipmentRequestId b = Some rid -> mirror rid st b = DocumentContext.set_status b st.
Proof.
  intros H. unfold mirror, DocumentContext.opt_eqb. now rewrite H, str_eqb_refl.
Qed.

(** X24.  In a run that no other handler overlaps, the session marks a
    batch completed only after the store has taken the completion, and
    it does so whenever the store has.  With
    validation errors, or without a record id on the current batch,
    nothing is sent and nothing changes.  When nobody is signed in, or
    the store refuses the update, the session and the store stay as they
    were.  Otherwise, with a user signed in and the update accepted, the
    record of the current batch is completed in the store, its extracted
    data untouched, the log entry is written unless the log refuses it,
    and the batches of the record and the current batch are completed in
    the session. *)
Theorem completion_waits_for_store (hasErrors : bool) (E : Env) (s : Sys) :
  let s' := after (DataTable.handleSubmitCompletion hasErrors) E s in
  (hasErrors = true -> s' = s)
  /\ ((ui s' = ui s /\ shipment_requests (db s') = shipment_requests (db s))
      \/ exists cb rid user_id,
          currentBatch (ui s) = Some cb
          /\ shipmentRequestId cb = Some rid
          /\ hasErrors = false
          /\ user (auth_getUser E (length (trace s))) = Some user_id
          /\ update_error E (S (length (trace s))) = None
          /\ ui s' = ui (after (DocumentContext.updateBatchStatus rid DataTable.completed) E s)
          /\ map sr_status (shipment_requests (db s'))
             = map (fun r => if str_eqb (sr_id r) rid
                             then DataTable.completed else sr_status r)
                   (shipment_requests (db s))
          /\ map sr_extracted_data (shipment_requests (db s'))
             = map sr_extracted_data (shipment_requests (db s)))
  /\ (forall cb rid user_id,
         hasErrors = false ->
         currentBatch (ui s) = Some cb ->
         shipmentRequestId cb = Some rid ->
         rid <> [] ->
         user (auth_getUser E (length (trace s))) = Some user_id ->
         update_error E (S (length (trace s))) = None ->
         trace s' = InsertLog rid DataTable.completed user_id
                    :: UpdateShipmentRequest rid :: AuthGetUser :: trace s
         /\ map sr_status (shipment_requests (db s'))
            = map (fun r => if str_eqb (sr_id r) rid
                            then DataTable.completed else sr_status r)
                  (shipment_requests (db s))
         /\ map sr_extracted_data (shipment_requests (db s'))
            = map sr_extracted_data (shipment_requests (db s))
         /\ shipment_request_logs (db s')
            = (if log_error E (2 + length (trace s)) then []
               else [ {| log_shipment_request_id := rid;
                         log_status := DataTable.completed;
                         log_actor := user_id; log_payload := None |} ])
              ++ shipment_request_logs (db s)
         /\ batches (ui s') = map (mirror rid DataTable.completed) (batches (ui s))
         /\ currentBatch (ui s')
            = Some (DocumentContext.set_status cb DataTable.completed)
         /\ currentDocument (ui s') = currentDocument (ui s)
         /\ error (ui s') = error (ui s))
  /\ (hasErrors = false ->
      (forall cb rid, currentBatch (ui s) = Some cb ->
                      shipmentRequestId cb = Some rid -> rid = []) ->
      s' = s)
  /\ (forall cb rid,
         hasErrors = false ->
         currentBatch (ui s) = Some cb ->
         shipmentRequestId cb = Some rid ->
         rid <> [] ->
         user (auth_getUser E (length (trace s))) = None ->
         ui s' = ui s /\ db s' = db s /\ trace s' = AuthGetUser :: trace s)
  /\ (forall cb rid user_id,
         hasErrors = false ->
         currentBatch (ui s) = Some cb ->
         shipmentRequestId cb = Some rid ->
         rid <> [] ->
         user (auth_getUser E (length (trace s))) = Some user_id ->
         update_error E (S (length (trace s))) <> None ->
         ui s' = ui s /\ db s' = db s
         /\ trace s' = UpdateShipmentRequest rid :: AuthGetUser :: trace s).
Proof.
  cbv zeta.
  change (2 + length (trace s))%nat with (S (S (length (trace s)))).
  unfold after, DataTable.handleSubmitCompletion. unfold_world. simpl.
  destruct (currentBatch (ui s)) as [[bid bt bd bst bf bat bc [[|c r]|]]|] eqn:Hcb.
  1,3,4: split; [reflexivity|]; (split; [left; split; reflexivity|]);
    (split; [intros cb rid uid _ H1 H2 H3; try discriminate H1;
             injection H1 as <-; cbn in H2; try discriminate H2;
             injection H2 as <-; contradiction|]);
    (split; [reflexivity|]);
    (split; intros; try discriminate;
     match goal with
     | H1 : Some _ = Some ?cb, H2 : shipmentRequestId ?cb = Some ?rid |- _ =>
         injection H1 as <-; cbn in H2; try discriminate H2;
         injection H2 as <-; contradiction
     end).
  destruct hasErrors.
  { split; [reflexivity|]. split; [left; split; reflexivity|].
    repeat split; intros; discriminate. }
  split; [discriminate|].
  destruct (auth_getUser E (length (trace s))) as [[uid|] ae] eqn:Hauth; simpl.
  2:{ split; [left; split; reflexivity|].
      split; [intros cb rid uid _ _ _ _ H; discriminate H|].
      split; [intros _ H; specialize (H _ _ eq_refl eq_refl); discriminate H|].
      split; [intros cb rid _ _ _ _ _; repeat split; destruct s; reflexivity|].
      intros cb rid uid _ _ _ _ H; discriminate H. }
  destruct (update_error E (S (length (trace s)))) as [msg|] eqn:Hupd; simpl.
  { split; [left; split; reflexivity|].
    split; [intros cb rid uid' _ _ _ _ _ H; discriminate H|].
    split; [intros _ H; specialize (H _ _ eq_refl eq_refl); discriminate H|].
    split; [intros cb rid _ _ _ _ H; discriminate H|].
    intros cb rid uid' _ H1 H2 _ _ _. injection H1 as <-. cbn in H2.
    injection H2 as <-. repeat split; destruct s as [[? ?] ? ? ?]; reflexivity. }
  pose proof (completed_rows (c :: r) (shipment_requests (db s))) as [Hst Hdata].
  split.
  { right. eexists _, (c :: r), uid.
    do 5 (split; [reflexivity|]).
    destruct (log_error E _); simpl; rewrite !updateBatchStatus_run; simpl;
      (split; [reflexivity|]); split; assumption. }
  split.
  { intros cb rid uid' _ H1 H2 _ H3 _. injection H1 as <-. cbn in H2.
    injection H2 as <-. injection H3 as <-.
    destruct (log_error E (S (S (length (trace s))))); simpl;
      rewrite !updateBatchStatus_run; simpl; rewrite Hcb;
      cbn [option_map]; rewrite (mirror_same (c :: r)) by reflexivity;
      repeat split; assumption. }
  split; [intros _ H; specialize (H _ _ eq_refl eq_refl); discriminate H|].
  split; [intros cb rid _ _ _ _ H; discriminate H|].
  intros cb rid uid' _ _ _ _ _ H. contradiction.
Qed.

(** The completion of record [r1], in review with user [u1] signed in. *)
Example completion_in_review :
  let s' := after (DataTable.handleSubmitCompletion false)
                  Fixture.E_ok ReviewFixture.in_review in
  map sr_status (shipment_requests (db s')) = [lit "completed"]
  /\ option_map status (currentBatch (ui s')) = Some (Some (lit "completed"))
  /\ map status (batches (ui s')) = [Some (lit "completed")]
  /\ map log_status (shipment_request_logs (db s')) = [lit "completed"].
Proof.
  cbv zeta. repeat split; reflexivity.
Qed.


(** X25.  A blur does nothing at all, neither to the session nor to the
    store, and sends nothing, while the form has validation errors, once
    the current batch is completed, or when the field holds the value
    last committed. *)
Theorem handleFieldBlur_guarded
    (hasErrors : bool) (fieldKey : FieldKey) (currentValue oldValue : value)
    (E : Env) (s : Sys) :
  hasErrors || DataTable.isCompleted (ui s)
  || DataTable.strict_equal oldValue currentValue = true ->
  DataTable.handleFieldBlur hasErrors fieldKey currentValue oldValue E s
  = (s, Normal None).
Proof.
  intros H. unfold DataTable.handleFieldBlur, bind, state, ret.
  destruct (hasErrors || DataTable.isCompleted (ui s)); [reflexivity|].
  cbn [orb] in H. now rewrite H.
Qed.

Lemma handleFieldBlur_guarded_witness :
  DataTable.handleFieldBlur false k_consigneeName (VString (lit "ACME"))
    (VString []) Fixture.E_ok StoreFixture.reviewing
  = (StoreFixture.reviewing, Normal None).
Proof.
  apply (handleFieldBlur_guarded false k_consigneeName (VString (lit "ACME"))
           (VString []) Fixture.E_ok StoreFixture.reviewing).
  reflexivity.
Defined.

(** The session after a blur that passed the guards. *)
Lemma handleFieldBlur_memory h k v o E s doc :
  h || DataTable.isCompleted (ui s) = false ->
  DataTable.strict_equal o v = false ->
  DataTable.currentDocument (ui s) = Some doc ->
  ui (after (DataTable.handleFieldBlur h k v o) E s)
  = ui (after (DocumentContext.updateDocumentData (doc_id doc) (one_key k v)) E s).
Proof.
  intros Hg Heq Hdoc.
  unfold after, DataTable.handleFieldBlur, try_catch, bind, state,
    select_shipment_request, update_extracted_data, getUser, insert_log, ret,
    with_db, emit.
  cbv beta iota. rewrite Hg, Heq, Hdoc.
  rewrite !updateDocumentData_run. unfold with_ui.
  destruct (currentBatch (ui s)) as [[? ? ? ? ? ? ? [[|c r]|]]|];
    try reflexivity.
  world_cases; reflexivity.
Qed.

Lemma get_field_spread_same k v d : get_field k (spread d (one_key k v)) = v.
Proof. now destruct k. Qed.

Lemma get_field_spread_other k k' v d :
  k' <> k -> get_field k' (spread d (one_key k v)) = get_field k' d.
Proof. intros H. destruct k, k'; try reflexivity; contradiction. Qed.

(** X26.  A blur that passes the guards saves the edit in the session
    first and for good: whatever the store, the identity provider and
    the log answer, the document of the form then holds the new value in
    the field and its former values in the other fields. *)
Theorem handleFieldBlur_saves_locally
    (hasErrors : bool) (fieldKey : FieldKey) (currentValue oldValue : value)
    (E : Env) (s : Sys) (doc : ProcessedDocument) :
  hasErrors || DataTable.isCompleted (ui s) = false ->
  DataTable.strict_equal oldValue currentValue = false ->
  DataTable.currentDocument (ui s) = Some doc ->
  let s' := after (DataTable.handleFieldBlur hasErrors fieldKey currentValue oldValue)
                  E s in
  exists doc',
    DataTable.currentDocument (ui s') = Some doc'
    /\ doc_id doc' = doc_id doc
    /\ get_field fieldKey (data doc') = currentValue
    /\ (forall other, other <> fieldKey ->
                      get_field other (data doc') = get_field other (data doc)).
Proof.
  intros Hg Heq Hdoc. cbv zeta.
  rewrite (handleFieldBlur_memory _ _ _ _ E s doc Hg Heq Hdoc).
  unfold after. rewrite updateDocumentData_run.
  unfold DataTable.currentDocument in *. cbn.
  destruct (currentBatch (ui s)) as [cb|]; [|discriminate].
  cbn. destruct (files cb) as [|d0 rest]; [discriminate|].
  cbn in Hdoc. injection Hdoc as ->. cbn.
  unfold DocumentContext.merge_doc. rewrite str_eqb_refl.
  eexists. split; [reflexivity|]. cbn. split; [reflexivity|]. split.
  - apply get_field_spread_same.
  - intros other Hne. now apply get_field_spread_other.
Qed.

(** X27.  A blur that passes the guards, for a batch with a record in
    the store, rewrites the stored extracted data of that record with
    the one field replaced, from what the store holds at that moment and
    not from what the session holds; the status of the record is left
    alone.  The edit is reported as committed when somebody is signed in
    for the log entry.  When the read or the update of the record fails,
    the records stay as they were. *)
Theorem handleFieldBlur_persists_one_field
    (hasErrors : bool) (fieldKey : FieldKey) (currentValue oldValue : value)
    (E : Env) (s : Sys) (doc : ProcessedDocument) (cb : ProcessBatch)
    (rid : jsstring) (row : ShipmentRequest) :
  hasErrors || DataTable.isCompleted (ui s) = false ->
  DataTable.strict_equal oldValue currentValue = false ->
  currentBatch (ui s) = Some cb ->
  hd_error (files cb) = Some doc ->
  shipmentRequestId cb = Some rid ->
  rid <> [] ->
  stored rid (db s) = Some row ->
  let run := DataTable.handleFieldBlur hasErrors fieldKey currentValue oldValue in
  let before := match sr_extracted_data row with
                | Some d => d
                | None => empty_object
                end in
  (select_error E (length (trace s)) = None ->
   update_error E (S (length (trace s))) = None ->
   (exists row' d',
       stored rid (db (after run E s)) = Some row'
       /\ sr_status row' = sr_status row
       /\ sr_extracted_data row' = Some d'
       /\ get_field fieldKey d' = currentValue
       /\ (forall other, other <> fieldKey ->
                         get_field other d' = get_field other before))
   /\ result run E s
      = Normal (match user (auth_getUser E (2 + length (trace s))) with
                | Some _ =>
                    Some {| DataTable.edit_field := fieldKey;
                            DataTable.old_value :=
                              if truthy oldValue then oldValue else VString [];
                            DataTable.new_value := currentValue |}
                | None => None
                end))
  /\ (select_error E (length (trace s)) <> None
      \/ update_error E (S (length (trace s))) <> None ->
      shipment_requests (db (after run E s)) = shipment_requests (db s)
      /\ result run E s = Normal None).
Proof.
  intros Hg Heq Hcb Hdoc Hrid Hne Hrow. cbv zeta.
  assert (Hcd : DataTable.currentDocument (ui s) = Some doc)
    by (unfold DataTable.currentDocument; now rewrite Hcb).
  destruct rid as [|c r]; [contradiction|].
  destruct cb as [bid btitle bdesc bst bfiles bat bcount brid].
  cbn [shipmentRequestId] in Hrid. subst brid.
  unfold stored in *.
  change (2 + length (trace s))%nat with (S (S (length (trace s)))).
  unfold after, result, DataTable.handleFieldBlur, try_catch, bind, state,
    select_shipment_request, update_extracted_data, getUser, insert_log, ret,
    with_db, emit.
  cbv beta iota. rewrite Hg, Heq, Hcd, Hcb.
  rewrite !updateDocumentData_run. unfold with_ui.
  cbn [db trace fresh ui length fst snd].
  split.
  - intros Hsel Hupd. rewrite Hsel. cbn [db trace fresh ui length fst snd].
    rewrite Hrow. cbn [resp_error resp_data db trace fresh ui length fst snd].
    rewrite Hupd. cbn [db trace fresh ui length fst snd].
    destruct (auth_getUser E (S (S (length (trace s))))) as [[uid|] ae];
      cbn [user db trace fresh ui length fst snd];
      [destruct (log_error E _); cbn [db trace fresh ui length fst snd
                                     shipment_requests shipment_request_logs]|].
    all: split; [|reflexivity].
    all: cbn [db trace fresh ui shipment_requests shipment_request_logs].
    all: rewrite find_map_same
      by (intros x; destruct (str_eqb (sr_id x) (c :: r)) eqn:Hx;
          cbn [sr_id]; now rewrite ?Hx).
    all: rewrite Hrow; cbn [option_map].
    all: pose proof (find_some _ _ Hrow) as [_ Hid]; cbn beta in Hid; rewrite Hid.
    all: do 2 eexists; split; [reflexivity|]; cbn [sr_status sr_extracted_data];
      split; [reflexivity|]; split; [reflexivity|]; split;
      [apply get_field_spread_same
      | intros other Ho; now apply get_field_spread_other].
  - intros [Hsel|Hupd].
    + destruct (select_error E (length (trace s))); [|congruence].
      split; reflexivity.
    + destruct (select_error E (length (trace s)));
        cbn [db trace fresh ui length fst snd]; [split; reflexivity|].
      rewrite Hrow. cbn [resp_error resp_data db trace fresh ui length fst snd].
      destruct (update_error E (S (length (trace s)))); [|congruence].
      split; reflexivity.
Qed.

Lemma handleFieldBlur_saves_locally_witness :
  let s' := after (DataTable.handleFieldBlur false k_consigneeName
                     (VString (lit "ACME")) (VString (lit "KABOFER TRADING INC")))
                  Fixture.E_offline ReviewFixture.in_review in
  exists doc',
    DataTable.currentDocument (ui s') = Some doc'
    /\ doc_id doc' = doc_id ReviewFixture.doc_in_review
    /\ get_field k_consigneeName (data doc') = VString (lit "ACME")
    /\ (forall other, other <> k_consigneeName ->
                      get_field other (data doc')
                      = get_field other (data ReviewFixture.doc_in_review)).
Proof.
  apply (handleFieldBlur_saves_locally false k_consigneeName
           (VString (lit "ACME")) (VString (lit "KABOFER TRADING INC"))
           Fixture.E_offline ReviewFixture.in_review ReviewFixture.doc_in_review);
    reflexivity.
Defined.

Lemma handleFieldBlur_persists_one_field_witness :
  let run := DataTable.handleFieldBlur false k_consigneeName
               (VString (lit "ACME")) (VString (lit "KABOFER TRADING INC")) in
  let before := match sr_extracted_data ReviewFixture.row_in_review with
                | Some d => d
                | None => empty_object
                end in
  (select_error Fixture.E_ok (length (trace ReviewFixture.in_review)) = None ->
   update_error Fixture.E_ok (S (length (trace ReviewFixture.in_review))) = None ->
   (exists row' d',
       stored (lit "r1") (db (after run Fixture.E_ok ReviewFixture.in_review)) = Some row'
       /\ sr_status row' = sr_status ReviewFixture.row_in_review
       /\ sr_extracted_data row' = Some d'
       /\ get_field k_consigneeName d' = VString (lit "ACME")
       /\ (forall other, other <> k_consigneeName ->
                         get_field other d' = get_field other before))
   /\ result run Fixture.E_ok ReviewFixture.in_review
      = Normal (match user (auth_getUser Fixture.E_ok
                              (2 + length (trace ReviewFixture.in_review))) with
                | Some _ =>
                    Some {| DataTable.edit_field := k_consigneeName;
                            DataTable.old_value :=
                              if truthy (VString (lit "KABOFER TRADING INC"))
                              then VString (lit "KABOFER TRADING INC")
                              else VString [];
                            DataTable.new_value := VString (lit "ACME") |}
                | None => None
                end))
  /\ (select_error Fixture.E_ok (length (trace ReviewFixture.in_review)) <> None
      \/ update_error Fixture.E_ok (S (length (trace ReviewFixture.in_review))) <> None ->
      shipment_requests (db (after run Fixture.E_ok ReviewFixture.in_review))
      = shipment_requests (db ReviewFixture.in_review)
      /\ result run Fixture.E_ok ReviewFixture.in_review = Normal None).
Proof.
  apply (handleFieldBlur_persists_one_field false k_consigneeName
           (VString (lit "ACME")) (VString (lit "KABOFER TRADING INC"))
           Fixture.E_ok ReviewFixture.in_review ReviewFixture.doc_in_review
           ReviewFixture.open_batch (lit "r1") ReviewFixture.row_in_review);
    try reflexivity.
  discriminate.
Defined.

(* ===================================================================== *)
(** * Handlers that overlap *)
(* ===================================================================== *)

Lemma NoDup_map_eq {A B} (f : A -> B) l x y :
  NoDup (map f l) -> In x l -> In y l -> f x = f y -> x = y.
Proof.
  induction l as [|a l IH]; intros Hnd Hx Hy Hf; [destruct Hx|].
  cbn [map] in Hnd. inversion Hnd as [|? ? Hnotin Hnd']; subst.
  destruct Hx as [->|Hx], Hy as [->|Hy]; auto.
  - exfalso. apply Hnotin. rewrite Hf. now apply in_map.
  - exfalso. apply Hnotin. rewrite <- Hf. now apply in_map.
Qed.

Lemma mirror_other rid st b :
  shipmentRequestId b <> Some rid -> mirror rid st b = b.
Proof.
  intros H. unfold mirror, DocumentContext.opt_eqb.
  destruct (shipmentRequestId b) as [x|]; [|reflexivity].
  destruct (str_eqb x rid) eqn:Hx; [|reflexivity].
  apply str_eqb_eq in Hx. subst x. contradiction.
Qed.

Lemma mirror_id rid st b : Types.id (mirror rid st b) = Types.id b.
Proof.
  unfold mirror. now destruct (DocumentContext.opt_eqb (shipmentRequestId b) rid).
Qed.

(** X28.  Handlers can overlap, and then the session can lose step.
    When the user clicks a session item of another record while
    [handleSubmitCompletion] waits for its last request, the completion
    goes on with the [updateBatchStatus] of its own render, which tests
    the current batch it saw and updates the one of the moment: the batch
    just clicked becomes current as completed, although its record was
    not completed in the store and the same batch in the list keeps its
    status.  With distinct batch ids the current batch is then none of
    the batches. *)
Theorem click_during_completion
    (E : Env) (s : Sys) (cb other : ProcessBatch) (rid user_id : jsstring)
    (item : HistoryList.HistoryItem) :
  currentBatch (ui s) = Some cb ->
  shipmentRequestId cb = Some rid ->
  rid <> [] ->
  user (auth_getUser E (length (trace s))) = Some user_id ->
  update_error E (S (length (trace s))) = None ->
  HistoryList.source item = HistoryList.session ->
  find (fun b => str_eqb (Types.id b) (HistoryList.id item)) (batches (ui s))
  = Some other ->
  shipmentRequestId other <> Some rid ->
  let s' := after (DataTable.handleSubmitCompletion_of (Some cb)
                     (HistoryList.handleItemClick item) false) E s in
  currentBatch (ui s') = Some (DocumentContext.set_status other DataTable.completed)
  /\ batches (ui s') = map (mirror rid DataTable.completed) (batches (ui s))
  /\ In other (batches (ui s'))
  /\ map sr_status (shipment_requests (db s'))
     = map (fun r => if str_eqb (sr_id r) rid
                     then DataTable.completed else sr_status r)
           (shipment_requests (db s))
  /\ (NoDup (map Types.id (batches (ui s))) ->
      status other <> Some DataTable.completed ->
      current_known (ui s') -> False).
Proof.
  intros Hcb Hrid Hne Huser Hupd Hsrc Hfind Hother. cbv zeta.
  assert (Hrun :
    ui (after (DataTable.handleSubmitCompletion_of (Some cb)
                 (HistoryList.handleItemClick item) false) E s)
    = {| batches := map (mirror rid DataTable.completed) (batches (ui s));
         currentBatch := Some (DocumentContext.set_status other DataTable.completed);
         currentDocument := currentDocument (ui s);
         isProcessing := isProcessing (ui s);
         error := error (ui s) |}
    /\ shipment_requests
         (db (after (DataTable.handleSubmitCompletion_of (Some cb)
                       (HistoryList.handleItemClick item) false) E s))
       = map (fun r : ShipmentRequest =>
                if str_eqb (sr_id r) rid then
                  {| sr_id := sr_id r; sr_title := sr_title r;
                     sr_description := sr_description r;
                     sr_status := DataTable.completed;
                     sr_extracted_data := sr_extracted_data r;
                     sr_user_id := sr_user_id r; sr_created_at := sr_created_at r |}
                else r) (shipment_requests (db s))).
  { destruct cb as [bid bt bd bst bf bat bc brid]. cbn [shipmentRequestId] in Hrid.
    subst brid. destruct rid as [|c r]; [contradiction|].
    unfold after, DataTable.handleSubmitCompletion_of, HistoryList.handleItemClick,
      DocumentContext.updateBatchStatus_of.
    unfold_world.
    destruct (auth_getUser E (length (trace s))) as [u ae]. cbn [user] in Huser.
    subst u. cbn [user db trace fresh ui length]. rewrite Hupd.
    cbn [db trace fresh ui length].
    destruct (log_error E (S (S (length (trace s)))));
      cbn [db trace fresh ui length batches currentBatch currentDocument
           isProcessing error fst snd];
      rewrite Hsrc, Hfind;
      cbn [db trace fresh ui length batches currentBatch currentDocument
           isProcessing error fst snd shipmentRequestId DocumentContext.opt_eqb];
      rewrite str_eqb_refl;
      cbn [db trace fresh ui length batches currentBatch currentDocument
           isProcessing error fst snd option_map shipment_requests];
      split; reflexivity. }
  destruct Hrun as [Hui Hdb]. rewrite Hui, Hdb.
  cbn [batches currentBatch].
  assert (Hin : In other (batches (ui s))) by (now apply find_some in Hfind).
  split; [reflexivity|]. split; [reflexivity|]. split.
  - rewrite <- (mirror_other rid DataTable.completed other Hother). now apply in_map.
  - split; [apply completed_rows|].
    intros Hnd Hst Hknown. unfold current_known in Hknown. cbn in Hknown.
    apply in_map_iff in Hknown. destruct Hknown as (x & Hx & Hxin).
    assert (Hid : Types.id x = Types.id other).
    { rewrite <- (mirror_id rid DataTable.completed x), Hx. reflexivity. }
    pose proof (NoDup_map_eq Types.id _ _ _ Hnd Hxin Hin Hid) as ->.
    rewrite (mirror_other rid DataTable.completed other Hother) in Hx.
    apply Hst. rewrite Hx. reflexivity.
Qed.

Lemma click_during_completion_witness :
  let s' := after (DataTable.handleSubmitCompletion_of (Some ReviewFixture.open_batch)
                     (HistoryList.handleItemClick OverlapFixture.other_item) false)
                  Fixture.E_ok OverlapFixture.two_batches in
  currentBatch (ui s')
  = Some (DocumentContext.set_status OverlapFixture.other_batch DataTable.completed)
  /\ batches (ui s')
     = map (mirror (lit "r1") DataTable.completed)
           (batches (ui OverlapFixture.two_batches))
  /\ In OverlapFixture.other_batch (batches (ui s'))
  /\ map sr_status (shipment_requests (db s'))
     = map (fun r => if str_eqb (sr_id r) (lit "r1")
                     then DataTable.completed else sr_status r)
           (shipment_requests (db OverlapFixture.two_batches))
  /\ (current_known (ui s') -> False).
Proof.
  cbv zeta.
  destruct (click_during_completion Fixture.E_ok OverlapFixture.two_batches
              ReviewFixture.open_batch OverlapFixture.other_batch
              (lit "r1") (lit "u1") OverlapFixture.other_item
              eq_refl eq_refl ltac:(discriminate) eq_refl eq_refl eq_refl eq_refl
              ltac:(discriminate))
    as (Hcurrent & Hbatches & Hin & Hstore & Hlost).
  split; [exact Hcurrent|]. split; [exact Hbatches|]. split; [exact Hin|].
  split; [exact Hstore|].
  apply Hlost; [|discriminate].
  repeat constructor; cbn; intuition discriminate.
Defined.


(** X29.  Two loads of one record that overlap give the record two
    batches.  When the session does not hold the record and a second
    call is made from the same render before the first has its answer,
    each call looks the record up in the batches its render saw, finds
    none, and puts a batch of its own in front: the session ends with
    two batches of the record, both with the record id as their id, the
    later one current, after two reads and no write. *)
Theorem overlapping_loads_add_two
    (id : jsstring) (E : Env) (s : Sys) (row : ShipmentRequest) :
  in_memory id (ui s) = None ->
  select_error E (length (trace s)) = None ->
  select_error E (S (length (trace s))) = None ->
  stored id (db s) = Some row ->
  let s' := after (overlapping_loads (batches (ui s)) id) E s in
  (exists b1 b2,
      batches (ui s') = b2 :: b1 :: batches (ui s)
      /\ currentBatch (ui s') = Some b2
      /\ Types.id b1 = id /\ Types.id b2 = id
      /\ shipmentRequestId b1 = Some id /\ shipmentRequestId b2 = Some id
      /\ Types.title b1 = sr_title row /\ Types.title b2 = sr_title row)
  /\ batches_of id (ui s') = 2%nat
  /\ db s' = db s
  /\ trace s' = SelectShipmentRequest id :: SelectShipmentRequest id :: trace s
  /\ isProcessing (ui s') = false
  /\ error (ui s') = None.
Proof.
  unfold in_memory, stored, batches_of. intros Hmem Hsel1 Hsel2 Hrow. cbv zeta.
  unfold after, overlapping_loads, DocumentContext.load_request,
    DocumentContext.load_resume.
  unfold_world. simpl. rewrite Hsel1. simpl. rewrite Hrow. simpl.
  rewrite Hsel2. simpl. rewrite ?Hrow. simpl.
  rewrite Hmem. simpl. rewrite str_eqb_refl. rewrite (filter_none _ _ Hmem).
  split; [|repeat split; reflexivity].
  match goal with
  | |- exists b1 b2, ?x2 :: ?x1 :: _ = _ /\ _ => exists x1, x2
  end.
  repeat split; reflexivity.
Qed.

Lemma overlapping_loads_add_two_witness :
  let s := reopened StoreFixture.session in
  let s' := after (overlapping_loads (batches (ui s)) (lit "r1")) Fixture.E_ok s in
  (exists b1 b2,
      batches (ui s') = b2 :: b1 :: batches (ui s)
      /\ currentBatch (ui s') = Some b2
      /\ Types.id b1 = lit "r1" /\ Types.id b2 = lit "r1"
      /\ shipmentRequestId b1 = Some (lit "r1")
      /\ shipmentRequestId b2 = Some (lit "r1")
      /\ Types.title b1 = sr_title StoreFixture.row1
      /\ Types.title b2 = sr_title StoreFixture.row1)
  /\ batches_of (lit "r1") (ui s') = 2%nat
  /\ db s' = db s
  /\ trace s' = SelectShipmentRequest (lit "r1")
                :: SelectShipmentRequest (lit "r1") :: trace s
  /\ isProcessing (ui s') = false
  /\ error (ui s') = None.
Proof.
  apply (overlapping_loads_add_two (lit "r1") Fixture.E_ok
           (reopened StoreFixture.session) StoreFixture.row1);
    reflexivity.
Defined.
